(** * kombine: the ensemble sampler of [kombine/sampler.py]

    A shallow embedding of the [Sampler] class: its four parallel
    history arrays, the iteration counter, [rollback], the
    Metropolis-Hastings loop of [sample] and the adaptive loop of
    [burnin].

    Conventions of the embedding.
    - Log-densities are IEEE binary64 numbers, as numpy's [float64]:
      Rocq's primitive floats, so [-inf] and [nan] behave as in numpy.
    - numpy arrays that a caller can hold a reference to live in a store
      ([vecs] for 1-D arrays, [mats] for 2-D ones); a reference is an
      index in the store.  [np.array(x)] allocates a fresh array, an
      assignment [a[mask] = ...] overwrites the array in place.
    - Python exceptions are results: every operation returns either a
      value or the exception it raises, together with the world it
      leaves behind.
    - The collaborators that are not part of the file (the posterior
      function, the density fitting of [clustered_kde], the random
      generator, [np.log], [ks_2samp]) are the fields of [Extern].  A
      collaborator that may answer differently from call to call is
      given the number of external calls made so far.
    - Arrays are taken with the shapes the docstrings give.  Where numpy
      would raise on a shape mismatch the model raises; the few
      mismatched shapes that numpy broadcasts are not modelled. *)

From stdpp Require Import base list.
From Stdlib Require Import ZArith Floats Uint63.
From Stdlib Require String.
Import String.StringSyntax.

Abbreviation string := String.string.

Set Warnings "-inexact-float".
Local Open Scope Z_scope.

(** ** Exceptions and results *)

Inductive exn : Type :=
| PyException (name : string)      (* an instance of a subclass of [Exception] *)
| KeyboardInterrupt
| PyBaseException (name : string). (* [SystemExit] and the like: not an [Exception] *)

Local Open Scope string_scope.

Definition ValueError := PyException "ValueError".
Definition IndexError := PyException "IndexError".
Definition TypeError := PyException "TypeError".
Definition AttributeError := PyException "AttributeError".
Definition OverflowError := PyException "OverflowError".
Definition ZeroDivisionError := PyException "ZeroDivisionError".
Definition UnboundLocalError := PyException "UnboundLocalError".

(** [except Exception] *)
Definition is_Exception (e : exn) : bool :=
  match e with PyException _ => true | _ => false end.

(** [except KeyboardInterrupt] *)
Definition is_KeyboardInterrupt (e : exn) : bool :=
  match e with KeyboardInterrupt => true | _ => false end.

Inductive result (A : Type) : Type :=
| Ok (a : A)
| Raise (e : exn).
Arguments Ok {A} a.
Arguments Raise {A} e.

(** ** The objects *)

Definition loc := nat.
Definition Pos := list float.

(** A fitted proposal density: the ensemble it was fitted to and the
    moment of the fit, which tells two fits of one ensemble apart. *)
Record KDE : Type := mkKDE { kde_id : nat; kde_data : list Pos }.

Record Sampler : Type := mkSampler {
  nwalkers : nat;
  dim : nat;
  iterations : nat;
  _kde : option KDE;
  pool : option nat;
  processes : option Z;
  _chain : list (list Pos);
  _lnpost : list (list float);
  _lnprop : list (list float);
  _acceptance : list (list float);
  _failed_p : option (list Pos)
}.

(** What the sampler asks of the outside, in order. *)
Inductive event : Type :=
| EvPosterior (x : Pos)
| EvDensity (k : KDE) (x : Pos)
| EvDraw (k : KDE) (N : nat)
| EvFit (positions : list Pos)
| EvRand (n : nat)
| EvPoolClose (id : nat)
| EvPool (procs : option Z)
| EvPrint (line : string).

Record World : Type := mkWorld {
  self : Sampler;
  vecs : list (list float);
  mats : list (list Pos);
  trace : list event
}.

Definition clock (w : World) : nat := length (trace w).

Record Extern : Type := mkExtern {
  lnpostfn : nat -> Pos -> result float;
  optimized_kde : nat -> list Pos -> option exn;
  kde_call : nat -> KDE -> Pos -> result float;
  kde_draw : nat -> KDE -> nat -> result (list Pos);
  np_random_rand : nat -> nat -> float;
  np_log : float -> float;
  ks_2samp : list float -> list float -> float * float
}.

(** ** The monad of the methods: a world in, a result and a world out *)

Definition M (A : Type) : Type := World -> result A * World.

Definition ret {A} (a : A) : M A := fun w => (Ok a, w).
Definition raise {A} (e : exn) : M A := fun w => (Raise e, w).
Definition bind {A B} (m : M A) (f : A -> M B) : M B :=
  fun w => match m w with
           | (Ok a, w') => f a w'
           | (Raise e, w') => (Raise e, w')
           end.

Notation "'let*' x ':=' m 'in' k" := (bind m (fun x => k))
  (at level 10, x pattern, k at level 200).
Notation "m ;; k" := (bind m (fun _ => k))
  (at level 100, k at level 200, right associativity).

(** [try: body  except <class>: handler; raise] *)
Definition try_reraise {A} (catches : exn -> bool) (body : M A) (handler : M unit) : M A :=
  fun w => match body w with
           | (Ok a, w') => (Ok a, w')
           | (Raise e, w') =>
               if catches e then
                 match handler w' with
                 | (Ok _, w'') => (Raise e, w'')
                 | (Raise e', w'') => (Raise e', w'')
                 end
               else (Raise e, w')
           end.

Definition lift {A} (r : result A) : M A := fun w => (r, w).
Definition get_self : M Sampler := fun w => (Ok (self w), w).
Definition set_self (s : Sampler) : M unit :=
  fun w => (Ok tt, mkWorld s (vecs w) (mats w) (trace w)).
Definition emit (e : event) : M unit :=
  fun w => (Ok tt, mkWorld (self w) (vecs w) (mats w) (trace w ++ [e])).
Definition now : M nat := fun w => (Ok (clock w), w).

(** The store.  A reference a caller holds always points to an array;
    reading any other index gives the empty array. *)
Definition vec_at (w : World) (r : loc) : list float := default [] (vecs w !! r).
Definition mat_at (w : World) (r : loc) : list Pos := default [] (mats w !! r).

Definition read_vec (r : loc) : M (list float) := fun w => (Ok (vec_at w r), w).
Definition read_mat (r : loc) : M (list Pos) := fun w => (Ok (mat_at w r), w).
Definition write_vec (r : loc) (v : list float) : M unit :=
  fun w => (Ok tt, mkWorld (self w) (<[r := v]> (vecs w)) (mats w) (trace w)).
Definition write_mat (r : loc) (m : list Pos) : M unit :=
  fun w => (Ok tt, mkWorld (self w) (vecs w) (<[r := m]> (mats w)) (trace w)).
Definition new_vec (v : list float) : M loc :=
  fun w => (Ok (length (vecs w)), mkWorld (self w) (vecs w ++ [v]) (mats w) (trace w)).
Definition new_mat (m : list Pos) : M loc :=
  fun w => (Ok (length (mats w)), mkWorld (self w) (vecs w) (mats w ++ [m]) (trace w)).

Definition modify (f : Sampler -> Sampler) : M unit :=
  fun w => (Ok tt, mkWorld (f (self w)) (vecs w) (mats w) (trace w)).

Definition set_histories (c : list (list Pos)) (lp lq a : list (list float))
    (s : Sampler) : Sampler :=
  mkSampler (nwalkers s) (dim s) (iterations s) (_kde s) (pool s) (processes s)
            c lp lq a (_failed_p s).
Definition set_chain (c : list (list Pos)) (s : Sampler) : Sampler :=
  set_histories c (_lnpost s) (_lnprop s) (_acceptance s) s.
Definition set_lnpost (h : list (list float)) (s : Sampler) : Sampler :=
  set_histories (_chain s) h (_lnprop s) (_acceptance s) s.
Definition set_lnprop (h : list (list float)) (s : Sampler) : Sampler :=
  set_histories (_chain s) (_lnpost s) h (_acceptance s) s.
Definition set_acceptance (h : list (list float)) (s : Sampler) : Sampler :=
  set_histories (_chain s) (_lnpost s) (_lnprop s) h s.
Definition set_iterations (n : nat) (s : Sampler) : Sampler :=
  mkSampler (nwalkers s) (dim s) n (_kde s) (pool s) (processes s)
            (_chain s) (_lnpost s) (_lnprop s) (_acceptance s) (_failed_p s).
Definition set_kde (k : option KDE) (s : Sampler) : Sampler :=
  mkSampler (nwalkers s) (dim s) (iterations s) k (pool s) (processes s)
            (_chain s) (_lnpost s) (_lnprop s) (_acceptance s) (_failed_p s).
Definition set_pool (q : option nat) (s : Sampler) : Sampler :=
  mkSampler (nwalkers s) (dim s) (iterations s) (_kde s) q (processes s)
            (_chain s) (_lnpost s) (_lnprop s) (_acceptance s) (_failed_p s).
Definition set_failed_p (f : option (list Pos)) (s : Sampler) : Sampler :=
  mkSampler (nwalkers s) (dim s) (iterations s) (_kde s) (pool s) (processes s)
            (_chain s) (_lnpost s) (_lnprop s) (_acceptance s) f.

(** ** numpy *)

(** [a[:k]] and [a[k:]], a negative [k] counting from the end *)
Definition slice_to {A} (k : Z) (a : list A) : list A :=
  take (Z.to_nat (if k <? 0 then Z.of_nat (length a) + k else k)) a.
Definition slice_from {A} (k : Z) (a : list A) : list A :=
  drop (Z.to_nat (if k <? 0 then Z.of_nat (length a) + k else k)) a.

(** [a[i] = row] on the first axis: the index is resolved first, then
    the row must have the shape of a row of [a] *)
Definition set_row {A} (shape_ok : bool) (a : list A) (i : nat) (row : A) : result (list A) :=
  if (i <? length a)%nat then
    if shape_ok then Ok (<[i := row]> a) else Raise ValueError
  else Raise IndexError.

(** an elementwise operation on two 1-D arrays *)
Definition ew2 (f : float -> float -> float) (a b : list float) : result (list float) :=
  if (length a =? length b)%nat then Ok (zip_with f a b) else Raise ValueError.

(** [a[mask]] *)
Fixpoint select {A} (mask : list bool) (a : list A) : list A :=
  match mask, a with
  | b :: mask', x :: a' => if b then x :: select mask' a' else select mask' a'
  | _, _ => []
  end.

(** [a[mask] = vals], one value for each true entry of the mask *)
Fixpoint scatter {A} (mask : list bool) (vals a : list A) : list A :=
  match mask, a with
  | true :: mask', x :: a' =>
      match vals with
      | v :: vals' => v :: scatter mask' vals' a'
      | [] => x :: a'
      end
  | false :: mask', x :: a' => x :: scatter mask' vals a'
  | _, _ => a
  end.

(** [a[mask] = b[mask]] *)
Definition masked_assign {A} (mask : list bool) (a b : list A) : result (list A) :=
  if ((length mask =? length a) && (length mask =? length b))%nat
  then Ok (scatter mask (select mask b) a)
  else Raise IndexError.

Definition np_any (a : list bool) : bool := existsb id a.
Definition np_sum_bool (a : list bool) : nat :=
  sum_list_with (fun b : bool => if b then 1%nat else 0%nat) a.
Definition of_bool (b : bool) : float := if b then 1%float else 0%float.
Definition of_nat (n : nat) : float := PrimFloat.of_uint63 (Uint63.of_Z (Z.of_nat n)).

(** the shapes [(nwalkers, dim)] and [(nwalkers,)] *)
Definition has_shape2 (n d : nat) (p : list Pos) : bool :=
  (length p =? n)%nat && forallb (fun row => (length row =? d)%nat) p.
Definition has_shape1 {A} (n : nat) (v : list A) : bool := (length v =? n)%nat.

(** [int(x)]: truncation towards zero *)
Definition py_int (x : float) : result Z :=
  match Prim2SF x with
  | S754_zero _ => Ok 0
  | S754_infinity _ => Raise OverflowError
  | S754_nan => Raise ValueError
  | S754_finite s m e =>
      let a := if 0 <=? e then Z.pos m * 2 ^ e else Z.pos m / 2 ^ (- e) in
      Ok (if s then - a else a)
  end.

(** [np.mean] of a 1-D array, and along the first axis of an array
    with [n] columns.  The entries averaged below are zeros and ones,
    whose sums are exact in any order of summation. *)
Definition np_sum (a : list float) : float := foldl PrimFloat.add 0%float a.
Definition np_mean (a : list float) : float := (np_sum a / of_nat (length a))%float.
Definition np_mean_axis0 (n : nat) (a : list (list float)) : list float :=
  map (fun j => np_mean (map (fun row => default 0%float (row !! j)) a)) (seq 0 n).

(** [np.sort]: ascending, [nan] last *)
Definition sort_le (x y : float) : bool := (x <=? y)%float || PrimFloat.is_nan y.
Fixpoint insert_sorted (x : float) (l : list float) : list float :=
  match l with
  | [] => [x]
  | y :: l' => if sort_le x y then x :: l else y :: insert_sorted x l'
  end.
Definition np_sort (a : list float) : list float := foldr insert_sorted [] a.

(** [a[:, par]] *)
Definition column (par : nat) (a : list Pos) : result (list float) :=
  if forallb (fun row => (par <? length row)%nat) a
  then Ok (map (fun row => default 0%float (row !! par)) a)
  else Raise IndexError.

(** ** The methods of [Sampler] *)

Definition Sampler_init (nwalkers ndim : nat) (processes : option Z) (pool : option nat)
    : M unit :=
  set_self (mkSampler nwalkers ndim 0 None pool processes [] [] [] [] None) ;;
  match processes, pool with
  | Some 1, _ => ret tt
  | _, Some _ => ret tt
  | _, None => let* t := now in emit (EvPool processes) ;; modify (set_pool (Some t))
  end.

Definition rollback (iteration : Z) : M unit :=
  modify (fun s => set_chain (slice_to iteration (_chain s)) s) ;;
  modify (fun s => set_lnpost (slice_to iteration (_lnpost s)) s) ;;
  modify (fun s => set_lnprop (slice_to iteration (_lnprop s)) s) ;;
  modify (fun s => set_acceptance (slice_to iteration (_acceptance s)) s) ;;
  let* s := get_self in
  match processes s with
  | Some 1 => ret tt
  | _ =>
      match pool s with
      | None => raise AttributeError
      | Some q =>
          emit (EvPoolClose q) ;;
          let* t := now in
          emit (EvPool (processes s)) ;;
          modify (set_pool (Some t))
      end
  end.

Definition failed_p (w : World) : option (list Pos) := _failed_p (self w).
Definition chain (w : World) : list (list Pos) := _chain (self w).
Definition lnpost (w : World) : list (list float) := _lnpost (self w).
Definition lnprop (w : World) : list (list float) := _lnprop (self w).
Definition acceptance (w : World) : list (list float) := _acceptance (self w).

Section Methods.
Context (X : Extern).

Definition draw (N : nat) : M (list Pos) :=
  let* s := get_self in
  match _kde s with
  | None => raise AttributeError
  | Some k => let* t := now in emit (EvDraw k N) ;; lift (kde_draw X t k N)
  end.

(** [optimized_kde(p, pool=self.pool)] *)
Definition fit (p : list Pos) : M KDE :=
  let* t := now in
  emit (EvFit p) ;;
  match optimized_kde X t p with
  | Some e => raise e
  | None => ret (mkKDE t p)
  end.

Definition GetLnProbWrapper (kde : option KDE) (p : Pos) : M (float * float) :=
  let* t := now in
  emit (EvPosterior p) ;;
  let* lnpost := lift (lnpostfn X t p) in
  match kde with
  | None => raise TypeError
  | Some k =>
      let* t' := now in
      emit (EvDensity k p) ;;
      let* d := lift (kde_call X t' k p) in
      ret (lnpost, d)
  end.

(** [map] and [pool.map]: in order, stopping at the first exception *)
Fixpoint map_M {A B} (f : A -> M B) (l : list A) : M (list B) :=
  match l with
  | [] => ret []
  | x :: l' => let* y := f x in let* ys := map_M f l' in ret (y :: ys)
  end.

(** [results = np.array(m(GetLnProbWrapper(self._get_lnpost, self._kde), p))]
    and its columns [results[:, 0]], [results[:, 1]] *)
Definition evaluate (p : list Pos) : M (list float * list float) :=
  let* s := get_self in
  let* results := map_M (GetLnProbWrapper (_kde s)) p in
  match results with
  | [] => raise IndexError
  | _ => ret (map fst results, map snd results)
  end.

(** *** [sample] *)

(** lines 259-268: the Metropolis-Hastings ratio and the acceptance mask *)
Definition ln_mh_ratio (lnpost_p lnpost lnprop lnprop_p : list float)
    : result (list float) :=
  match ew2 PrimFloat.sub lnpost_p lnpost with
  | Raise e => Raise e
  | Ok d1 =>
      match ew2 PrimFloat.add d1 lnprop with
      | Raise e => Raise e
      | Ok d2 => ew2 PrimFloat.sub d2 lnprop_p
      end
  end.

Definition decide_worse (ratio uniform_draws : list float) : list bool :=
  zip_with (fun r u => (np_log X u <? r)%float) ratio uniform_draws.

Definition accept (ratio : list float) : M (list bool) :=
  let acc := map (fun r => (0 <? r)%float) ratio in
  let worse := map negb acc in
  let nworse := np_sum_bool worse in
  let* t := now in
  emit (EvRand nworse) ;;
  let uniform_draws := map (np_random_rand X t) (seq 0 nworse) in
  ret (scatter worse (decide_worse (select worse ratio) uniform_draws) acc).

(** lines 271-274 *)
Definition update (acc : list bool) (p lnpost lnprop : loc)
    (p_p : list Pos) (lnpost_p lnprop_p : list float) : M unit :=
  if np_any acc then
    let* pv := read_mat p in
    let* pv' := lift (masked_assign acc pv p_p) in
    write_mat p pv' ;;
    let* lv := read_vec lnpost in
    let* lv' := lift (masked_assign acc lv lnpost_p) in
    write_vec lnpost lv' ;;
    let* qv := read_vec lnprop in
    let* qv' := lift (masked_assign acc qv lnprop_p) in
    write_vec lnprop qv'
  else ret tt.

(** lines 277-282 *)
Definition store (acc : list bool) (p lnpost lnprop : loc) : M unit :=
  let* s := get_self in
  let i := iterations s in
  let n := nwalkers s in
  let* pv := read_mat p in
  let* c := lift (set_row (has_shape2 n (dim s) pv) (_chain s) i pv) in
  modify (set_chain c) ;;
  let* lv := read_vec lnpost in
  let* h := lift (set_row (has_shape1 n lv) (_lnpost s) i lv) in
  modify (set_lnpost h) ;;
  let* qv := read_vec lnprop in
  let* h := lift (set_row (has_shape1 n qv) (_lnprop s) i qv) in
  modify (set_lnprop h) ;;
  let* h := lift (set_row (has_shape1 n acc) (_acceptance s) i (map of_bool acc)) in
  modify (set_acceptance h) ;;
  modify (set_iterations (S i)).

(** lines 285-286 *)
Definition refit (update_interval : Z) (p : loc) : M unit :=
  let* s := get_self in
  if update_interval =? 0 then raise ZeroDivisionError
  else if Z.of_nat (iterations s) mod update_interval =? 0 then
    let* pv := read_mat p in
    let* k := fit pv in
    modify (set_kde (Some k))
  else ret tt.

(** lines 251-256 *)
Definition on_evaluation_error (p_p : list Pos) : M unit :=
  let* s := get_self in
  rollback (Z.of_nat (iterations s)) ;;
  modify (set_failed_p (Some p_p)) ;;
  emit (EvPrint "Offending samples stored in ``failed_p``.").

(** lines 288-290 *)
Definition on_interrupt : M unit :=
  let* s := get_self in
  rollback (Z.of_nat (iterations s)).

(** the body of the loop, lines 238-290 *)
Definition mh_iteration (update_interval : Z) (p lnpost lnprop : loc) : M unit :=
  try_reraise is_KeyboardInterrupt
    (let* s := get_self in
     let* p_p := draw (nwalkers s) in
     let* (lnpost_p, lnprop_p) :=
       try_reraise is_Exception (evaluate p_p) (on_evaluation_error p_p) in
     let* lv := read_vec lnpost in
     let* qv := read_vec lnprop in
     let* ratio := lift (ln_mh_ratio lnpost_p lv qv lnprop_p) in
     let* acc := accept ratio in
     update acc p lnpost lnprop p_p lnpost_p lnprop_p ;;
     store acc p lnpost lnprop ;;
     refit update_interval p)
    on_interrupt.

Fixpoint sample_loop (n : nat) (update_interval : Z) (p lnpost lnprop : loc) : M unit :=
  match n with
  | O => ret tt
  | S n' =>
      mh_iteration update_interval p lnpost lnprop ;;
      sample_loop n' update_interval p lnpost lnprop
  end.

(** lines 204-207 *)
Definition initial_positions (p0 : option loc) : M loc :=
  match p0 with
  | None => let* s := get_self in let* d := draw (nwalkers s) in new_mat d
  | Some r => let* v := read_mat r in new_mat v
  end.

(** lines 215-216 *)
Definition ensure_kde (p : loc) : M unit :=
  let* s := get_self in
  match _kde s with
  | None => let* pv := read_mat p in let* k := fit pv in modify (set_kde (Some k))
  | Some _ => ret tt
  end.

(** lines 218-225 *)
Definition initial_values (p : loc) (lnpost0 lnprop0 : option loc) : M (loc * loc) :=
  match lnpost0, lnprop0 with
  | Some a, Some b => ret (a, b)
  | _, _ =>
      let* pv := read_mat p in
      let* (r0, r1) := evaluate pv in
      let* lnpost := match lnpost0 with None => new_vec r0 | Some a => ret a end in
      let* lnprop := match lnprop0 with None => new_vec r1 | Some b => ret b end in
      ret (lnpost, lnprop)
  end.

(** lines 228-235 *)
Definition preallocate (iterations : Z) : M unit :=
  if iterations <? 0 then raise ValueError
  else
    let n := Z.to_nat iterations in
    modify (fun s => set_chain
      (_chain s ++ replicate n (replicate (nwalkers s) (replicate (dim s) 0%float))) s) ;;
    modify (fun s => set_lnpost (_lnpost s ++ replicate n (replicate (nwalkers s) 0%float)) s) ;;
    modify (fun s => set_lnprop (_lnprop s ++ replicate n (replicate (nwalkers s) 0%float)) s) ;;
    modify (fun s => set_acceptance
      (_acceptance s ++ replicate n (replicate (nwalkers s) 0%float)) s).

(** lines 204-235: all that [sample] does before its loop *)
Definition sample_setup (p0 lnpost0 lnprop0 : option loc) (iterations : Z)
    : M (loc * loc * loc) :=
  let* p := initial_positions p0 in
  ensure_kde p ;;
  let* (lnpost, lnprop) := initial_values p lnpost0 lnprop0 in
  preallocate iterations ;;
  ret (p, lnpost, lnprop).

Definition sample (p0 lnpost0 lnprop0 : option loc) (iterations update_interval : Z)
    : M (loc * loc * loc) :=
  let* (p, lnpost, lnprop) := sample_setup p0 lnpost0 lnprop0 iterations in
  sample_loop (Z.to_nat iterations) update_interval p lnpost lnprop ;;
  ret (p, lnpost, lnprop).

(** *** [burnin] *)

Definition critical_pval : float := 0.05%float.

(** lines 130-136: no dimension fails the two-sample test *)
Fixpoint ks_pass (pars : list nat) (p0 p : list Pos) : result bool :=
  match pars with
  | [] => Ok true
  | par :: pars' =>
      match column par p0, column par p with
      | Raise e, _ => Raise e
      | _, Raise e => Raise e
      | Ok c0, Ok c =>
          if (snd (ks_2samp X c0 c) <? critical_pval)%float then Ok false
          else ks_pass pars' p0 p
      end
  end.

(** lines 142-155: the next test interval *)
Definition next_test_interval (s : Sampler) : result Z :=
  match last (_acceptance s) with
  | None => Raise IndexError
  | Some row =>
      match py_int (10 * 1 / np_mean row)%float with
      | Raise e => Raise e
      | Ok window =>
          let acceptance_rates :=
            np_mean_axis0 (nwalkers s) (slice_from (- window) (_acceptance s)) in
          match py_int (0.1 * of_nat (nwalkers s))%float with
          | Raise e => Raise e
          | Ok index =>
              match np_sort acceptance_rates !! Z.to_nat index with
              | None => Raise IndexError
              | Some low_rate =>
                  if (0 <? low_rate)%float then py_int (1 / low_rate)%float
                  else Ok window
              end
          end
      end
  end.

(** [self.iterations + test_interval > max_iter], [max_iter] being
    [np.inf] when no [max_steps] is given *)
Definition exceeds (n : Z) (max_iter : option Z) : bool :=
  match max_iter with
  | None => false
  | Some m => m <? n
  end.

(** the [while] loop, lines 121-157.  [last] holds [(p, lnpost, lnprop)]
    once they are bound.  The result is [burned_in] and [last];
    [None] means that the fuel ran out. *)
Fixpoint burnin_loop (fuel : nat) (update_interval : Z) (max_iter : option Z)
    (test_interval : Z) (p0 : loc) (lnpost0 lnprop0 : option loc)
    (last : option (loc * loc * loc)) (w : World)
    : option (result (bool * option (loc * loc * loc)) * World) :=
  match fuel with
  | O => None
  | S fuel' =>
      if exceeds (Z.of_nat (iterations (self w)) + test_interval) max_iter
      then Some (Ok (false, last), w)
      else
        match sample (Some p0) lnpost0 lnprop0 test_interval update_interval w with
        | (Raise e, w1) => Some (Raise e, w1)
        | (Ok (p, lnpost, lnprop), w1) =>
            match ks_pass (seq 0 (dim (self w1))) (mat_at w1 p0) (mat_at w1 p) with
            | Raise e => Some (Raise e, w1)
            | Ok true => Some (Ok (true, Some (p, lnpost, lnprop)), w1)
            | Ok false =>
                match next_test_interval (self w1) with
                | Raise e => Some (Raise e, w1)
                | Ok test_interval' =>
                    burnin_loop fuel' update_interval max_iter test_interval'
                      p (Some lnpost) (Some lnprop) (Some (p, lnpost, lnprop)) w1
                end
            end
        end
  end.

(** lines 104-119: the copy of [p0], [max_iter] and the first test interval *)
Definition burnin_entry (p0 : loc) (update_interval : Z) (max_steps : option Z)
    : M (loc * option Z * Z) :=
  let* v := read_mat p0 in
  let* p0' := new_mat v in
  let* s := get_self in
  let start := Z.of_nat (iterations s) in
  ret (p0',
       option_map (fun max_steps => start + max_steps) max_steps,
       match max_steps with
       | None => update_interval
       | Some max_steps => Z.min update_interval max_steps
       end).

(** lines 159-162 *)
Definition burnin_exit (burned_in : bool) (last : option (loc * loc * loc))
    : M (loc * loc * loc) :=
  (if burned_in then ret tt else emit (EvPrint "Burnin unsuccessful.")) ;;
  match last with
  | None => raise UnboundLocalError
  | Some r => ret r
  end.

Definition burnin (fuel : nat) (p0 : loc) (lnpost0 lnprop0 : option loc)
    (update_interval : Z) (max_steps : option Z) (w : World)
    : option (result (loc * loc * loc) * World) :=
  match burnin_entry p0 update_interval max_steps w with
  | (Raise e, w0) => Some (Raise e, w0)
  | (Ok (p0', max_iter, test_interval), w0) =>
      match burnin_loop fuel update_interval max_iter test_interval
              p0' lnpost0 lnprop0 None w0 with
      | None => None
      | Some (Raise e, w1) => Some (Raise e, w1)
      | Some (Ok (burned_in, last), w1) => Some (burnin_exit burned_in last w1)
      end
  end.
End Methods.

(** * A concrete setting for the examples

    A one-dimensional standard normal posterior, a proposal density that
    is a wider normal and draws from a fixed table, a random generator
    that cycles through the tenths [0.0, 0.1, ..., 0.9], a logarithm by
    argument reduction and the series of [atanh], and a two-sample test
    that passes identical samples and otherwise computes the
    Kolmogorov-Smirnov statistic and rejects when it exceeds one half
    (in [strict]: when it is not zero). *)

Module Demo.

Definition ln2 : float := 0x1.62e42fefa39efp-1%float.

Fixpoint atanh_series (n : nat) (z z2 k : float) : float :=
  match n with
  | O => 0%float
  | S n' => (z / k + atanh_series n' (z * z2) z2 (k + 2))%float
  end.

Definition log (x : float) : float :=
  if PrimFloat.is_nan x then nan
  else if (x <? 0)%float then nan
  else if (x =? 0)%float then neg_infinity
  else if PrimFloat.is_infinity x then infinity
  else
    let '(m, e) := FloatOps.Z.frexp x in
    let z := ((m - 1) / (m + 1))%float in
    let fe := if e <? 0 then (- of_nat (Z.to_nat (- e)))%float else of_nat (Z.to_nat e) in
    (2 * atanh_series 30 z (z * z) 1 + fe * ln2)%float.

Definition ecdf (a : list float) (x : float) : float :=
  (of_nat (length (List.filter (fun y => (y <=? x)%float) a)) / of_nat (length a))%float.

Definition ks_stat (a b : list float) : float :=
  foldl (fun d x => let d' := PrimFloat.abs (ecdf a x - ecdf b x) in
                    if (d <? d')%float then d' else d) 0%float (a ++ b).

#[local] Instance spec_float_eq_dec : EqDecision spec_float.
Proof. solve_decision. Defined.

(** Two samples with the same numbers, bit for bit. *)
Definition identical (a b : list float) : bool :=
  bool_decide (map Prim2SF a = map Prim2SF b).

(** The test: identical samples pass; otherwise the statistic decides,
    against the threshold [d_max]. *)
Definition ks_with (d_max : float) (a b : list float) : float * float :=
  if identical a b then (0%float, 1%float)
  else let d := ks_stat a b in (d, if (d <=? d_max)%float then 1%float else 0%float).

Definition ks : list float -> list float -> float * float := ks_with 0.5.

(** A stricter test: it rejects as soon as the statistic is not zero. *)
Definition ks_strict : list float -> list float -> float * float := ks_with 0.

(** The posterior raises [ValueError] at the call numbered [fail_at]. *)
Definition posterior (fail_at : option nat) (t : nat) (x : Pos) : result float :=
  if bool_decide (fail_at = Some t) then Raise ValueError
  else match x with
       | [x0] => Ok (- (x0 * x0) / 2)%float
       | _ => Raise TypeError
       end.

Definition density (t : nat) (k : KDE) (x : Pos) : result float :=
  match x with
  | [x0] => Ok (- (x0 * x0) / 8)%float
  | _ => Raise TypeError
  end.

Definition table_draw (t : nat) (k : KDE) (N : nat) : result (list Pos) :=
  Ok (map (fun i => [(of_nat ((t * 7 + i * 3) mod 11) - 5)%float]) (seq 0 N)).

Definition tenths (t i : nat) : float := (of_nat ((t * 5 + i * 3) mod 10) / 10)%float.

Definition env (fail_at : option nat) : Extern := {|
  lnpostfn := posterior fail_at;
  optimized_kde := fun _ _ => None;
  kde_call := density;
  kde_draw := table_draw;
  np_random_rand := tenths;
  np_log := log;
  ks_2samp := ks
|}.

Definition strict : Extern := {|
  lnpostfn := posterior None;
  optimized_kde := fun _ _ => None;
  kde_call := density;
  kde_draw := table_draw;
  np_random_rand := tenths;
  np_log := log;
  ks_2samp := ks_strict
|}.

Definition nobody : Sampler := mkSampler 0 0 0 None None None [] [] [] [] None.

(** The caller holds the start positions of three walkers. *)
Definition start : World :=
  mkWorld nobody [] [[[0.5]; [1.5]; [-2]]%float] [].

(** [Sampler(3, 1, lnpostfn, processes=1)] *)
Definition fresh : World := snd (Sampler_init 3 1 (Some 1) None start).

(** [Sampler(3, 1, lnpostfn)], which opens a pool *)
Definition pooled : World := snd (Sampler_init 3 1 None None start).

End Demo.

(** * Properties *)

(** ** The states a sampler can be in *)

(** The four histories are as long as the iteration counter says. *)
Definition coherent (w : World) : Prop :=
  length (chain w) = iterations (self w) /\
  length (lnpost w) = iterations (self w) /\
  length (lnprop w) = iterations (self w) /\
  length (acceptance w) = iterations (self w).

(** The four histories hold at least the committed iterations. *)
Definition covers (w : World) : Prop :=
  (iterations (self w) <= length (chain w))%nat /\
  (iterations (self w) <= length (lnpost w))%nat /\
  (iterations (self w) <= length (lnprop w))%nat /\
  (iterations (self w) <= length (acceptance w))%nat.

(** A sampler with [processes != 1] has a pool, as [__init__] sees to. *)
Definition pool_ok (w : World) : Prop :=
  processes (self w) = Some 1 \/ pool (self w) <> None.

(** The settings of a sampler, which no method changes after [__init__]. *)
Definition config (s : Sampler) : nat * nat * option Z :=
  (nwalkers s, dim s, processes s).

(** ** Relations between the world before and after a run, and the
    settings of the examples *)

(** Events that neither fit a density, nor touch the pool, nor print. *)
Definition quiet (e : event) : bool :=
  match e with
  | EvFit _ | EvPool _ | EvPoolClose _ | EvPrint _ => false
  | _ => true
  end.

(** [w'] is [w] after some quiet questions to the outside. *)
Definition asks_only (w w' : World) : Prop :=
  self w' = self w /\ vecs w' = vecs w /\ mats w' = mats w /\
  exists evs, trace w' = trace w ++ evs /\ forallb quiet evs = true.

(** What [rollback(k)] does in every case: the four histories are
    sliced, nothing else of the sampler but the pool changes. *)
Definition rolled_back (k : Z) (w w' : World) : Prop :=
  chain w' = slice_to k (chain w) /\
  lnpost w' = slice_to k (lnpost w) /\
  lnprop w' = slice_to k (lnprop w) /\
  acceptance w' = slice_to k (acceptance w) /\
  iterations (self w') = iterations (self w) /\
  _kde (self w') = _kde (self w) /\
  failed_p w' = failed_p w /\
  config (self w') = config (self w) /\
  vecs w' = vecs w /\ mats w' = mats w /\
  exists evs, trace w' = trace w ++ evs /\
              forallb (fun e => match e with EvFit _ => false | _ => true end) evs = true.

(** Two iterations from a fresh sampler: the state the examples start from. *)
Definition two_steps : World :=
  snd (sample (Demo.env None) (Some 0%nat) None None 2 10 Demo.fresh).

(** The world of a fresh sampler after the set-up of [sample(p0, iterations=2)]:
    the positions are array 1, the log-values arrays 0 and 1. *)
Definition prepared : World :=
  snd (sample_setup (Demo.env None) (Some 0%nat) None None 2 Demo.fresh).

(** The first iteration from [prepared]. *)
Definition first_step : World :=
  snd (mh_iteration (Demo.env None) 10 1%nat 0%nat 1%nat prepared).

(** The rank of walker [j] among the walkers whose ratio is not
    positive: the index of its uniform draw. *)
Definition draw_index (ratio : list float) (j : nat) : nat :=
  np_sum_bool (take j (map negb (map (fun r => (0 <? r)%float) ratio))).

(** [m] takes every world to one related to it by [R], whether it
    returns or raises. *)
Definition steps {A} (R : World -> World -> Prop) (m : M A) : Prop :=
  forall w r w', m w = (r, w') -> R w w'.

(** What an iteration on the arrays [p], [a], [b] keeps: the
    configuration, every other array of the store, the histories'
    cover of the committed iterations, and a pool where one is due. *)
Definition keeps (p a b : loc) (w w' : World) : Prop :=
  config (self w') = config (self w) /\
  length (mats w') = length (mats w) /\
  (forall q, q <> p -> mats w' !! q = mats w !! q) /\
  length (vecs w') = length (vecs w) /\
  (forall q, q <> a -> q <> b -> vecs w' !! q = vecs w !! q) /\
  (covers w -> covers w') /\
  (pool_ok w -> pool_ok w') /\
  (iterations (self w) <= iterations (self w'))%nat /\
  (length (chain w') <= length (chain w))%nat.

(** Events other than the closing and the opening of a pool. *)
Definition no_pool (e : event) : bool :=
  match e with
  | EvPool _ | EvPoolClose _ => false
  | _ => true
  end.

(** What the set-up keeps before it extends the histories: histories,
    counter, failed batch, pool and configuration; the store only
    gains arrays, and the pool is not touched. *)
Definition extends (w w' : World) : Prop :=
  chain w' = chain w /\ lnpost w' = lnpost w /\ lnprop w' = lnprop w /\
  acceptance w' = acceptance w /\
  iterations (self w') = iterations (self w) /\
  failed_p w' = failed_p w /\ pool (self w') = pool (self w) /\
  config (self w') = config (self w) /\
  (exists l, mats w' = mats w ++ l) /\
  (exists l, vecs w' = vecs w ++ l) /\
  (exists evs, trace w' = trace w ++ evs /\ forallb no_pool evs = true).

(** The store of 2-D arrays only gains arrays. *)
Definition mats_grow (w w' : World) : Prop := exists l, mats w' = mats w ++ l.

(** A fresh sampler whose caller holds the start positions (array 0 of
    the positions) and their log-posterior and log-proposal values
    (arrays 0 and 1 of the values). *)
Definition supplied : World :=
  snd (Sampler_init 3 1 (Some 1) None
         (mkWorld Demo.nobody
            [[-0.125; -1.125; -2]; [-0.03125; -0.28125; -0.5]]%float
            [[[0.5]; [1.5]; [-2]]%float] [])).

Definition supplied_run : result (loc * loc * loc) * World :=
  sample (Demo.env None) (Some 0%nat) (Some 0%nat) (Some 1%nat) 2 10 supplied.

(** The posterior fails at its third call in the batch of the second
    iteration, in a sampler that holds a pool. *)
Definition failing : Extern := Demo.env (Some 21%nat).

(** The next test interval in the words of the specification: a window
    [w = round(10 / mean)] of the last iteration's acceptance; the
    acceptance rate of each walker over the last [w] iterations; the
    rate at index [floor(0.1 * nwalkers)] of the sorted rates as
    [low_rate]; then [round(1 / low_rate)] if [low_rate > 0], else [w].
    The rounding [round] is left open. *)
Definition stated_window (round : float -> result Z) (acceptance : list (list float))
    : result Z :=
  match last acceptance with
  | None => Raise IndexError
  | Some last_rates => round (10 / np_mean last_rates)%float
  end.

Definition stated_low_rate (nwalkers : nat) (w : Z) (acceptance : list (list float))
    : result float :=
  let per_walker := np_mean_axis0 nwalkers (slice_from (- w) acceptance) in
  match py_int (0.1 * of_nat nwalkers)%float with
  | Raise e => Raise e
  | Ok index =>
      match np_sort per_walker !! Z.to_nat index with
      | None => Raise IndexError
      | Some low_rate => Ok low_rate
      end
  end.

Definition stated_test_interval (round : float -> result Z) (nwalkers : nat)
    (acceptance : list (list float)) : result Z :=
  match stated_window round acceptance with
  | Raise e => Raise e
  | Ok w =>
      match stated_low_rate nwalkers w acceptance with
      | Raise e => Raise e
      | Ok low_rate =>
          if (0 <? low_rate)%float then round (1 / low_rate)%float else Ok w
      end
  end.

(** Rounding to the nearest integer, halves away from zero. *)
Definition nearest (x : float) : result Z :=
  py_int (if (0 <=? x)%float then x + 0.5 else x - 0.5)%float.

(** Five walkers, of which three accepted in the only iteration so far. *)
Definition three_of_five : Sampler :=
  mkSampler 5 1 1 None None (Some 1) [] [] [] [[1; 1; 1; 0; 0]%float] None.

(** The iteration counter is as it was. *)
Definition same_count (w w' : World) : Prop :=
  iterations (self w') = iterations (self w).

(** The proposal offers the mode of the posterior in the first
    iteration and a far point afterwards; the uniform draws are all
    one half.  Every walker accepts in the first iteration and none in
    the second. *)
Definition stalled : Extern := {|
  lnpostfn := Demo.posterior None;
  optimized_kde := fun _ _ => None;
  kde_call := Demo.density;
  kde_draw := fun t _ N => Ok (replicate N [if (t <? 10)%nat then 0%float else 9%float]);
  np_random_rand := fun _ _ => 0.5%float;
  np_log := Demo.log;
  ks_2samp := Demo.ks_strict
|}.

(** Histories that cover the committed iterations, and the pool. *)
Definition sound (w : World) : Prop := covers w /\ pool_ok w.

(** A run from a sound world ends in a sound world. *)
Definition keeps_sound (w w' : World) : Prop := sound w -> sound w'.

(** The histories have the shapes that the docstrings of the accessors
    give: every row of [chain] is [(nwalkers, dim)], every row of the
    other three is [(nwalkers,)]; and [acceptance] holds zeros and ones. *)
Definition binary (v : list float) : Prop :=
  Forall (fun x => x = 0%float \/ x = 1%float) v.

Definition shaped (w : World) : Prop :=
  Forall (fun m => has_shape2 (nwalkers (self w)) (dim (self w)) m = true) (chain w) /\
  Forall (fun v => length v = nwalkers (self w)) (lnpost w) /\
  Forall (fun v => length v = nwalkers (self w)) (lnprop w) /\
  Forall (fun v => length v = nwalkers (self w) /\ binary v) (acceptance w).

(** A run from a world with well-shaped histories ends in one. *)
Definition keeps_shaped (w w' : World) : Prop := shaped w -> shaped w'.

(** The failed batch is as it was. *)
Definition same_failed_p (w w' : World) : Prop := failed_p w' = failed_p w.

(** The user interrupts the posterior at the call numbered 21: in a
    sampler that holds a pool, its third call in the batch of the second
    iteration. *)
Definition interrupted : Extern := {|
  lnpostfn := fun t x =>
    if bool_decide (t = 21%nat) then Raise KeyboardInterrupt else Demo.posterior None t x;
  optimized_kde := fun _ _ => None;
  kde_call := Demo.density;
  kde_draw := Demo.table_draw;
  np_random_rand := Demo.tenths;
  np_log := Demo.log;
  ks_2samp := Demo.ks
|}.

(** The proposal draws once and fails afterwards. *)
Definition broken_draw : Extern := {|
  lnpostfn := Demo.posterior None;
  optimized_kde := fun _ _ => None;
  kde_call := Demo.density;
  kde_draw := fun t k N => if (t <? 10)%nat then Demo.table_draw t k N else Raise ValueError;
  np_random_rand := Demo.tenths;
  np_log := Demo.log;
  ks_2samp := Demo.ks
|}.

(** The number of fits of the proposal among some events. *)
Definition is_fit (e : event) : bool :=
  match e with EvFit _ => true | _ => false end.

Definition fits (evs : list event) : nat := length (List.filter is_fit evs).

(** Splits the run of [bind m f] at [m]. *)
Ltac run m :=
  let a := fresh "a" in let e := fresh "e" in let w := fresh "w" in
  let E := fresh "Run" in
  destruct m as [[a|e] w] eqn:E; simpl.

(** * Facts *)

Lemma coherent_covers w : coherent w -> covers w.
Proof. unfold coherent, covers. intros (-> & -> & -> & ->). lia. Qed.

(** ** numpy facts *)

Lemma slice_to_nat {A} (k : nat) (a : list A) : slice_to (Z.of_nat k) a = take k a.
Proof.
  unfold slice_to. destruct (Z.ltb_spec (Z.of_nat k) 0); [lia|]. by rewrite Nat2Z.id.
Qed.

Lemma set_row_length {A} ok (a a' : list A) i row :
  set_row ok a i row = Ok a' -> length a' = length a /\ (i < length a)%nat /\ a' = <[i := row]> a.
Proof.
  unfold set_row. destruct (i <? length a)%nat eqn:E; [|done].
  destruct ok; [|done]. intros [= <-]. rewrite length_insert.
  apply Nat.ltb_lt in E. done.
Qed.

Lemma scatter_length {A} (mask : list bool) (vals a : list A) :
  length (scatter mask vals a) = length a.
Proof.
  revert vals a. induction mask as [|[] mask IH]; intros vals [|x a]; simpl; try done.
  - destruct vals; simpl; [done|]. by rewrite IH.
  - by rewrite IH.
Qed.

(** Where the mask is false, [a[mask] = vals] leaves [a] as it is. *)
Lemma scatter_lookup_false {A} (mask : list bool) (vals a : list A) j :
  mask !! j = Some false -> scatter mask vals a !! j = a !! j.
Proof.
  revert vals a j. induction mask as [|b mask IH]; intros vals [|x a] j H; try done.
  - destruct b; [destruct vals|]; done.
  - destruct j as [|j]; simpl in *.
    + injection H as ->. done.
    + destruct b; [destruct vals|]; simpl; try done; by apply IH.
Qed.

(** Where the mask is true, [a[mask] = vals] stores the value whose rank
    is the number of true entries before. *)
Lemma scatter_lookup_true {A} (mask : list bool) (vals a : list A) j :
  mask !! j = Some true -> (j < length a)%nat ->
  length vals = np_sum_bool mask ->
  scatter mask vals a !! j = vals !! np_sum_bool (take j mask).
Proof.
  revert vals a j. induction mask as [|b mask IH]; intros vals [|x a] j H Hj Hv; try done.
  - simpl in Hj. lia.
  - destruct j as [|j]; simpl in *.
    + injection H as ->. destruct vals; [done|]. done.
    + destruct b; simpl in *.
      * destruct vals as [|v vals]; [done|]. simpl. apply IH; [done|lia|]. simpl in Hv. lia.
      * apply IH; [done|lia|done].
Qed.

Lemma select_length {A} (mask : list bool) (a : list A) :
  length mask = length a -> length (select mask a) = np_sum_bool mask.
Proof.
  revert a. induction mask as [|b mask IH]; intros [|x a] H; simpl in *; try done.
  destruct b; simpl; rewrite IH; lia.
Qed.

Lemma select_lookup {A} (mask : list bool) (a : list A) j :
  mask !! j = Some true -> select mask a !! np_sum_bool (take j mask) = a !! j.
Proof.
  revert a j. induction mask as [|b mask IH]; intros [|x a] j H; try done.
  destruct j as [|j]; simpl in *.
  - by injection H as ->.
  - destruct b; simpl; by apply IH.
Qed.

(** [a[mask] = b[mask]], entry by entry *)
Lemma masked_assign_lookup {A} (mask : list bool) (a b a' : list A) j :
  masked_assign mask a b = Ok a' ->
  a' !! j = match mask !! j with Some true => b !! j | _ => a !! j end.
Proof.
  unfold masked_assign.
  destruct (_ && _)%nat eqn:E; [|done]. intros [= <-].
  apply andb_true_iff in E as [Ea Eb]. apply Nat.eqb_eq in Ea, Eb.
  destruct (mask !! j) as [[]|] eqn:Hm.
  - rewrite scatter_lookup_true; [|done| |].
    + by apply select_lookup.
    + apply lookup_lt_Some in Hm. lia.
    + by apply select_length.
  - by apply scatter_lookup_false.
  - apply lookup_ge_None in Hm.
    rewrite !(proj2 (lookup_ge_None _ _)); [done|lia|rewrite scatter_length; lia].
Qed.

Lemma masked_assign_length {A} (mask : list bool) (a b a' : list A) :
  masked_assign mask a b = Ok a' -> length a' = length a.
Proof.
  unfold masked_assign. destruct (_ && _)%nat; [|done]. intros [= <-]. apply scatter_length.
Qed.

(** ** What each method does to the world *)

Lemma asks_only_refl w : asks_only w w.
Proof. repeat split. exists []. by rewrite app_nil_r. Qed.

Lemma asks_only_trans w1 w2 w3 : asks_only w1 w2 -> asks_only w2 w3 -> asks_only w1 w3.
Proof.
  intros (Hs & Hv & Hm & evs & Ht & Hq) (Hs' & Hv' & Hm' & evs' & Ht' & Hq').
  repeat split; try congruence.
  exists (evs ++ evs'). rewrite Ht', Ht, app_assoc. split; [done|].
  rewrite forallb_app, Hq, Hq'. done.
Qed.

Lemma asks_only_emit (e : event) w :
  quiet e = true -> asks_only w (snd (emit e w)).
Proof. intros H. repeat split. exists [e]. simpl. by rewrite H. Qed.

Lemma asks_only_vec w w' r : asks_only w w' -> vec_at w' r = vec_at w r.
Proof. intros (_ & H & _). unfold vec_at. by rewrite H. Qed.

Lemma asks_only_mat w w' r : asks_only w w' -> mat_at w' r = mat_at w r.
Proof. intros (_ & _ & H & _). unfold mat_at. by rewrite H. Qed.

Section Facts.
Context (X : Extern).

Lemma draw_asks N w r w' : draw X N w = (r, w') -> asks_only w w'.
Proof.
  unfold draw, bind, get_self, now, lift. simpl.
  destruct (_kde (self w)) as [k|]; simpl.
  - intros [= _ <-]. by apply (asks_only_emit (EvDraw k N)).
  - intros [= _ <-]. apply asks_only_refl.
Qed.

Lemma draw_run N w :
  draw X N w =
    match _kde (self w) with
    | Some k => (kde_draw X (clock w) k N,
                 mkWorld (self w) (vecs w) (mats w) (trace w ++ [EvDraw k N]))
    | None => (Raise AttributeError, w)
    end.
Proof.
  unfold draw, bind, get_self, now, lift. simpl. by destruct (_kde (self w)).
Qed.

Lemma GetLnProbWrapper_asks kde x w r w' :
  GetLnProbWrapper X kde x w = (r, w') -> asks_only w w'.
Proof.
  unfold GetLnProbWrapper, bind, now, lift, emit, raise, ret. simpl.
  destruct (lnpostfn X (clock w) x) as [v|e]; simpl.
  - destruct kde as [k|]; simpl.
    + destruct (kde_call X _ k x); simpl; intros [= _ <-];
        repeat split; exists [EvPosterior x; EvDensity k x]; by rewrite <- app_assoc.
    + intros [= _ <-]. repeat split. by exists [EvPosterior x].
  - intros [= _ <-]. repeat split. by exists [EvPosterior x].
Qed.

Lemma map_M_asks {A B} (f : A -> M B) (l : list A) :
  (forall x w r w', f x w = (r, w') -> asks_only w w') ->
  forall w r w', map_M f l w = (r, w') -> asks_only w w'.
Proof.
  intros Hf. induction l as [|x l IH]; simpl; intros w r w'.
  - intros [= _ <-]. apply asks_only_refl.
  - unfold bind. run (f x w).
    + run (map_M f l w0).
      * intros [= _ <-]. eapply asks_only_trans; eauto.
      * intros [= _ <-]. eapply asks_only_trans; eauto.
    + intros [= _ <-]. eauto.
Qed.

Lemma evaluate_asks p w r w' : evaluate X p w = (r, w') -> asks_only w w'.
Proof.
  unfold evaluate, bind, get_self. simpl.
  run (map_M (GetLnProbWrapper X (_kde (self w))) p w).
  - apply map_M_asks in Run; [|apply GetLnProbWrapper_asks].
    destruct a; simpl; intros [= _ <-]; done.
  - apply map_M_asks in Run; [|apply GetLnProbWrapper_asks].
    intros [= _ <-]; done.
Qed.

Lemma map_M_length {A B} (f : A -> M B) (l : list A) w r w' :
  map_M f l w = (Ok r, w') -> length r = length l.
Proof.
  revert w r w'. induction l as [|x l IH]; simpl; intros w r w'.
  - by intros [= <- _].
  - unfold bind. run (f x w); [|done]. run (map_M f l w0); [|done].
    intros [= <- _]. simpl. f_equal. eauto.
Qed.

(** A batch that evaluates has one pair of values for each position. *)
Lemma evaluate_length p w a b w' :
  evaluate X p w = (Ok (a, b), w') -> length a = length p /\ length b = length p.
Proof.
  unfold evaluate, bind, get_self. simpl.
  run (map_M (GetLnProbWrapper X (_kde (self w))) p w); [|done].
  apply map_M_length in Run.
  destruct a0; simpl; [done|]. intros [= <- <- _].
  rewrite !length_cons, !length_map. simpl in Run. done.
Qed.

Lemma accept_run ratio w :
  accept X ratio w =
    (Ok (let acc := map (fun r => (0 <? r)%float) ratio in
         let worse := map negb acc in
         scatter worse
           (decide_worse X (select worse ratio)
              (map (np_random_rand X (clock w)) (seq 0 (np_sum_bool worse))))
           acc),
     mkWorld (self w) (vecs w) (mats w)
             (trace w ++ [EvRand (np_sum_bool (map negb (map (fun r => (0 <? r)%float) ratio)))])).
Proof. reflexivity. Qed.

Lemma accept_asks ratio w r w' : accept X ratio w = (r, w') -> asks_only w w'.
Proof.
  rewrite accept_run. intros [= _ <-]. repeat split. by eexists [_].
Qed.

Lemma accept_length ratio w acc w' :
  accept X ratio w = (Ok acc, w') -> length acc = length ratio.
Proof.
  rewrite accept_run. intros [= <- _]. simpl. by rewrite scatter_length, length_map.
Qed.

(** *** [rollback] *)

Lemma rollback_any k w r w' : rollback k w = (r, w') -> rolled_back k w w'.
Proof.
  unfold rollback, bind, modify, get_self, rolled_back, chain, lnpost, lnprop,
    acceptance, failed_p, config. simpl.
  destruct (processes (self w)) as [[|[]|]|] eqn:Hp; simpl;
    try (destruct (pool (self w)) as [q|] eqn:Hq; simpl);
    intros [= _ <-]; simpl; rewrite ?Hp; repeat split;
    first [ by exists [] ; rewrite app_nil_r
          | by eexists [_; _]; rewrite <- app_assoc ].
Qed.

Lemma rollback_ok k w :
  pool_ok w -> exists w', rollback k w = (Ok tt, w') /\ pool_ok w'.
Proof.
  intros Hpool.
  unfold rollback, bind, modify, get_self, pool_ok in *. simpl.
  destruct (processes (self w)) as [[|[]|]|] eqn:Hp; simpl;
    try (destruct Hpool as [Hpool|Hpool]; [done|]);
    try (destruct (pool (self w)) as [q|] eqn:Hq; [|done]; simpl);
    eexists; (split; [reflexivity|]); simpl; rewrite ?Hp; auto.
Qed.

(** *** One iteration of [sample] *)

(** A successful iteration, taken apart. *)
Lemma mh_iteration_ok ui p a b w w' :
  mh_iteration X ui p a b w = (Ok tt, w') ->
  exists p_p lp lq ratio acc w1 w2 w3 w4 w5,
    draw X (nwalkers (self w)) w = (Ok p_p, w1) /\
    evaluate X p_p w1 = (Ok (lp, lq), w2) /\
    ln_mh_ratio lp (vec_at w2 a) (vec_at w2 b) lq = Ok ratio /\
    accept X ratio w2 = (Ok acc, w3) /\
    update acc p a b p_p lp lq w3 = (Ok tt, w4) /\
    store acc p a b w4 = (Ok tt, w5) /\
    refit X ui p w5 = (Ok tt, w').
Proof.
  unfold mh_iteration, try_reraise at 1.
  match goal with |- context [match ?m w with _ => _ end] => destruct (m w) as [[[]|e] w0] eqn:Hbody end.
  2:{ destruct (is_KeyboardInterrupt e); [destruct (on_interrupt w0) as [[|] ?]|]; done. }
  intros [= <-]. revert Hbody.
  unfold bind at 1. unfold get_self at 1.
  unfold bind at 1. run (draw X (nwalkers (self w)) w); [|done].
  rename a0 into p_p, w1 into w1'.
  unfold bind at 1. unfold try_reraise at 1.
  run (evaluate X p_p w1').
  2:{ destruct (is_Exception e); [destruct (on_evaluation_error p_p w1) as [[|] ?]|]; done. }
  destruct a0 as [lp lq].
  unfold bind at 1, read_vec at 1. unfold bind at 1, read_vec at 1.
  unfold bind at 1, lift at 1.
  destruct (ln_mh_ratio lp (vec_at w1 a) (vec_at w1 b) lq) as [ratio|] eqn:Hr; [|done].
  unfold bind at 1. run (accept X ratio w1); [|done].
  unfold bind at 1. run (update a0 p a b p_p lp lq w2); [|done]. destruct a1.
  unfold bind at 1. run (store a0 p a b w3); [|done]. destruct a1.
  intros Hrefit.
  exists p_p, lp, lq, ratio, a0, w1', w1, w2, w3, w4. done.
Qed.

(** [update] writes to the three arrays it is given and to nothing else. *)
Lemma update_frame acc p a b p_p lp lq w r w' :
  update acc p a b p_p lp lq w = (r, w') ->
  self w' = self w /\ trace w' = trace w /\
  length (vecs w') = length (vecs w) /\ length (mats w') = length (mats w) /\
  (forall q, q <> p -> mats w' !! q = mats w !! q) /\
  (forall q, q <> a -> q <> b -> vecs w' !! q = vecs w !! q).
Proof.
  unfold update. destruct (np_any acc).
  2:{ intros [= _ <-]. done. }
  unfold bind, read_mat, read_vec, lift, write_mat, write_vec. simpl.
  destruct (masked_assign acc (mat_at w p) p_p) as [pv'|]; simpl.
  2:{ intros [= _ <-]. done. }
  match goal with |- context [masked_assign acc ?v lp] => destruct (masked_assign acc v lp) as [lv'|] end; simpl.
  2:{ intros [= _ <-]. simpl. rewrite length_insert. repeat split; try done.
      intros q Hq. by rewrite list_lookup_insert_ne. }
  match goal with |- context [masked_assign acc ?v lq] => destruct (masked_assign acc v lq) as [qv'|] end; simpl.
  all: intros [= _ <-]; simpl; rewrite ?length_insert; repeat split; try done.
  all: intros q Hq; try intros Hq'; rewrite ?list_lookup_insert_ne; done.
Qed.

(** The entries [update] leaves in the three arrays. *)
Lemma update_ok acc p a b p_p lp lq w w' :
  update acc p a b p_p lp lq w = (Ok tt, w') ->
  (p < length (mats w))%nat -> (a < length (vecs w))%nat -> (b < length (vecs w))%nat ->
  forall j,
    mat_at w' p !! j = match acc !! j with Some true => p_p !! j | _ => mat_at w p !! j end /\
    vec_at w' b !! j = match acc !! j with Some true => lq !! j | _ => vec_at w b !! j end /\
    (a <> b ->
     vec_at w' a !! j = match acc !! j with Some true => lp !! j | _ => vec_at w a !! j end).
Proof.
  unfold update. destruct (np_any acc) eqn:Hany.
  2:{ intros [= <-] _ _ _ j.
      assert (acc !! j <> Some true) as Hj.
      { intros Hj. apply not_true_iff_false in Hany. apply Hany.
        unfold np_any. apply existsb_exists. exists true. split; [|done].
        apply list_elem_of_In. by eapply list_elem_of_lookup_2. }
      destruct (acc !! j) as [[]|]; done. }
  unfold bind, read_mat, read_vec, lift, write_mat, write_vec. simpl.
  destruct (masked_assign acc (mat_at w p) p_p) as [pv'|] eqn:Hp; simpl; [|done].
  match goal with |- context [masked_assign acc ?v lp] =>
    destruct (masked_assign acc v lp) as [lv'|] eqn:Hl end; simpl; [|done].
  match goal with |- context [masked_assign acc ?v lq] =>
    destruct (masked_assign acc v lq) as [qv'|] eqn:Hq end; simpl; [|done].
  intros [= <-] Hpv Ha Hb j. unfold vec_at, mat_at in *. simpl in *.
  rewrite list_lookup_insert_eq by done. simpl.
  rewrite list_lookup_insert_eq by (by rewrite length_insert). simpl.
  split; [by apply masked_assign_lookup|]. split.
  - rewrite (masked_assign_lookup _ _ _ _ j Hq).
    destruct (acc !! j) as [[]|] eqn:Hj; try done.
    + destruct (decide (a = b)) as [->|Hne].
      * rewrite list_lookup_insert_eq by done. simpl.
        rewrite (masked_assign_lookup _ _ _ _ j Hl), Hj. done.
      * by rewrite list_lookup_insert_ne.
    + destruct (decide (a = b)) as [->|Hne].
      * rewrite list_lookup_insert_eq by done. simpl.
        rewrite (masked_assign_lookup _ _ _ _ j Hl), Hj. done.
      * by rewrite list_lookup_insert_ne.
  - intros Hne. rewrite list_lookup_insert_ne by done.
    rewrite list_lookup_insert_eq by done. simpl.
    by apply masked_assign_lookup.
Qed.

(** [store] commits one row to each history and counts the iteration. *)
Lemma store_ok acc p a b w w' :
  store acc p a b w = (Ok tt, w') ->
  let i := iterations (self w) in
  iterations (self w') = S i /\
  (i < length (chain w))%nat /\ (i < length (lnpost w))%nat /\
  (i < length (lnprop w))%nat /\ (i < length (acceptance w))%nat /\
  chain w' = <[i := mat_at w p]> (chain w) /\
  lnpost w' = <[i := vec_at w a]> (lnpost w) /\
  lnprop w' = <[i := vec_at w b]> (lnprop w) /\
  acceptance w' = <[i := map of_bool acc]> (acceptance w) /\
  length acc = nwalkers (self w) /\
  _kde (self w') = _kde (self w) /\ pool (self w') = pool (self w) /\
  failed_p w' = failed_p w /\ config (self w') = config (self w) /\
  vecs w' = vecs w /\ mats w' = mats w /\ trace w' = trace w.
Proof.
  unfold store, bind, get_self, read_mat, read_vec, lift, modify,
    chain, lnpost, lnprop, acceptance, failed_p, config. simpl.
  destruct (set_row _ (_chain (self w)) _ _) as [c|] eqn:Hc; simpl; [|done].
  destruct (set_row _ (_lnpost (self w)) _ _) as [h1|] eqn:H1; simpl; [|done].
  destruct (set_row _ (_lnprop (self w)) _ _) as [h2|] eqn:H2; simpl; [|done].
  destruct (set_row _ (_acceptance (self w)) _ _) as [h3|] eqn:H3; simpl; [|done].
  intros [= <-]. simpl.
  assert (length acc = nwalkers (self w)) as Hacc.
  { unfold set_row in H3. destruct (_ <? _)%nat; [|done].
    unfold has_shape1 in H3. destruct (length acc =? _)%nat eqn:E; [|done].
    by apply Nat.eqb_eq in E. }
  apply set_row_length in Hc as (_ & ? & ->), H1 as (_ & ? & ->),
    H2 as (_ & ? & ->), H3 as (_ & ? & ->).
  done.
Qed.

(** Whatever [store] does, it keeps the lengths of the histories and
    never counts an iteration it did not write. *)
Lemma store_any acc p a b w r w' :
  store acc p a b w = (r, w') ->
  length (chain w') = length (chain w) /\ length (lnpost w') = length (lnpost w) /\
  length (lnprop w') = length (lnprop w) /\
  length (acceptance w') = length (acceptance w) /\
  (covers w -> covers w') /\
  (iterations (self w) <= iterations (self w'))%nat /\
  _kde (self w') = _kde (self w) /\ pool (self w') = pool (self w) /\
  failed_p w' = failed_p w /\ config (self w') = config (self w) /\
  vecs w' = vecs w /\ mats w' = mats w /\ trace w' = trace w.
Proof.
  destruct r as [[]|e].
  { intros H. apply store_ok in H. simpl in H. unfold covers.
    destruct H as (Hi & L1 & L2 & L3 & L4 & -> & -> & -> & -> & _ & ? & ? & ? & ? & ? & ? & ?).
    rewrite !length_insert, Hi.
    repeat split; try done; lia. }
  unfold store, bind, get_self, read_mat, read_vec, lift, modify, covers,
    chain, lnpost, lnprop, acceptance, failed_p, config. simpl.
  destruct (set_row _ (_chain (self w)) _ _) as [c|] eqn:Hc; simpl.
  2:{ intros [= _ <-]. done. }
  apply set_row_length in Hc as (Lc & _ & _).
  destruct (set_row _ (_lnpost (self w)) _ _) as [h1|] eqn:H1; simpl.
  2:{ intros [= _ <-]. simpl. rewrite Lc. done. }
  apply set_row_length in H1 as (L1 & _ & _).
  destruct (set_row _ (_lnprop (self w)) _ _) as [h2|] eqn:H2; simpl.
  2:{ intros [= _ <-]. simpl. rewrite Lc, L1. done. }
  apply set_row_length in H2 as (L2 & _ & _).
  destruct (set_row _ (_acceptance (self w)) _ _) as [h3|] eqn:H3; simpl; [done|].
  intros [= _ <-]. simpl. rewrite Lc, L1, L2. done.
Qed.

(** [refit], run. *)
Lemma refit_run ui p w :
  refit X ui p w =
    if ui =? 0 then (Raise ZeroDivisionError, w)
    else if Z.of_nat (iterations (self w)) mod ui =? 0 then
      let w1 := mkWorld (self w) (vecs w) (mats w) (trace w ++ [EvFit (mat_at w p)]) in
      match optimized_kde X (clock w) (mat_at w p) with
      | Some e => (Raise e, w1)
      | None =>
          (Ok tt, mkWorld (set_kde (Some (mkKDE (clock w) (mat_at w p))) (self w))
                          (vecs w) (mats w) (trace w ++ [EvFit (mat_at w p)]))
      end
    else (Ok tt, w).
Proof.
  unfold refit, fit, bind, get_self, read_mat, now, emit, modify, raise, ret. simpl.
  destruct (ui =? 0); [done|].
  destruct (_ mod _ =? 0); [|done]. simpl.
  by destruct (optimized_kde X (clock w) (mat_at w p)).
Qed.

(** Whatever [refit] does, only the density and the trace change. *)
Lemma refit_any ui p w r w' :
  refit X ui p w = (r, w') ->
  chain w' = chain w /\ lnpost w' = lnpost w /\ lnprop w' = lnprop w /\
  acceptance w' = acceptance w /\ iterations (self w') = iterations (self w) /\
  pool (self w') = pool (self w) /\
  failed_p w' = failed_p w /\ config (self w') = config (self w) /\
  vecs w' = vecs w /\ mats w' = mats w.
Proof.
  rewrite refit_run.
  destruct (ui =? 0); [by intros [= _ <-]|].
  destruct (_ mod _ =? 0); [|by intros [= _ <-]]. simpl.
  destruct (optimized_kde X (clock w) (mat_at w p)); by intros [= _ <-].
Qed.
End Facts.

(** * Properties of the methods *)

(** ** C2: [rollback] *)

(** C2 as stated fails: after two committed iterations, [rollback(1)]
    leaves one row in each history but the iteration counter still
    says 2, and the next [sample] call writes at row 2 instead of
    row 1, which here is out of range. *)
Lemma rollback_leaves_counter :
  iterations (self two_steps) = 2%nat /\
  length (chain (snd (rollback 1 two_steps))) = 1%nat /\
  iterations (self (snd (rollback 1 two_steps))) = 2%nat /\
  fst (sample (Demo.env None) (Some 0%nat) None None 1 10 (snd (rollback 1 two_steps)))
    = Raise IndexError.
Proof. vm_compute. repeat split; reflexivity. Qed.

(** C2 (amended): for every [k] up to the current length, [rollback(k)]
    keeps the first [k] rows of each of the four histories, so that each
    has length [k], and leaves the iteration counter as it was.  Called
    with [k] equal to the counter, which is how [sample] calls it, it
    leaves histories and counter in agreement. *)
Theorem rollback_truncates (k : nat) (w : World) :
  pool_ok w ->
  (k <= length (chain w))%nat -> (k <= length (lnpost w))%nat ->
  (k <= length (lnprop w))%nat -> (k <= length (acceptance w))%nat ->
  exists w',
    rollback (Z.of_nat k) w = (Ok tt, w') /\
    chain w' = take k (chain w) /\ lnpost w' = take k (lnpost w) /\
    lnprop w' = take k (lnprop w) /\ acceptance w' = take k (acceptance w) /\
    length (chain w') = k /\ length (lnpost w') = k /\
    length (lnprop w') = k /\ length (acceptance w') = k /\
    iterations (self w') = iterations (self w) /\
    (k = iterations (self w) -> coherent w').
Proof.
  intros Hpool L1 L2 L3 L4.
  destruct (rollback_ok (Z.of_nat k) w Hpool) as (w' & Hrun & _).
  exists w'. split; [done|]. unfold coherent.
  apply rollback_any in Hrun as (-> & -> & -> & -> & Hi & _).
  rewrite !slice_to_nat, !length_take.
  repeat split; try done; lia.
Qed.

Lemma rollback_truncates_witness :
  exists w',
    rollback 1 two_steps = (Ok tt, w') /\
    chain w' = take 1 (chain two_steps) /\ lnpost w' = take 1 (lnpost two_steps) /\
    lnprop w' = take 1 (lnprop two_steps) /\
    acceptance w' = take 1 (acceptance two_steps) /\
    length (chain w') = 1%nat /\ length (lnpost w') = 1%nat /\
    length (lnprop w') = 1%nat /\ length (acceptance w') = 1%nat /\
    iterations (self w') = iterations (self two_steps) /\
    (1%nat = iterations (self two_steps) -> coherent w').
Proof.
  apply (rollback_truncates 1 two_steps).
  - left. reflexivity.
  - vm_compute. lia.
  - vm_compute. lia.
  - vm_compute. lia.
  - vm_compute. lia.
Defined.

(** ** C4 and C5: the acceptance mask *)

Lemma ew2_lookup f a b c j :
  ew2 f a b = Ok c ->
  length c = length a /\ length a = length b /\
  c !! j = match a !! j, b !! j with
           | Some x, Some y => Some (f x y)
           | _, _ => None
           end.
Proof.
  unfold ew2. destruct (length a =? length b)%nat eqn:E; [|done].
  apply Nat.eqb_eq in E. intros [= <-].
  rewrite length_zip_with, lookup_zip_with. split; [lia|]. split; [done|].
  destruct (a !! j), (b !! j); done.
Qed.

(** The ratio of line 259, walker by walker. *)
Lemma ln_mh_ratio_lookup lnpost_p lnpost lnprop lnprop_p ratio j :
  ln_mh_ratio lnpost_p lnpost lnprop lnprop_p = Ok ratio ->
  length ratio = length lnpost_p /\ length lnpost = length lnpost_p /\
  length lnprop = length lnpost_p /\ length lnprop_p = length lnpost_p /\
  ratio !! j =
    match lnpost_p !! j, lnpost !! j, lnprop !! j, lnprop_p !! j with
    | Some x', Some x, Some q, Some q' => Some (x' - x + q - q')%float
    | _, _, _, _ => None
    end.
Proof.
  unfold ln_mh_ratio.
  destruct (ew2 PrimFloat.sub lnpost_p lnpost) as [d1|] eqn:E1; [|done].
  destruct (ew2 PrimFloat.add d1 lnprop) as [d2|] eqn:E2; [|done].
  intros E3.
  apply (ew2_lookup _ _ _ _ j) in E1 as (L1 & L1' & E1), E2 as (L2 & L2' & E2),
    E3 as (L3 & L3' & E3).
  repeat split; try lia.
  rewrite E3, E2, E1.
  destruct (lnpost_p !! j), (lnpost !! j), (lnprop !! j), (lnprop_p !! j); done.
Qed.

(** Line 262 decides the walkers with a positive ratio, and line 268
    leaves their entries alone. *)
Lemma accept_positive (X : Extern) ratio w acc w' j r :
  accept X ratio w = (Ok acc, w') ->
  ratio !! j = Some r -> (0 <? r)%float = true ->
  acc !! j = Some true.
Proof.
  rewrite accept_run. intros [= <- _] Hj Hr. simpl.
  rewrite scatter_lookup_false.
  - rewrite list_lookup_fmap, Hj. simpl. by rewrite Hr.
  - rewrite !list_lookup_fmap, Hj. simpl. by rewrite Hr.
Qed.

(** Line 268 decides a walker whose ratio is not positive by its own
    uniform draw, the one whose rank is the number of such walkers
    before it. *)
Lemma accept_worse (X : Extern) ratio w acc w' j r :
  accept X ratio w = (Ok acc, w') ->
  ratio !! j = Some r -> (0 <? r)%float = false ->
  acc !! j =
    Some (np_log X (np_random_rand X (clock w)
                      (np_sum_bool (take j (map negb (map (fun r => (0 <? r)%float) ratio)))))
          <? r)%float.
Proof.
  rewrite accept_run. intros [= <- _] Hj Hr. simpl.
  set (worse := map negb (map (fun r => (0 <? r)%float) ratio)).
  assert (worse !! j = Some true) as Hw.
  { unfold worse. rewrite !list_lookup_fmap, Hj. simpl. by rewrite Hr. }
  assert (length worse = length ratio) as Lw by (unfold worse; by rewrite !length_map).
  assert (np_sum_bool (take j worse) < np_sum_bool worse)%nat as Hk.
  { rewrite <- (take_drop j worse) at 2.
    unfold np_sum_bool. rewrite sum_list_with_app.
    rewrite (drop_S _ _ _ Hw). simpl. lia. }
  rewrite scatter_lookup_true; [|done|rewrite length_map; by apply lookup_lt_Some in Hj|].
  - unfold decide_worse. rewrite lookup_zip_with.
    rewrite select_lookup by done. rewrite Hj. simpl.
    rewrite list_lookup_fmap, lookup_seq_lt by done. done.
  - unfold decide_worse. rewrite length_zip_with, length_map, length_seq.
    rewrite select_length by done. lia.
Qed.

(** C4: in every iteration that completes, the acceptance row recorded
    for it holds a one for each walker whose log-ratio
    [r = lnpost' - lnpost + lnprop - lnprop'] is greater than 0, [lnpost']
    and [lnprop'] being the values of the proposed batch and [lnpost],
    [lnprop] the walker's values before the iteration.  The uniform
    draws and the logarithm are arbitrary: they have no say. *)
Theorem positive_ratio_accepted (X : Extern) ui p a b w w' :
  mh_iteration X ui p a b w = (Ok tt, w') ->
  exists p_p lnpost_p lnprop_p w1 w2 acc,
    draw X (nwalkers (self w)) w = (Ok p_p, w1) /\
    evaluate X p_p w1 = (Ok (lnpost_p, lnprop_p), w2) /\
    acceptance w' !! iterations (self w) = Some (map of_bool acc) /\
    forall j x' x q q',
      lnpost_p !! j = Some x' -> vec_at w a !! j = Some x ->
      vec_at w b !! j = Some q -> lnprop_p !! j = Some q' ->
      (0 <? x' - x + q - q')%float = true ->
      acc !! j = Some true.
Proof.
  intros H.
  apply mh_iteration_ok in H
    as (p_p & lp & lq & ratio & acc & w1 & w2 & w3 & w4 & w5 &
        Hdraw & Heval & Hratio & Hacc & Hupd & Hstore & Hrefit).
  exists p_p, lp, lq, w1, w2, acc. split; [done|]. split; [done|].
  pose proof (draw_asks _ _ _ _ _ Hdraw) as A1.
  pose proof (evaluate_asks _ _ _ _ _ Heval) as A2.
  pose proof (accept_asks _ _ _ _ _ Hacc) as A3.
  pose proof (asks_only_trans _ _ _ A1 A2) as A12.
  apply update_frame in Hupd as (Hs4 & _).
  apply store_ok in Hstore as (_ & _ & _ & _ & Hlen & _ & _ & _ & Hrow & _).
  apply refit_any in Hrefit as (_ & _ & _ & -> & _).
  assert (iterations (self w4) = iterations (self w)) as Hi.
  { rewrite Hs4. destruct A3 as (-> & _). destruct A12 as (-> & _). done. }
  split.
  - rewrite Hrow, Hi. apply list_lookup_insert_eq. by rewrite <- Hi.
  - intros j x' x q q' Hx' Hx Hq Hq' Hr.
    apply (accept_positive X ratio w2 acc w3 j (x' - x + q - q')%float Hacc); [|exact Hr].
    apply (ln_mh_ratio_lookup _ _ _ _ _ j) in Hratio as (_ & _ & _ & _ & ->).
    rewrite !(asks_only_vec _ _ _ A12), Hx', Hx, Hq, Hq'. done.
Qed.

Lemma positive_ratio_accepted_witness :
  mh_iteration (Demo.env None) 10 1%nat 0%nat 1%nat prepared = (Ok tt, first_step) /\
  exists p_p lnpost_p lnprop_p w1 w2 acc,
    draw (Demo.env None) (nwalkers (self prepared)) prepared = (Ok p_p, w1) /\
    evaluate (Demo.env None) p_p w1 = (Ok (lnpost_p, lnprop_p), w2) /\
    acceptance first_step !! iterations (self prepared) = Some (map of_bool acc) /\
    forall j x' x q q',
      lnpost_p !! j = Some x' -> vec_at prepared 0%nat !! j = Some x ->
      vec_at prepared 1%nat !! j = Some q -> lnprop_p !! j = Some q' ->
      (0 <? x' - x + q - q')%float = true ->
      acc !! j = Some true.
Proof.
  assert (mh_iteration (Demo.env None) 10 1%nat 0%nat 1%nat prepared = (Ok tt, first_step))
    as H by (vm_compute; reflexivity).
  split; [exact H|].
  exact (positive_ratio_accepted (Demo.env None) 10 1%nat 0%nat 1%nat prepared first_step H).
Defined.

(** C5 as stated fails: a walker with ratio [-1] whose uniform draw is
    exactly zero is accepted. *)
Lemma zero_draw_accepted :
  np_random_rand (Demo.env None) (clock Demo.start) 0 = 0%float /\
  np_log (Demo.env None) 0 = neg_infinity /\
  fst (accept (Demo.env None) [(-1)%float] Demo.start) = Ok [true].
Proof. vm_compute. repeat split; reflexivity. Qed.

(** C5 (amended): among the walkers with [r <= 0] a walker is accepted
    exactly when [r > log(u)] for its own uniform draw [u], and [log(0)]
    is not guarded: with numpy's [log(0) = -inf], a draw equal to zero
    accepts the walker exactly when [r > -inf]. *)
Theorem zero_draw_accepts (X : Extern) ratio w acc w' j r :
  accept X ratio w = (Ok acc, w') ->
  ratio !! j = Some r -> (0 <? r)%float = false ->
  acc !! j = Some (np_log X (np_random_rand X (clock w) (draw_index ratio j)) <? r)%float /\
  (np_log X 0 = neg_infinity ->
   np_random_rand X (clock w) (draw_index ratio j) = 0%float ->
   acc !! j = Some (neg_infinity <? r)%float).
Proof.
  intros Hacc Hj Hr.
  pose proof (accept_worse X ratio w acc w' j r Hacc Hj Hr) as H.
  split; [exact H|].
  intros Hlog Hu. unfold draw_index in Hu. rewrite H, Hu, Hlog. done.
Qed.

Lemma zero_draw_accepts_witness :
  (accept (Demo.env None) [(-1)%float] Demo.start
   = (Ok [true], snd (accept (Demo.env None) [(-1)%float] Demo.start)) /\
   [(-1)%float] !! 0%nat = Some (-1)%float /\ (0 <? -1)%float = false) /\
  [true] !! 0%nat
  = Some (np_log (Demo.env None)
            (np_random_rand (Demo.env None) (clock Demo.start)
               (draw_index [(-1)%float] 0)) <? -1)%float /\
  (np_log (Demo.env None) 0 = neg_infinity ->
   np_random_rand (Demo.env None) (clock Demo.start) (draw_index [(-1)%float] 0) = 0%float ->
   [true] !! 0%nat = Some (neg_infinity <? -1)%float).
Proof.
  assert (accept (Demo.env None) [(-1)%float] Demo.start
          = (Ok [true], snd (accept (Demo.env None) [(-1)%float] Demo.start))) as H
    by (vm_compute; reflexivity).
  split; [split; [exact H | split; reflexivity]|].
  exact (zero_draw_accepts (Demo.env None) [(-1)%float] Demo.start [true] _ 0%nat (-1)%float
           H eq_refl eq_refl).
Defined.

(** ** What a run leaves alone, whatever its outcome *)

Section Steps.
Context (R : World -> World -> Prop).
Hypothesis R_refl : forall w, R w w.
Hypothesis R_trans : forall w1 w2 w3, R w1 w2 -> R w2 w3 -> R w1 w3.

Lemma steps_ret {A} (a : A) : steps R (ret a).
Proof. intros w r w' [= _ <-]. apply R_refl. Qed.

Lemma steps_raise {A} (e : exn) : steps R (@raise A e).
Proof. intros w r w' [= _ <-]. apply R_refl. Qed.

Lemma steps_lift {A} (x : result A) : steps R (lift x).
Proof. intros w r w' [= _ <-]. apply R_refl. Qed.

Lemma steps_get_self : steps R get_self.
Proof. intros w r w' [= _ <-]. apply R_refl. Qed.

Lemma steps_now : steps R now.
Proof. intros w r w' [= _ <-]. apply R_refl. Qed.

Lemma steps_read_vec r : steps R (read_vec r).
Proof. intros w x w' [= _ <-]. apply R_refl. Qed.

Lemma steps_read_mat r : steps R (read_mat r).
Proof. intros w x w' [= _ <-]. apply R_refl. Qed.

Lemma steps_bind {A B} (m : M A) (f : A -> M B) :
  steps R m -> (forall a, steps R (f a)) -> steps R (bind m f).
Proof.
  intros Hm Hf w r w'. unfold bind.
  destruct (m w) as [[a|e] w1] eqn:E.
  - intros H. eapply R_trans; [eapply Hm, E | eapply Hf, H].
  - intros [= _ <-]. eapply Hm, E.
Qed.

Lemma steps_try_reraise {A} catches (body : M A) handler :
  steps R body -> steps R handler -> steps R (try_reraise catches body handler).
Proof.
  intros Hb Hh w r w'. unfold try_reraise.
  destruct (body w) as [[a|e] w1] eqn:E.
  - intros [= _ <-]. eapply Hb, E.
  - destruct (catches e).
    + destruct (handler w1) as [[[]|e'] w2] eqn:E'; intros [= _ <-];
        (eapply R_trans; [eapply Hb, E | eapply Hh, E']).
    + intros [= _ <-]. eapply Hb, E.
Qed.
End Steps.

Lemma keeps_refl p a b w : keeps p a b w w.
Proof. unfold keeps. repeat apply conj; auto. Qed.

Lemma keeps_trans p a b w1 w2 w3 : keeps p a b w1 w2 -> keeps p a b w2 w3 -> keeps p a b w1 w3.
Proof.
  unfold keeps.
  intros (C1 & L1 & M1 & V1 & W1 & H1 & P1 & I1 & N1)
         (C2 & L2 & M2 & V2 & W2 & H2 & P2 & I2 & N2).
  repeat apply conj; try congruence; auto; try lia.
  - intros q Hq. rewrite M2, M1; done.
  - intros q Hq Hq'. rewrite W2, W1; done.
Qed.

Lemma asks_only_keeps p a b w w' : asks_only w w' -> keeps p a b w w'.
Proof.
  intros (Hs & Hv & Hm & _). unfold keeps, covers, pool_ok, chain, lnpost, lnprop, acceptance.
  rewrite Hs, Hv, Hm. repeat apply conj; auto.
Qed.

Lemma pool_ok_config w w' :
  config (self w') = config (self w) -> pool (self w') = pool (self w) ->
  pool_ok w -> pool_ok w'.
Proof. unfold pool_ok, config. intros [= _ _ ->] ->. done. Qed.

Lemma rollback_counter_keeps p a b w r w' :
  rollback (Z.of_nat (iterations (self w))) w = (r, w') -> keeps p a b w w'.
Proof.
  intros H.
  assert (pool_ok w -> pool_ok w') as Hpool.
  { intros Hp. destruct (rollback_ok (Z.of_nat (iterations (self w))) w Hp) as (w'' & E & ?).
    rewrite E in H. by injection H as _ <-. }
  apply rollback_any in H as (Hc & H1 & H2 & H3 & Hi & _ & _ & Hcfg & Hv & Hm & _).
  unfold keeps, covers. rewrite Hc, H1, H2, H3, Hi, Hcfg, Hv, Hm, !slice_to_nat, !length_take.
  repeat apply conj; auto; lia.
Qed.

Section Keeps.
Context (X : Extern) (p a b : loc).

Local Abbreviation K := (keeps p a b).

Lemma keeps_same_self w w' :
  self w' = self w -> vecs w' = vecs w -> mats w' = mats w -> K w w'.
Proof.
  intros Hs Hv Hm. unfold keeps, covers, pool_ok, chain, lnpost, lnprop, acceptance.
  rewrite Hs, Hv, Hm. repeat apply conj; auto.
Qed.

Lemma steps_emit e : steps K (emit e).
Proof. intros w r w' [= _ <-]. by apply keeps_same_self. Qed.

Lemma steps_set_failed_p f : steps K (modify (set_failed_p f)).
Proof.
  intros w r w' [= _ <-]. unfold keeps, covers, pool_ok, chain. simpl.
  repeat apply conj; auto.
Qed.

Lemma steps_draw N : steps K (draw X N).
Proof. intros w r w' H. eapply asks_only_keeps, draw_asks, H. Qed.

Lemma steps_evaluate q : steps K (evaluate X q).
Proof. intros w r w' H. eapply asks_only_keeps, evaluate_asks, H. Qed.

Lemma steps_accept ratio : steps K (accept X ratio).
Proof. intros w r w' H. eapply asks_only_keeps, accept_asks, H. Qed.

Lemma steps_on_interrupt : steps K on_interrupt.
Proof.
  intros w r w'. unfold on_interrupt, bind, get_self. simpl.
  apply rollback_counter_keeps.
Qed.

Lemma steps_on_evaluation_error p_p : steps K (on_evaluation_error p_p).
Proof.
  intros w r w'. unfold on_evaluation_error, bind, get_self. simpl.
  destruct (rollback (Z.of_nat (iterations (self w))) w) as [[[]|e] w1] eqn:E; simpl.
  - intros [= _ <-]. eapply keeps_trans; [eapply rollback_counter_keeps, E|].
    unfold keeps, covers, pool_ok, chain. simpl. repeat apply conj; auto.
  - intros [= _ <-]. eapply rollback_counter_keeps, E.
Qed.

Lemma steps_update acc p_p lp lq : steps K (update acc p a b p_p lp lq).
Proof.
  intros w r w' H.
  apply update_frame in H as (Hs & _ & Lv & Lm & Hm & Hv).
  unfold keeps, covers, pool_ok, chain, lnpost, lnprop, acceptance.
  rewrite Hs. repeat apply conj; auto.
Qed.

Lemma steps_store acc : steps K (store acc p a b).
Proof.
  intros w r w' H.
  apply store_any in H as (L & _ & _ & _ & Hc & Hi & _ & Hp & _ & Hcfg & Hv & Hm & _).
  unfold keeps. rewrite Hv, Hm, L. repeat apply conj; auto.
  by apply pool_ok_config.
Qed.

Lemma steps_refit ui : steps K (refit X ui p).
Proof.
  intros w r w' H.
  apply refit_any in H as (Hc & H1 & H2 & H3 & Hi & Hp & _ & Hcfg & Hv & Hm).
  unfold keeps, covers. rewrite Hc, H1, H2, H3, Hi, Hv, Hm. repeat apply conj; auto.
  by apply pool_ok_config.
Qed.

(** Whatever an iteration does, it [keeps]. *)
Lemma steps_mh_iteration ui : steps K (mh_iteration X ui p a b).
Proof.
  pose proof (keeps_refl p a b) as Rf. pose proof (keeps_trans p a b) as Tr.
  unfold mh_iteration.
  apply (steps_try_reraise _ Tr); [|apply steps_on_interrupt].
  apply (steps_bind _ Tr); [apply (steps_get_self _ Rf)|]. intros s.
  apply (steps_bind _ Tr); [apply steps_draw|]. intros p_p.
  apply (steps_bind _ Tr).
  { apply (steps_try_reraise _ Tr); [apply steps_evaluate|apply steps_on_evaluation_error]. }
  intros [lp lq].
  apply (steps_bind _ Tr); [apply (steps_read_vec _ Rf)|]. intros lv.
  apply (steps_bind _ Tr); [apply (steps_read_vec _ Rf)|]. intros qv.
  apply (steps_bind _ Tr); [apply (steps_lift _ Rf)|]. intros ratio.
  apply (steps_bind _ Tr); [apply steps_accept|]. intros acc.
  apply (steps_bind _ Tr); [apply steps_update|]. intros _.
  apply (steps_bind _ Tr); [apply steps_store|]. intros _.
  apply steps_refit.
Qed.

Lemma steps_sample_loop n ui : steps K (sample_loop X n ui p a b).
Proof.
  induction n as [|n IH]; simpl.
  - apply steps_ret, keeps_refl.
  - apply (steps_bind _ (keeps_trans p a b)); [apply steps_mh_iteration|]. intros _. exact IH.
Qed.
End Keeps.

(** ** The set-up of [sample] *)

Lemma extends_refl w : extends w w.
Proof.
  unfold extends. repeat apply conj; auto; exists []; by rewrite app_nil_r.
Qed.

Lemma extends_trans w1 w2 w3 : extends w1 w2 -> extends w2 w3 -> extends w1 w3.
Proof.
  unfold extends.
  intros (A1 & A2 & A3 & A4 & A5 & A6 & A7 & A8 & (m1 & M1) & (v1 & V1) & (e1 & E1 & Q1))
         (B1 & B2 & B3 & B4 & B5 & B6 & B7 & B8 & (m2 & M2) & (v2 & V2) & (e2 & E2 & Q2)).
  repeat apply conj; try congruence.
  - exists (m1 ++ m2). by rewrite M2, M1, app_assoc.
  - exists (v1 ++ v2). by rewrite V2, V1, app_assoc.
  - exists (e1 ++ e2). rewrite E2, E1, app_assoc, forallb_app, Q1, Q2. done.
Qed.

Lemma quiet_no_pool evs : forallb quiet evs = true -> forallb no_pool evs = true.
Proof.
  induction evs as [|e evs IH]; simpl; [done|].
  intros [He Hq]%andb_true_iff. rewrite IH by done. by destruct e.
Qed.

Lemma asks_only_extends w w' : asks_only w w' -> extends w w'.
Proof.
  intros (Hs & Hv & Hm & evs & Ht & Hq).
  unfold extends, chain, lnpost, lnprop, acceptance, failed_p.
  rewrite Hs, Hv, Hm. repeat apply conj; auto.
  - exists []. by rewrite app_nil_r.
  - exists []. by rewrite app_nil_r.
  - exists evs. split; [done|]. by apply quiet_no_pool.
Qed.

Section Setup.
Context (X : Extern).

Lemma steps_new_mat v : steps extends (new_mat v).
Proof.
  intros w r w' [= _ <-]. unfold extends. simpl. repeat apply conj; auto.
  - by eexists.
  - exists []. by rewrite app_nil_r.
  - exists []. by rewrite app_nil_r.
Qed.

Lemma steps_new_vec v : steps extends (new_vec v).
Proof.
  intros w r w' [= _ <-]. unfold extends. simpl. repeat apply conj; auto.
  - exists []. by rewrite app_nil_r.
  - by eexists.
  - exists []. by rewrite app_nil_r.
Qed.

Lemma steps_fit_install pv :
  steps extends (let* k := fit X pv in modify (set_kde (Some k))).
Proof.
  intros w r w'. unfold fit, bind, now, emit, modify, raise, ret. simpl.
  destruct (optimized_kde X (clock w) pv); intros [= _ <-];
    unfold extends; simpl; repeat apply conj; auto;
    first [ by exists []; rewrite app_nil_r | by exists [EvFit pv] ].
Qed.

Lemma steps_initial_positions p0 : steps extends (initial_positions X p0).
Proof.
  pose proof extends_refl as Rf. pose proof extends_trans as Tr.
  unfold initial_positions. destruct p0 as [r|].
  - apply (steps_bind _ Tr); [apply (steps_read_mat _ Rf)|]. intros v. apply steps_new_mat.
  - apply (steps_bind _ Tr); [apply (steps_get_self _ Rf)|]. intros s.
    apply (steps_bind _ Tr); [|intros d; apply steps_new_mat].
    intros w r w' H. eapply asks_only_extends, draw_asks, H.
Qed.

Lemma steps_ensure_kde p : steps extends (ensure_kde X p).
Proof.
  pose proof extends_refl as Rf. pose proof extends_trans as Tr.
  unfold ensure_kde.
  apply (steps_bind _ Tr); [apply (steps_get_self _ Rf)|]. intros s.
  destruct (_kde s); [apply (steps_ret _ Rf)|].
  apply (steps_bind _ Tr); [apply (steps_read_mat _ Rf)|]. intros pv.
  apply steps_fit_install.
Qed.

Lemma steps_initial_values p l1 l2 : steps extends (initial_values X p l1 l2).
Proof.
  pose proof extends_refl as Rf. pose proof extends_trans as Tr.
  assert (steps extends
            (let* pv := read_mat p in
             let* (r0, r1) := evaluate X pv in
             let* lnpost := match l1 with None => new_vec r0 | Some a => ret a end in
             let* lnprop := match l2 with None => new_vec r1 | Some b => ret b end in
             ret (lnpost, lnprop))) as H.
  { apply (steps_bind _ Tr); [apply (steps_read_mat _ Rf)|]. intros pv.
    apply (steps_bind _ Tr).
    { intros w r w' H. eapply asks_only_extends, evaluate_asks, H. }
    intros [r0 r1].
    apply (steps_bind _ Tr).
    { destruct l1; [apply (steps_ret _ Rf)|apply steps_new_vec]. }
    intros a.
    apply (steps_bind _ Tr).
    { destruct l2; [apply (steps_ret _ Rf)|apply steps_new_vec]. }
    intros b. apply (steps_ret _ Rf). }
  unfold initial_values. destruct l1, l2; try exact H. apply (steps_ret _ Rf).
Qed.
End Setup.

Section SampleFacts.
Context (X : Extern).

(** The set-up of [sample], taken apart. *)
Lemma sample_setup_ok p0 l1 l2 n w p a b w4 :
  sample_setup X p0 l1 l2 n w = (Ok (p, a, b), w4) ->
  exists w1 w2 w3,
    initial_positions X p0 w = (Ok p, w1) /\
    ensure_kde X p w1 = (Ok tt, w2) /\
    initial_values X p l1 l2 w2 = (Ok (a, b), w3) /\
    preallocate n w3 = (Ok tt, w4).
Proof.
  unfold sample_setup. unfold bind at 1.
  run (initial_positions X p0 w); [|done].
  unfold bind at 1. run (ensure_kde X a0 w0); [|done]. destruct a1.
  unfold bind at 1. run (initial_values X a0 l1 l2 w1); [|done]. destruct a1 as [a' b'].
  unfold bind at 1. run (preallocate n w2); [|done]. destruct a1.
  intros [= <- <- <- <-]. by exists w0, w1, w2.
Qed.

Lemma preallocate_ok n w w' :
  preallocate n w = (Ok tt, w') ->
  0 <= n /\
  length (chain w') = (length (chain w) + Z.to_nat n)%nat /\
  length (lnpost w') = (length (lnpost w) + Z.to_nat n)%nat /\
  length (lnprop w') = (length (lnprop w) + Z.to_nat n)%nat /\
  length (acceptance w') = (length (acceptance w) + Z.to_nat n)%nat /\
  take (length (chain w)) (chain w') = chain w /\
  take (length (lnpost w)) (lnpost w') = lnpost w /\
  take (length (lnprop w)) (lnprop w') = lnprop w /\
  take (length (acceptance w)) (acceptance w') = acceptance w /\
  iterations (self w') = iterations (self w) /\
  _kde (self w') = _kde (self w) /\
  failed_p w' = failed_p w /\ pool (self w') = pool (self w) /\
  config (self w') = config (self w) /\
  vecs w' = vecs w /\ mats w' = mats w /\ trace w' = trace w.
Proof.
  unfold preallocate. destruct (Z.ltb_spec n 0); [done|].
  unfold bind, modify, chain, lnpost, lnprop, acceptance. simpl. intros [= <-]. simpl.
  rewrite !length_app, !length_replicate, !take_app_length. done.
Qed.

Lemma sample_setup_extends p0 l1 l2 n w p a b w4 :
  sample_setup X p0 l1 l2 n w = (Ok (p, a, b), w4) ->
  exists w3,
    extends w w3 /\ preallocate n w3 = (Ok tt, w4) /\
    p = length (mats w) /\ (p < length (mats w3))%nat /\
    mat_at w3 p = match p0 with Some r => mat_at w r | None => mat_at w3 p end /\
    (forall a', l1 = Some a' -> a = a') /\ (forall b', l2 = Some b' -> b = b') /\
    (l1 = None -> (length (vecs w) <= a < length (vecs w3))%nat) /\
    (l2 = None -> (length (vecs w) <= b < length (vecs w3))%nat) /\
    (l1 = None -> l2 = None -> a <> b).
Proof.
  intros H. apply sample_setup_ok in H as (w1 & w2 & w3 & H1 & H2 & H3 & H4).
  exists w3.
  pose proof (steps_initial_positions X p0 _ _ _ H1) as E1.
  pose proof (steps_ensure_kde X p _ _ _ H2) as E2.
  pose proof (steps_initial_values X p l1 l2 _ _ _ H3) as E3.
  pose proof (extends_trans _ _ _ E2 E3) as E23.
  split; [eauto using extends_trans|]. split; [done|].
  assert (p = length (mats w) /\ mats w1 = mats w ++ [match p0 with Some r => mat_at w r | None => mat_at w1 p end]) as [Hp Hm1].
  { revert H1. unfold initial_positions. destruct p0 as [r|].
    - unfold bind, read_mat, new_mat. simpl. intros [= <- <-]. done.
    - unfold bind, get_self. simpl.
      destruct (draw X (nwalkers (self w)) w) as [[d|] w0] eqn:Hd; simpl; [|done].
      apply draw_asks in Hd as (_ & _ & Hm & _).
      unfold new_mat. intros [= <- <-]. simpl. rewrite Hm. split; [done|].
      f_equal. unfold mat_at. simpl. rewrite lookup_app_r, Nat.sub_diag by lia. done. }
  destruct E23 as (_ & _ & _ & _ & _ & _ & _ & _ & (lm & Hm3) & _).
  assert (p < length (mats w3))%nat as Hlt.
  { rewrite Hm3, Hm1, !length_app. simpl. lia. }
  split; [done|]. split; [done|]. split.
  { destruct p0 as [r|]; [|done]. unfold mat_at at 1.
    rewrite Hm3, Hm1, <- app_assoc, lookup_app_r, Hp, Nat.sub_diag by lia. done. }
  destruct E1 as (_ & _ & _ & _ & _ & _ & _ & _ & _ & (lv1 & Hv1) & _).
  destruct E2 as (_ & _ & _ & _ & _ & _ & _ & _ & _ & (lv2 & Hv2) & _).
  revert H3. unfold initial_values.
  assert (length (vecs w) <= length (vecs w2))%nat as Hle.
  { rewrite Hv2, Hv1, !length_app. lia. }
  destruct l1 as [a'|], l2 as [b'|].
  - intros [= <- <- <-]. repeat apply conj; try done; congruence.
  - unfold bind, read_mat. simpl.
    destruct (evaluate X (mat_at w2 p) w2) as [[[r0 r1]|] w0] eqn:He; simpl; [|done].
    apply evaluate_asks in He as (_ & Hv & _).
    unfold new_vec. intros [= <- <- <-]. simpl.
    repeat apply conj; try done; try congruence.
    intros _. rewrite length_app, Hv. simpl. lia.
  - unfold bind, read_mat. simpl.
    destruct (evaluate X (mat_at w2 p) w2) as [[[r0 r1]|] w0] eqn:He; simpl; [|done].
    apply evaluate_asks in He as (_ & Hv & _).
    unfold new_vec. intros [= <- <- <-]. simpl.
    repeat apply conj; try done; try congruence.
    intros _. rewrite length_app, Hv. simpl. lia.
  - unfold bind, read_mat. simpl.
    destruct (evaluate X (mat_at w2 p) w2) as [[[r0 r1]|] w0] eqn:He; simpl; [|done].
    apply evaluate_asks in He as (_ & Hv & _).
    unfold new_vec. intros [= <- <- <-]. simpl.
    repeat apply conj; try done; try congruence.
    + intros _. rewrite !length_app, Hv. simpl. lia.
    + intros _. rewrite !length_app, Hv. simpl. lia.
    + intros _ _. rewrite length_app. simpl. lia.
Qed.
End SampleFacts.

Section LoopFacts.
Context (X : Extern).

(** A completed iteration counts one and keeps the lengths. *)
Lemma mh_iteration_counts ui p a b w w' :
  mh_iteration X ui p a b w = (Ok tt, w') ->
  iterations (self w') = S (iterations (self w)) /\
  length (chain w') = length (chain w) /\ length (lnpost w') = length (lnpost w) /\
  length (lnprop w') = length (lnprop w) /\
  length (acceptance w') = length (acceptance w) /\
  failed_p w' = failed_p w /\ pool (self w') = pool (self w).
Proof.
  intros H.
  apply mh_iteration_ok in H
    as (p_p & lp & lq & ratio & acc & w1 & w2 & w3 & w4 & w5 &
        Hdraw & Heval & Hratio & Hacc & Hupd & Hstore & Hrefit).
  apply draw_asks in Hdraw as (S1 & _). apply evaluate_asks in Heval as (S2 & _).
  apply accept_asks in Hacc as (S3 & _). apply update_frame in Hupd as (S4 & _).
  pose proof (store_any _ _ _ _ _ _ _ Hstore) as (L1 & L2 & L3 & L4 & _).
  apply store_ok in Hstore as (Hi & _ & _ & _ & _ & _ & _ & _ & _ & _ & _ & Hp & Hf & _).
  apply refit_any in Hrefit as (C1 & C2 & C3 & C4 & I5 & P5 & F5 & _).
  assert (self w4 = self w) as S by congruence.
  unfold chain, lnpost, lnprop, acceptance, failed_p in *.
  rewrite C1, C2, C3, C4, I5, P5, F5, L1, L2, L3, L4, Hi, Hp, Hf, S. done.
Qed.

Lemma sample_loop_counts n ui p a b w w' :
  sample_loop X n ui p a b w = (Ok tt, w') ->
  iterations (self w') = (iterations (self w) + n)%nat /\
  length (chain w') = length (chain w) /\ length (lnpost w') = length (lnpost w) /\
  length (lnprop w') = length (lnprop w) /\
  length (acceptance w') = length (acceptance w) /\
  failed_p w' = failed_p w /\ pool (self w') = pool (self w).
Proof.
  revert w. induction n as [|n IH]; simpl; intros w.
  - intros [= <-]. repeat apply conj; auto.
  - unfold bind. run (mh_iteration X ui p a b w); [|done]. destruct a0.
    intros H. apply IH in H as (-> & -> & -> & -> & -> & -> & ->).
    apply mh_iteration_counts in Run as (-> & -> & -> & -> & -> & -> & ->).
    repeat apply conj; auto; lia.
Qed.

(** The loop, split after [j] iterations. *)
Lemma sample_loop_app j k ui p a b w :
  sample_loop X (j + k) ui p a b w =
    (sample_loop X j ui p a b ;; sample_loop X k ui p a b) w.
Proof.
  revert w. induction j as [|j IH]; simpl; intros w.
  - exact eq_refl.
  - unfold bind. unfold bind in IH.
    destruct (mh_iteration X ui p a b w) as [[[]|e] w1]; [|done].
    apply IH.
Qed.
End LoopFacts.

(** A call of [sample] that returns has added [k] rows to each history
    and [k] to the counter. *)
Lemma sample_ok_lengths (X : Extern) p0 lnpost0 lnprop0 k ui w r w' :
  sample X p0 lnpost0 lnprop0 k ui w = (Ok r, w') ->
  0 <= k /\
  length (chain w') = (length (chain w) + Z.to_nat k)%nat /\
  length (lnpost w') = (length (lnpost w) + Z.to_nat k)%nat /\
  length (lnprop w') = (length (lnprop w) + Z.to_nat k)%nat /\
  length (acceptance w') = (length (acceptance w) + Z.to_nat k)%nat /\
  iterations (self w') = (iterations (self w) + Z.to_nat k)%nat.
Proof.
  unfold sample. unfold bind at 1.
  run (sample_setup X p0 lnpost0 lnprop0 k w); [|done]. destruct a as [[p a] b].
  unfold bind at 1. run (sample_loop X (Z.to_nat k) ui p a b w0); [|done]. destruct a0.
  intros [= _ <-].
  apply sample_setup_extends in Run as (w3 & E & Hpre & _).
  apply preallocate_ok in Hpre
    as (Hk & L1 & L2 & L3 & L4 & _ & _ & _ & _ & Hi & _).
  destruct E as (C1 & C2 & C3 & C4 & I & _).
  apply sample_loop_counts in Run0 as (Hi' & M1 & M2 & M3 & M4 & _).
  repeat apply conj; [done|congruence..].
Qed.

Lemma sample_ok_coherent (X : Extern) p0 lnpost0 lnprop0 k ui w r w' :
  coherent w -> sample X p0 lnpost0 lnprop0 k ui w = (Ok r, w') -> coherent w'.
Proof.
  intros (C1 & C2 & C3 & C4) Hrun.
  apply sample_ok_lengths in Hrun as (_ & L1 & L2 & L3 & L4 & I).
  unfold coherent. lia.
Qed.

(** ** C3: a successful [sample] *)

(** C3: a call [sample(iterations=k)] that returns has extended each of
    the four histories by exactly [k] rows and counted [k] iterations;
    so histories that had one common length have one afterwards, and
    histories as long as the iteration counter says, which is how
    [__init__] leaves them, are so afterwards. *)
Theorem sample_extends_histories (X : Extern) p0 lnpost0 lnprop0 k ui w r w' :
  sample X p0 lnpost0 lnprop0 k ui w = (Ok r, w') ->
  0 <= k /\
  length (chain w') = (length (chain w) + Z.to_nat k)%nat /\
  length (lnpost w') = (length (lnpost w) + Z.to_nat k)%nat /\
  length (lnprop w') = (length (lnprop w) + Z.to_nat k)%nat /\
  length (acceptance w') = (length (acceptance w) + Z.to_nat k)%nat /\
  iterations (self w') = (iterations (self w) + Z.to_nat k)%nat /\
  (length (lnpost w) = length (chain w) -> length (lnprop w) = length (chain w) ->
   length (acceptance w) = length (chain w) ->
   length (lnpost w') = length (chain w') /\ length (lnprop w') = length (chain w') /\
   length (acceptance w') = length (chain w')) /\
  (coherent w -> coherent w').
Proof.
  intros H.
  pose proof (sample_ok_lengths X _ _ _ _ _ _ _ _ H) as (Hk & L1 & L2 & L3 & L4 & I).
  do 6 (split; [assumption|]). split.
  - intros E2 E3 E4. rewrite L1, L2, L3, L4, E2, E3, E4. done.
  - intros Hcoh. exact (sample_ok_coherent X _ _ _ _ _ _ _ _ Hcoh H).
Qed.

Lemma sample_extends_histories_witness :
  sample (Demo.env None) (Some 0%nat) None None 2 10 Demo.fresh
    = (Ok (1%nat, 0%nat, 1%nat), two_steps) /\
  0 <= 2 /\
  length (chain two_steps) = (length (chain Demo.fresh) + Z.to_nat 2)%nat /\
  length (lnpost two_steps) = (length (lnpost Demo.fresh) + Z.to_nat 2)%nat /\
  length (lnprop two_steps) = (length (lnprop Demo.fresh) + Z.to_nat 2)%nat /\
  length (acceptance two_steps) = (length (acceptance Demo.fresh) + Z.to_nat 2)%nat /\
  iterations (self two_steps) = (iterations (self Demo.fresh) + Z.to_nat 2)%nat /\
  (length (lnpost Demo.fresh) = length (chain Demo.fresh) ->
   length (lnprop Demo.fresh) = length (chain Demo.fresh) ->
   length (acceptance Demo.fresh) = length (chain Demo.fresh) ->
   length (lnpost two_steps) = length (chain two_steps) /\
   length (lnprop two_steps) = length (chain two_steps) /\
   length (acceptance two_steps) = length (chain two_steps)) /\
  (coherent Demo.fresh -> coherent two_steps).
Proof.
  assert (sample (Demo.env None) (Some 0%nat) None None 2 10 Demo.fresh
          = (Ok (1%nat, 0%nat, 1%nat), two_steps)) as H by (vm_compute; reflexivity).
  split; [exact H|].
  exact (sample_extends_histories (Demo.env None) (Some 0%nat) None None 2 10
           Demo.fresh (1%nat, 0%nat, 1%nat) two_steps H).
Defined.

(** X3: [__init__] returns, and leaves a sampler that is coherent, with
    no iteration counted, and that has a pool unless [processes] is 1. *)
Lemma Sampler_init_coherent nwalkers ndim processes pool w :
  let w' := snd (Sampler_init nwalkers ndim processes pool w) in
  fst (Sampler_init nwalkers ndim processes pool w) = Ok tt /\
  coherent w' /\ pool_ok w' /\ iterations (self w') = 0%nat.
Proof.
  unfold Sampler_init, bind, set_self, now, emit, modify, coherent, pool_ok. simpl.
  destruct processes as [[|[]|]|], pool; simpl; auto 10.
Qed.

(** ** C10: a failure before the loop *)

(** C10: when one of [lnpost0], [lnprop0] is missing and the evaluation
    of the initial positions raises, whatever the exception, [sample]
    raises it with the four histories, the iteration counter, the failed
    batch and the pool as they were; no pool was closed or opened. *)
Theorem initial_failure_changes_nothing (X : Extern) p0 lnpost0 lnprop0 k ui w p w1 w2 e w3 :
  lnpost0 = None \/ lnprop0 = None ->
  initial_positions X p0 w = (Ok p, w1) ->
  ensure_kde X p w1 = (Ok tt, w2) ->
  evaluate X (mat_at w2 p) w2 = (Raise e, w3) ->
  sample X p0 lnpost0 lnprop0 k ui w = (Raise e, w3) /\
  chain w3 = chain w /\ lnpost w3 = lnpost w /\ lnprop w3 = lnprop w /\
  acceptance w3 = acceptance w /\
  iterations (self w3) = iterations (self w) /\
  failed_p w3 = failed_p w /\
  pool (self w3) = pool (self w) /\
  exists evs, trace w3 = trace w ++ evs /\ forallb no_pool evs = true.
Proof.
  intros Hnone H1 H2 H3.
  split.
  - unfold sample, sample_setup. unfold bind at 1. unfold bind at 1.
    rewrite H1. unfold bind at 1. rewrite H2. unfold bind at 1.
    assert (initial_values X p lnpost0 lnprop0 w2 = (Raise e, w3)) as ->; [|done].
    unfold initial_values.
    destruct lnpost0, lnprop0; try (destruct Hnone; done);
      unfold bind, read_mat; simpl; by rewrite H3.
  - pose proof (steps_initial_positions X p0 _ _ _ H1) as E1.
    pose proof (steps_ensure_kde X p _ _ _ H2) as E2.
    pose proof (asks_only_extends _ _ (evaluate_asks X _ _ _ _ H3)) as E3.
    pose proof (extends_trans _ _ _ (extends_trans _ _ _ E1 E2) E3) as E.
    destruct E as (? & ? & ? & ? & ? & ? & ? & _ & _ & _ & ?). done.
Qed.

(** The posterior fails at its second call, in the evaluation of the
    initial positions of a sampler that holds a pool. *)
Lemma initial_failure_changes_nothing_witness :
  exists w1 w2 w3,
    ((@None loc = None \/ @None loc = None) /\
     initial_positions (Demo.env (Some 4%nat)) (Some 0%nat) Demo.pooled = (Ok 1%nat, w1) /\
     ensure_kde (Demo.env (Some 4%nat)) 1%nat w1 = (Ok tt, w2) /\
     evaluate (Demo.env (Some 4%nat)) (mat_at w2 1%nat) w2 = (Raise ValueError, w3)) /\
    sample (Demo.env (Some 4%nat)) (Some 0%nat) None None 5 10 Demo.pooled
      = (Raise ValueError, w3) /\
    chain w3 = chain Demo.pooled /\ lnpost w3 = lnpost Demo.pooled /\
    lnprop w3 = lnprop Demo.pooled /\ acceptance w3 = acceptance Demo.pooled /\
    iterations (self w3) = iterations (self Demo.pooled) /\
    failed_p w3 = failed_p Demo.pooled /\
    pool (self w3) = pool (self Demo.pooled) /\
    exists evs, trace w3 = trace Demo.pooled ++ evs /\ forallb no_pool evs = true.
Proof.
  set (X := Demo.env (Some 4%nat)).
  set (w1 := snd (initial_positions X (Some 0%nat) Demo.pooled)).
  set (w2 := snd (ensure_kde X 1%nat w1)).
  set (w3 := snd (evaluate X (mat_at w2 1%nat) w2)).
  assert (initial_positions X (Some 0%nat) Demo.pooled = (Ok 1%nat, w1)) as H1
    by (vm_compute; reflexivity).
  assert (ensure_kde X 1%nat w1 = (Ok tt, w2)) as H2 by (vm_compute; reflexivity).
  assert (evaluate X (mat_at w2 1%nat) w2 = (Raise ValueError, w3)) as H3
    by (vm_compute; reflexivity).
  exists w1, w2, w3. split; [auto|].
  exact (initial_failure_changes_nothing X (Some 0%nat) None None 5 10 Demo.pooled
           1%nat w1 w2 ValueError w3 (or_introl eq_refl) H1 H2 H3).
Defined.

(** ** C8: when the density is refitted *)

(** C8: an iteration that completes refits the density exactly when the
    new iteration count is a multiple of [update_interval].  Then the
    last thing the iteration asks of the outside is a fit of the
    positions as the step left them, and the sampler's density is the
    new one, made at that moment from these positions; otherwise no fit
    is asked for and the density is the one before.  In both cases
    nothing else the iteration asks is a fit. *)
Theorem refit_at_multiples (X : Extern) ui p a b w w' :
  mh_iteration X ui p a b w = (Ok tt, w') ->
  iterations (self w') = S (iterations (self w)) /\
  ui <> 0 /\
  exists evs,
    forallb quiet evs = true /\
    if Z.of_nat (iterations (self w')) mod ui =? 0 then
      trace w' = (trace w ++ evs) ++ [EvFit (mat_at w' p)] /\
      _kde (self w') = Some (mkKDE (length (trace w ++ evs)) (mat_at w' p))
    else
      trace w' = trace w ++ evs /\ _kde (self w') = _kde (self w).
Proof.
  intros H.
  pose proof (mh_iteration_counts X _ _ _ _ _ _ H) as (Hi & _).
  split; [done|].
  apply mh_iteration_ok in H
    as (p_p & lp & lq & ratio & acc & w1 & w2 & w3 & w4 & w5 &
        Hdraw & Heval & Hratio & Hacc & Hupd & Hstore & Hrefit).
  pose proof (asks_only_trans _ _ _ (asks_only_trans _ _ _ (draw_asks X _ _ _ _ Hdraw)
                (evaluate_asks X _ _ _ _ Heval)) (accept_asks X _ _ _ _ Hacc))
    as (S3 & _ & _ & evs & T3 & Q3).
  apply update_frame in Hupd as (S4 & T4 & _).
  apply store_ok in Hstore
    as (I5 & _ & _ & _ & _ & _ & _ & _ & _ & _ & K5 & _ & _ & _ & _ & M5 & T5).
  assert (trace w5 = trace w ++ evs) as T by congruence.
  assert (_kde (self w5) = _kde (self w)) as K by congruence.
  assert (iterations (self w5) = iterations (self w')) as I.
  { rewrite Hi, I5. congruence. }
  rewrite refit_run in Hrefit. rewrite <- I.
  destruct (Z.eqb_spec ui 0) as [|Hui]; [done|]. split; [done|].
  exists evs. split; [done|].
  destruct (_ mod _ =? 0).
  - simpl in Hrefit. destruct (optimized_kde X (clock w5) (mat_at w5 p)); [done|].
    injection Hrefit as <-. unfold mat_at, clock. simpl. rewrite T. done.
  - injection Hrefit as <-. done.
Qed.

(** The first iteration from [prepared] with [update_interval=1]: the
    count becomes 1, a multiple of 1. *)
Lemma refit_at_multiples_witness :
  exists w',
    mh_iteration (Demo.env None) 1 1%nat 0%nat 1%nat prepared = (Ok tt, w') /\
    iterations (self w') = S (iterations (self prepared)) /\
    1 <> 0 /\
    exists evs,
      forallb quiet evs = true /\
      if Z.of_nat (iterations (self w')) mod 1 =? 0 then
        trace w' = (trace prepared ++ evs) ++ [EvFit (mat_at w' 1%nat)] /\
        _kde (self w') = Some (mkKDE (length (trace prepared ++ evs)) (mat_at w' 1%nat))
      else
        trace w' = trace prepared ++ evs /\ _kde (self w') = _kde (self prepared).
Proof.
  set (w' := snd (mh_iteration (Demo.env None) 1 1%nat 0%nat 1%nat prepared)).
  assert (mh_iteration (Demo.env None) 1 1%nat 0%nat 1%nat prepared = (Ok tt, w')) as H
    by (vm_compute; reflexivity).
  exists w'. split; [exact H|].
  exact (refit_at_multiples (Demo.env None) 1 1%nat 0%nat 1%nat prepared w' H).
Defined.

(** ** C9: the caller's arrays *)

Lemma mats_grow_refl w : mats_grow w w.
Proof. exists []. by rewrite app_nil_r. Qed.

Lemma mats_grow_trans w1 w2 w3 : mats_grow w1 w2 -> mats_grow w2 w3 -> mats_grow w1 w3.
Proof. intros [l1 H1] [l2 H2]. exists (l1 ++ l2). by rewrite H2, H1, app_assoc. Qed.

Lemma extends_mats_grow w w' : extends w w' -> mats_grow w w'.
Proof. intros (_ & _ & _ & _ & _ & _ & _ & _ & H & _). exact H. Qed.

Lemma steps_sample_setup_mats (X : Extern) p0 l1 l2 n :
  steps mats_grow (sample_setup X p0 l1 l2 n).
Proof.
  pose proof mats_grow_refl as Rf. pose proof mats_grow_trans as Tr.
  unfold sample_setup.
  apply (steps_bind _ Tr).
  { intros w r w' H. eapply extends_mats_grow, steps_initial_positions, H. }
  intros p. apply (steps_bind _ Tr).
  { intros w r w' H. eapply extends_mats_grow, steps_ensure_kde, H. }
  intros _. apply (steps_bind _ Tr).
  { intros w r w' H. eapply extends_mats_grow, steps_initial_values, H. }
  intros [a b]. apply (steps_bind _ Tr); [|intros _; apply (steps_ret _ Rf)].
  intros w r w'. unfold preallocate. destruct (n <? 0).
  - intros [= _ <-]. apply Rf.
  - unfold bind, modify. simpl. intros [= _ <-]. exists []. simpl. by rewrite app_nil_r.
Qed.

(** C9: [sample] called with the caller's [p0], [lnpost0] and [lnprop0]
    (1) leaves the array [p0] as it was, however the call ends;
    (2) when it returns, returns the caller's own [lnpost0] and
    [lnprop0] and a new array of positions;
    (3) in every iteration that completes on these arrays, overwrites in
    [lnprop0] and [lnpost0] the entries of the walkers that the
    recorded acceptance row marks, with the log-values of the proposed
    batch, and leaves the other entries alone. *)
Theorem caller_arrays_updated_in_place (X : Extern) p0 a0 b0 k ui w r w' :
  (p0 < length (mats w))%nat ->
  sample X (Some p0) (Some a0) (Some b0) k ui w = (r, w') ->
  mat_at w' p0 = mat_at w p0 /\
  (forall p a b, r = Ok (p, a, b) -> a = a0 /\ b = b0 /\ p = length (mats w)) /\
  (forall p wj wj',
     (p < length (mats wj))%nat -> (a0 < length (vecs wj))%nat ->
     (b0 < length (vecs wj))%nat ->
     mh_iteration X ui p a0 b0 wj = (Ok tt, wj') ->
     exists p_p lnpost_p lnprop_p w1 w2 acc,
       draw X (nwalkers (self wj)) wj = (Ok p_p, w1) /\
       evaluate X p_p w1 = (Ok (lnpost_p, lnprop_p), w2) /\
       acceptance wj' !! iterations (self wj) = Some (map of_bool acc) /\
       forall j,
         vec_at wj' b0 !! j
           = match acc !! j with Some true => lnprop_p !! j | _ => vec_at wj b0 !! j end /\
         (a0 <> b0 ->
          vec_at wj' a0 !! j
            = match acc !! j with Some true => lnpost_p !! j | _ => vec_at wj a0 !! j end)).
Proof.
  intros Hp0 Hrun. split; [|split].
  - revert Hrun. unfold sample. unfold bind at 1.
    destruct (sample_setup X (Some p0) (Some a0) (Some b0) k w) as [[[[p a] b]|e] w1] eqn:Hs.
    + pose proof (steps_sample_setup_mats X _ _ _ _ _ _ _ Hs) as [l Hl].
      apply sample_setup_extends in Hs as (_ & _ & _ & -> & _).
      unfold bind.
      destruct (sample_loop X (Z.to_nat k) ui (length (mats w)) a b w1)
        as [[[]|e] w2] eqn:Hloop; intros [= _ <-];
        apply steps_sample_loop in Hloop as (_ & _ & Hm & _);
        unfold mat_at; rewrite Hm, Hl, lookup_app_l by lia; done.
    + intros [= _ <-].
      pose proof (steps_sample_setup_mats X _ _ _ _ _ _ _ Hs) as [l Hl].
      unfold mat_at. by rewrite Hl, lookup_app_l.
  - intros p a b ->. revert Hrun. unfold sample. unfold bind at 1.
    destruct (sample_setup X (Some p0) (Some a0) (Some b0) k w) as [[[[p' a'] b']|e] w1] eqn:Hs;
      [|done].
    apply sample_setup_extends in Hs as (_ & _ & _ & -> & _ & _ & Ha & Hb & _).
    unfold bind. destruct (sample_loop X _ _ _ _ _ _) as [[[]|] ?]; [|done].
    intros [= <- <- <- _]. rewrite (Ha a0), (Hb b0); done.
  - clear. intros p wj wj' Hp Ha Hb H.
    apply mh_iteration_ok in H
      as (p_p & lp & lq & ratio & acc & w1 & w2 & w3 & w4 & w5 &
          Hdraw & Heval & Hratio & Hacc & Hupd & Hstore & Hrefit).
    exists p_p, lp, lq, w1, w2, acc. split; [done|]. split; [done|].
    pose proof (asks_only_trans _ _ _ (asks_only_trans _ _ _ (draw_asks X _ _ _ _ Hdraw)
                  (evaluate_asks X _ _ _ _ Heval)) (accept_asks X _ _ _ _ Hacc)) as A3.
    pose proof A3 as (S3 & V3 & M3 & _).
    pose proof (update_frame _ _ _ _ _ _ _ _ _ _ Hupd) as (S4 & _).
    assert (forall j,
      mat_at w4 p !! j = match acc !! j with Some true => p_p !! j | _ => mat_at w3 p !! j end /\
      vec_at w4 b0 !! j = match acc !! j with Some true => lq !! j | _ => vec_at w3 b0 !! j end /\
      (a0 <> b0 ->
       vec_at w4 a0 !! j = match acc !! j with Some true => lp !! j | _ => vec_at w3 a0 !! j end))
      as Hup.
    { apply (update_ok _ _ _ _ _ _ _ _ _ Hupd); congruence. }
    apply store_ok in Hstore
      as (_ & _ & _ & _ & Hlen & _ & _ & _ & Hrow & _ & _ & _ & _ & _ & V5 & _).
    apply refit_any in Hrefit as (_ & _ & _ & C4 & _ & _ & _ & _ & V6 & _).
    assert (iterations (self w4) = iterations (self wj)) as Hi by congruence.
    split.
    { rewrite C4, Hrow, Hi. apply list_lookup_insert_eq. by rewrite <- Hi. }
    intros j. destruct (Hup j) as (_ & Hb' & Ha').
    unfold vec_at in *. rewrite V6, V5, <- V3. done.
Qed.

Lemma caller_arrays_updated_in_place_witness :
  ((0 < length (mats supplied))%nat /\
   sample (Demo.env None) (Some 0%nat) (Some 0%nat) (Some 1%nat) 2 10 supplied
     = (fst supplied_run, snd supplied_run)) /\
  mat_at (snd supplied_run) 0%nat = mat_at supplied 0%nat /\
  (forall p a b, fst supplied_run = Ok (p, a, b) ->
                 a = 0%nat /\ b = 1%nat /\ p = length (mats supplied)) /\
  (forall p wj wj',
     (p < length (mats wj))%nat -> (0 < length (vecs wj))%nat ->
     (1 < length (vecs wj))%nat ->
     mh_iteration (Demo.env None) 10 p 0%nat 1%nat wj = (Ok tt, wj') ->
     exists p_p lnpost_p lnprop_p w1 w2 acc,
       draw (Demo.env None) (nwalkers (self wj)) wj = (Ok p_p, w1) /\
       evaluate (Demo.env None) p_p w1 = (Ok (lnpost_p, lnprop_p), w2) /\
       acceptance wj' !! iterations (self wj) = Some (map of_bool acc) /\
       forall j,
         vec_at wj' 1%nat !! j
           = match acc !! j with Some true => lnprop_p !! j | _ => vec_at wj 1%nat !! j end /\
         (0%nat <> 1%nat ->
          vec_at wj' 0%nat !! j
            = match acc !! j with Some true => lnpost_p !! j | _ => vec_at wj 0%nat !! j end)).
Proof.
  assert (0 < length (mats supplied))%nat as H0 by (vm_compute; lia).
  assert (sample (Demo.env None) (Some 0%nat) (Some 0%nat) (Some 1%nat) 2 10 supplied
          = (fst supplied_run, snd supplied_run)) as H by (vm_compute; reflexivity).
  split; [split; [exact H0|exact H]|].
  exact (caller_arrays_updated_in_place (Demo.env None) 0%nat 0%nat 1%nat 2 10 supplied
           (fst supplied_run) (snd supplied_run) H0 H).
Defined.

(** What the call of the witness did to the caller's arrays: the
    entries of the walkers that moved are new, in both arrays. *)
Example supplied_run_arrays :
  fst supplied_run = Ok (1%nat, 0%nat, 1%nat) /\
  vec_at supplied 0%nat = [-0.125; -1.125; -2]%float /\
  vec_at (snd supplied_run) 0%nat = [-4.5; -1.125; -2]%float /\
  vec_at supplied 1%nat = [-0.03125; -0.28125; -0.5]%float /\
  vec_at (snd supplied_run) 1%nat = [-1.125; -0.28125; -0.5]%float /\
  mat_at (snd supplied_run) 0%nat = [[0.5]; [1.5]; [-2]]%float /\
  mat_at (snd supplied_run) 1%nat = [[3]; [1.5]; [-2]]%float.
Proof. vm_compute. repeat split; reflexivity. Qed.

(** ** C1: a failing evaluation of the proposed batch *)

Section Failure.
Context (X : Extern).

(** The handler of lines 251-256, for a sampler with the pool it needs. *)
Lemma on_evaluation_error_ok p_p w :
  pool_ok w ->
  exists w',
    on_evaluation_error p_p w = (Ok tt, w') /\
    chain w' = take (iterations (self w)) (chain w) /\
    lnpost w' = take (iterations (self w)) (lnpost w) /\
    lnprop w' = take (iterations (self w)) (lnprop w) /\
    acceptance w' = take (iterations (self w)) (acceptance w) /\
    iterations (self w') = iterations (self w) /\
    failed_p w' = Some p_p /\ pool_ok w'.
Proof.
  intros Hpool.
  destruct (rollback_ok (Z.of_nat (iterations (self w))) w Hpool) as (w1 & Hrun & Hpool1).
  unfold on_evaluation_error, bind, get_self. simpl. rewrite Hrun. simpl.
  eexists. split; [reflexivity|].
  apply rollback_any in Hrun as (C1 & C2 & C3 & C4 & I & _).
  rewrite slice_to_nat in C1. rewrite slice_to_nat in C2.
  rewrite slice_to_nat in C3. rewrite slice_to_nat in C4.
  unfold chain, lnpost, lnprop, acceptance, failed_p, pool_ok in *. simpl.
  repeat apply conj; auto.
Qed.

(** The iteration in which the evaluation of the drawn batch raises. *)
Lemma mh_iteration_evaluation_fails ui p a b w p_p w1 e w2 :
  pool_ok w ->
  draw X (nwalkers (self w)) w = (Ok p_p, w1) ->
  evaluate X p_p w1 = (Raise e, w2) ->
  is_Exception e = true ->
  exists w',
    mh_iteration X ui p a b w = (Raise e, w') /\
    chain w' = take (iterations (self w)) (chain w) /\
    lnpost w' = take (iterations (self w)) (lnpost w) /\
    lnprop w' = take (iterations (self w)) (lnprop w) /\
    acceptance w' = take (iterations (self w)) (acceptance w) /\
    iterations (self w') = iterations (self w) /\
    failed_p w' = Some p_p /\ pool_ok w'.
Proof.
  intros Hpool Hdraw Heval He.
  pose proof (asks_only_trans _ _ _ (draw_asks X _ _ _ _ Hdraw) (evaluate_asks X _ _ _ _ Heval))
    as (S2 & _).
  assert (pool_ok w2) as Hpool2 by (unfold pool_ok in *; by rewrite S2).
  destruct (on_evaluation_error_ok p_p w2 Hpool2)
    as (w' & Hh & C1 & C2 & C3 & C4 & I & F & P').
  exists w'. unfold chain, lnpost, lnprop, acceptance in *. rewrite S2 in *.
  split; [|done].
  unfold mh_iteration, try_reraise at 1.
  unfold bind at 1, get_self at 1. unfold bind at 1. rewrite Hdraw.
  unfold bind at 1, try_reraise at 1. rewrite Heval, He, Hh.
  destruct e; done.
Qed.
End Failure.

(** C1: when, in a call of [sample] on a sampler whose histories hold
    the committed iterations and which has the pool it needs, the
    evaluation of a drawn batch raises an [Exception] after [j]
    iterations of the call have completed, then the call raises this
    very exception; the four histories are cut back to the committed
    iterations, the [j] of this call included, and agree with the
    iteration counter; the drawn batch is what [failed_p] gives; and
    the sampler is left coherent and with its pool. *)
Theorem evaluation_failure_rolls_back
    (X : Extern) p0 lnpost0 lnprop0 k ui w p a b w1 j w2 p_p w3 e w4 :
  covers w -> pool_ok w ->
  sample_setup X p0 lnpost0 lnprop0 k w = (Ok (p, a, b), w1) ->
  (j < Z.to_nat k)%nat ->
  sample_loop X j ui p a b w1 = (Ok tt, w2) ->
  draw X (nwalkers (self w2)) w2 = (Ok p_p, w3) ->
  evaluate X p_p w3 = (Raise e, w4) ->
  is_Exception e = true ->
  exists w',
    sample X p0 lnpost0 lnprop0 k ui w = (Raise e, w') /\
    iterations (self w') = (iterations (self w) + j)%nat /\
    chain w' = take (iterations (self w) + j) (chain w2) /\
    lnpost w' = take (iterations (self w) + j) (lnpost w2) /\
    lnprop w' = take (iterations (self w) + j) (lnprop w2) /\
    acceptance w' = take (iterations (self w) + j) (acceptance w2) /\
    failed_p w' = Some p_p /\
    coherent w' /\ pool_ok w'.
Proof.
  intros Hcov Hpool Hsetup Hj Hloop Hdraw Heval He.
  pose proof (sample_setup_extends X _ _ _ _ _ _ _ _ _ Hsetup) as (w0 & E & Hpre & _).
  apply preallocate_ok in Hpre
    as (_ & L1 & L2 & L3 & L4 & _ & _ & _ & _ & I1 & _ & _ & P1 & G1 & _).
  destruct E as (C1 & C2 & C3 & C4 & I0 & _ & P0 & G0 & _).
  pose proof (sample_loop_counts X _ _ _ _ _ _ _ Hloop) as (I2 & M1 & M2 & M3 & M4 & _ & P2).
  assert (pool_ok w2) as Hpool2.
  { apply steps_sample_loop in Hloop as (_ & _ & _ & _ & _ & _ & Hp & _). apply Hp.
    eapply pool_ok_config; [| |exact Hpool]; congruence. }
  destruct (mh_iteration_evaluation_fails X ui p a b w2 p_p w3 e w4 Hpool2 Hdraw Heval He)
    as (w' & Hit & T1 & T2 & T3 & T4 & I' & F & P').
  assert (iterations (self w2) = (iterations (self w) + j)%nat) as Hi by congruence.
  exists w'. split.
  - unfold sample. unfold bind at 1. rewrite Hsetup.
    replace (Z.to_nat k) with (j + S (Z.to_nat k - S j))%nat by lia.
    unfold bind at 1. rewrite sample_loop_app. unfold bind at 1. rewrite Hloop.
    simpl. unfold bind at 1. rewrite Hit. done.
  - assert (coherent w') as Hcoh.
    { destruct Hcov as (V1 & V2 & V3 & V4). unfold coherent.
      assert (length (chain w2) = (length (chain w) + Z.to_nat k)%nat) by congruence.
      assert (length (lnpost w2) = (length (lnpost w) + Z.to_nat k)%nat) by congruence.
      assert (length (lnprop w2) = (length (lnprop w) + Z.to_nat k)%nat) by congruence.
      assert (length (acceptance w2) = (length (acceptance w) + Z.to_nat k)%nat)
        by congruence.
      rewrite T1, T2, T3, T4, I', !length_take.
      repeat apply conj; lia. }
    rewrite <- Hi. split; [done|]. do 5 (split; [done|]). done.
Qed.

Lemma evaluation_failure_rolls_back_witness :
  exists w1 w2 p_p w3 w4,
    (covers Demo.pooled /\ pool_ok Demo.pooled /\
     sample_setup failing (Some 0%nat) None None 3 Demo.pooled
       = (Ok (1%nat, 0%nat, 1%nat), w1) /\
     (1 < Z.to_nat 3)%nat /\
     sample_loop failing 1 10 1%nat 0%nat 1%nat w1 = (Ok tt, w2) /\
     draw failing (nwalkers (self w2)) w2 = (Ok p_p, w3) /\
     evaluate failing p_p w3 = (Raise ValueError, w4) /\
     is_Exception ValueError = true) /\
    exists w',
      sample failing (Some 0%nat) None None 3 10 Demo.pooled = (Raise ValueError, w') /\
      iterations (self w') = (iterations (self Demo.pooled) + 1)%nat /\
      chain w' = take (iterations (self Demo.pooled) + 1) (chain w2) /\
      lnpost w' = take (iterations (self Demo.pooled) + 1) (lnpost w2) /\
      lnprop w' = take (iterations (self Demo.pooled) + 1) (lnprop w2) /\
      acceptance w' = take (iterations (self Demo.pooled) + 1) (acceptance w2) /\
      failed_p w' = Some p_p /\
      coherent w' /\ pool_ok w'.
Proof.
  set (w1 := snd (sample_setup failing (Some 0%nat) None None 3 Demo.pooled)).
  set (w2 := snd (sample_loop failing 1 10 1%nat 0%nat 1%nat w1)).
  set (p_p := [[-3]; [0]; [3]]%float).
  set (w3 := snd (draw failing 3 w2)).
  set (w4 := snd (evaluate failing p_p w3)).
  assert (covers Demo.pooled) as Hc by (vm_compute; repeat split; lia).
  assert (pool_ok Demo.pooled) as Hp by (right; discriminate).
  assert (sample_setup failing (Some 0%nat) None None 3 Demo.pooled
          = (Ok (1%nat, 0%nat, 1%nat), w1)) as H1 by (vm_compute; reflexivity).
  assert (1 < Z.to_nat 3)%nat as Hj by (vm_compute; lia).
  assert (sample_loop failing 1 10 1%nat 0%nat 1%nat w1 = (Ok tt, w2)) as H2
    by (vm_compute; reflexivity).
  assert (draw failing (nwalkers (self w2)) w2 = (Ok p_p, w3)) as H3
    by (vm_compute; reflexivity).
  assert (evaluate failing p_p w3 = (Raise ValueError, w4)) as H4
    by (vm_compute; reflexivity).
  exists w1, w2, p_p, w3, w4. split; [auto 10|].
  exact (evaluation_failure_rolls_back failing (Some 0%nat) None None 3 10 Demo.pooled
           1%nat 0%nat 1%nat w1 1%nat w2 p_p w3 ValueError w4
           Hc Hp H1 Hj H2 H3 H4 eq_refl).
Defined.

(** The call of the witness, run: one row is left in each history, the
    counter says 1, the pool is a new one. *)
Example failing_run :
  let '(r, w') := sample failing (Some 0%nat) None None 3 10 Demo.pooled in
  r = Raise ValueError /\
  iterations (self w') = 1%nat /\ length (chain w') = 1%nat /\
  failed_p w' = Some [[-3]; [0]; [3]]%float /\
  pool (self Demo.pooled) = Some 0%nat /\ pool (self w') = Some 23%nat.
Proof. vm_compute. repeat split; reflexivity. Qed.

(** ** C7: the next test interval of [burnin] *)

(** C7 as stated fails: with three of five walkers accepting, the mean
    is 0.6 and [10 / 0.6] is 16.67; the code's [int] makes the window
    16, rounding makes it 17, and the lowest rate being 0 the window is
    the next test interval. *)
Lemma interval_truncated_not_rounded :
  next_test_interval three_of_five = Ok 16 /\
  stated_test_interval nearest (nwalkers three_of_five) (_acceptance three_of_five) = Ok 17.
Proof. vm_compute. split; reflexivity. Qed.

(** The code computes what the specification words, with [int] for the
    rounding. *)
Lemma next_test_interval_stated (s : Sampler) :
  next_test_interval s = stated_test_interval py_int (nwalkers s) (_acceptance s).
Proof.
  unfold next_test_interval, stated_test_interval, stated_window, stated_low_rate.
  destruct (last (_acceptance s)) as [row|]; [|done].
  replace (10 * 1)%float with 10%float by reflexivity.
  destruct (py_int (10 / np_mean row)) as [window|]; [|done].
  destruct (py_int (0.1 * of_nat (nwalkers s))) as [index|]; [|done].
  by destruct (np_sort _ !! Z.to_nat index).
Qed.

(** C7 (amended): when a cycle of the burn-in loop has run its window
    and the distribution test fails, the loop goes on with the ensemble
    of that window and with the test interval that the specification
    words, the rounding being [int], truncation towards zero:
    [w = int(10 / mean)] of the last iteration's acceptance, the
    walkers' rates over the last [w] iterations, [low_rate] the sorted
    rate at index [int(0.1 * nwalkers)], and [int(1 / low_rate)] if
    [low_rate > 0], else [w]. *)
Theorem failed_cycle_adapts (X : Extern) fuel ui max_iter test_interval p0 lnpost0 lnprop0
    last w p a b w1 test_interval' :
  exceeds (Z.of_nat (iterations (self w)) + test_interval) max_iter = false ->
  sample X (Some p0) lnpost0 lnprop0 test_interval ui w = (Ok (p, a, b), w1) ->
  ks_pass X (seq 0 (dim (self w1))) (mat_at w1 p0) (mat_at w1 p) = Ok false ->
  stated_test_interval py_int (nwalkers (self w1)) (acceptance w1) = Ok test_interval' ->
  burnin_loop X (S fuel) ui max_iter test_interval p0 lnpost0 lnprop0 last w
  = burnin_loop X fuel ui max_iter test_interval' p (Some a) (Some b) (Some (p, a, b)) w1.
Proof.
  intros Hguard Hsample Hks Hnext. simpl.
  rewrite Hguard, Hsample, Hks, next_test_interval_stated.
  unfold acceptance in Hnext. by rewrite Hnext.
Qed.

(** The first cycle of a burn-in with a strict test: one iteration, in
    which two of three walkers accept; the next test interval is 15. *)
Lemma failed_cycle_adapts_witness :
  exists w1,
    (exceeds (Z.of_nat (iterations (self Demo.fresh)) + 1) (Some 30) = false /\
     sample Demo.strict (Some 0%nat) None None 1 1 Demo.fresh = (Ok (1%nat, 0%nat, 1%nat), w1) /\
     ks_pass Demo.strict (seq 0 (dim (self w1))) (mat_at w1 0%nat) (mat_at w1 1%nat)
       = Ok false /\
     stated_test_interval py_int (nwalkers (self w1)) (acceptance w1) = Ok 15) /\
    burnin_loop Demo.strict 3 1 (Some 30) 1 0%nat None None None Demo.fresh
    = burnin_loop Demo.strict 2 1 (Some 30) 15 1%nat (Some 0%nat) (Some 1%nat)
        (Some (1%nat, 0%nat, 1%nat)) w1.
Proof.
  set (w1 := snd (sample Demo.strict (Some 0%nat) None None 1 1 Demo.fresh)).
  assert (exceeds (Z.of_nat (iterations (self Demo.fresh)) + 1) (Some 30) = false) as H1
    by reflexivity.
  assert (sample Demo.strict (Some 0%nat) None None 1 1 Demo.fresh
          = (Ok (1%nat, 0%nat, 1%nat), w1)) as H2 by (vm_compute; reflexivity).
  assert (ks_pass Demo.strict (seq 0 (dim (self w1))) (mat_at w1 0%nat) (mat_at w1 1%nat)
          = Ok false) as H3 by (vm_compute; reflexivity).
  assert (stated_test_interval py_int (nwalkers (self w1)) (acceptance w1) = Ok 15) as H4
    by (vm_compute; reflexivity).
  exists w1. split; [auto|].
  exact (failed_cycle_adapts Demo.strict 2 1 (Some 30) 1 0%nat None None None Demo.fresh
           1%nat 0%nat 1%nat w1 15 H1 H2 H3 H4).
Defined.

(** ** C6: [burnin] ends, within its budget *)

Section Burnin.
Context (X : Extern).

Lemma steps_sample_setup_count p0 l1 l2 n : steps same_count (sample_setup X p0 l1 l2 n).
Proof.
  assert (forall w, same_count w w) as Rf by done.
  assert (forall w1 w2 w3, same_count w1 w2 -> same_count w2 w3 -> same_count w1 w3) as Tr
    by (unfold same_count; congruence).
  assert (forall w w', extends w w' -> same_count w w') as Ex
    by (by intros w w' (_ & _ & _ & _ & ? & _)).
  unfold sample_setup.
  apply (steps_bind _ Tr).
  { intros w r w' H. eapply Ex, steps_initial_positions, H. }
  intros p. apply (steps_bind _ Tr).
  { intros w r w' H. eapply Ex, steps_ensure_kde, H. }
  intros _. apply (steps_bind _ Tr).
  { intros w r w' H. eapply Ex, steps_initial_values, H. }
  intros [a b]. apply (steps_bind _ Tr); [|intros _; apply (steps_ret _ Rf)].
  intros w r w'. unfold preallocate. destruct (n <? 0).
  - by intros [= _ <-].
  - unfold bind, modify. simpl. by intros [= _ <-].
Qed.

(** However a call of [sample] ends, a coherent sampler has counted at
    most the iterations asked for. *)
Lemma sample_counts_at_most p0 l1 l2 k ui w r w' :
  coherent w ->
  sample X p0 l1 l2 k ui w = (r, w') ->
  (iterations (self w') <= iterations (self w) + Z.to_nat k)%nat.
Proof.
  intros (H1 & H2 & H3 & H4). unfold sample. unfold bind at 1.
  destruct (sample_setup X p0 l1 l2 k w) as [[[[p a] b]|e] w1] eqn:Hs.
  - apply sample_setup_extends in Hs as (w3 & E & Hpre & _).
    apply preallocate_ok in Hpre as (_ & L1 & L2 & L3 & L4 & _ & _ & _ & _ & I1 & _).
    destruct E as (C1 & C2 & C3 & C4 & I0 & _).
    assert (covers w1) as Hcov.
    { unfold covers. rewrite L1, L2, L3, L4, I1, C1, C2, C3, C4, I0. lia. }
    unfold bind.
    destruct (sample_loop X (Z.to_nat k) ui p a b w1) as [[[]|e] w2] eqn:Hloop;
      intros [= _ <-];
      apply steps_sample_loop in Hloop as (_ & _ & _ & _ & _ & Hc & _ & _ & Hl);
      destruct (Hc Hcov) as (Hc1 & _); rewrite L1, C1 in Hl; lia.
  - intros [= _ <-]. apply steps_sample_setup_count in Hs. unfold same_count in Hs. lia.
Qed.

(** The positions a call returns are a new array; a call that is asked
    for no iteration returns a copy of the start positions. *)
Lemma sample_positions p0 l1 l2 k ui w p a b w' :
  (p0 < length (mats w))%nat ->
  sample X (Some p0) l1 l2 k ui w = (Ok (p, a, b), w') ->
  (p < length (mats w'))%nat /\ (k = 0 -> mat_at w' p = mat_at w' p0).
Proof.
  intros Hp0. unfold sample. unfold bind at 1.
  destruct (sample_setup X (Some p0) l1 l2 k w) as [[[[p' a'] b']|e] w1] eqn:Hs; [|done].
  pose proof (steps_sample_setup_mats X _ _ _ _ _ _ _ Hs) as [l Hl].
  apply sample_setup_extends in Hs as (w3 & _ & Hpre & Hp & Hlt & Hm & _).
  apply preallocate_ok in Hpre as (_ & _ & _ & _ & _ & _ & _ & _ & _ & _ & _ & _ & _ & _ & _ & M & _).
  unfold bind.
  destruct (sample_loop X (Z.to_nat k) ui p' a' b' w1) as [[[]|] w2] eqn:Hloop; [|done].
  intros [= <- <- <- <-]. split.
  - apply steps_sample_loop in Hloop as (_ & -> & _). by rewrite M.
  - intros ->. simpl in Hloop. injection Hloop as <-.
    unfold mat_at in *. rewrite M, Hm. rewrite <- M, Hl, lookup_app_l by done. done.
Qed.

Hypothesis ks_same :
  forall x, (snd (ks_2samp X x x) <? critical_pval)%float = false.

(** A sample tested against itself passes, if the test can be run. *)
Lemma ks_pass_same pars m :
  ks_pass X pars m m = Ok true \/ exists e, ks_pass X pars m m = Raise e.
Proof.
  induction pars as [|par pars IH]; simpl; [by left|].
  destruct (column par m) as [c|e]; [|right; by exists e].
  by rewrite ks_same.
Qed.

(** The loop ends before its fuel does, and within the budget. *)
Lemma burnin_loop_ends fuel ui max_iter test_interval p0 l1 l2 last w :
  coherent w -> (p0 < length (mats w))%nat ->
  Z.of_nat (iterations (self w)) <= max_iter ->
  max_iter - Z.of_nat (iterations (self w)) < Z.of_nat fuel ->
  (last = None -> Z.of_nat (iterations (self w)) + test_interval <= max_iter) ->
  exists out w1,
    burnin_loop X fuel ui (Some max_iter) test_interval p0 l1 l2 last w = Some (out, w1) /\
    Z.of_nat (iterations (self w1)) <= max_iter /\
    (forall burned_in, out <> Ok (burned_in, None)).
Proof.
  revert test_interval p0 l1 l2 last w.
  induction fuel as [|fuel IH]; intros ti p0 l1 l2 last w Hcoh Hp0 Hle Hfuel Hfirst; [lia|].
  simpl. destruct (Z.ltb_spec max_iter (Z.of_nat (iterations (self w)) + ti)) as [Hgt|Hgu].
  { exists (Ok (false, last)), w. repeat apply conj; [done|done|].
    intros b [= _ ->]. specialize (Hfirst eq_refl). lia. }
  match goal with |- context [sample X ?q l1 l2 ti ui w] =>
    destruct (sample X q l1 l2 ti ui w) as [[[[p a] b]|e] w1] eqn:Hs end.
  2:{ exists (Raise e), w1. apply sample_counts_at_most in Hs; [|done].
      repeat apply conj; [done|lia|done]. }
  pose proof (sample_ok_lengths X _ _ _ _ _ _ _ _ Hs) as (Hti & _ & _ & _ & _ & Hi).
  pose proof (sample_ok_coherent X _ _ _ _ _ _ _ _ Hcoh Hs) as Hc.
  pose proof (sample_positions _ _ _ _ _ _ _ _ _ _ Hp0 Hs) as (Hp & Hcopy).
  destruct (ks_pass X (seq 0 (dim (self w1))) (mat_at w1 p0) (mat_at w1 p))
    as [[]|e] eqn:Hks.
  - exists (Ok (true, Some (p, a, b))), w1. repeat apply conj; [done|lia|done].
  - assert (ti <> 0) as Hnz.
    { intros ->. rewrite Hcopy in Hks by done.
      destruct (ks_pass_same (seq 0 (dim (self w1))) (mat_at w1 p0)) as [E|[e E]];
        rewrite E in Hks; done. }
    destruct (next_test_interval (self w1)) as [ti'|e] eqn:Hn.
    + destruct (IH ti' p (Some a) (Some b) (Some (p, a, b)) w1) as (out & w2 & E & B & N);
        try done; try lia.
      exists out, w2. done.
    + exists (Raise e), w1. repeat apply conj; [done|lia|done].
  - exists (Raise e), w1. repeat apply conj; [done|lia|done].
Qed.
End Burnin.

(** X1, the part of C6 that holds of the code: for a coherent sampler,
    a two-sample test that passes a sample against itself, and a budget
    [max_steps >= 0], the loop of [burnin]
    ends within [max_steps + 1] cycles; the iteration count never passes
    [start + max_steps]; and [burnin] ends in one of three ways: it
    returns the ensemble of the last window after a passed test; or, the
    next window not fitting the budget, it prints that the burn-in was
    unsuccessful and returns the ensemble of the last window all the
    same; or it passes on an exception raised within a window, by the
    test or by the computation of the next interval. *)
Theorem burnin_ends_within_budget (X : Extern) fuel p0 lnpost0 lnprop0 ui max_steps w :
  (forall x, (snd (ks_2samp X x x) <? critical_pval)%float = false) ->
  coherent w ->
  0 <= max_steps -> max_steps < Z.of_nat fuel ->
  exists p0' w0 out w1,
    burnin_entry p0 ui (Some max_steps) w
      = (Ok (p0', Some (Z.of_nat (iterations (self w)) + max_steps), Z.min ui max_steps), w0) /\
    burnin_loop X fuel ui (Some (Z.of_nat (iterations (self w)) + max_steps))
      (Z.min ui max_steps) p0' lnpost0 lnprop0 None w0 = Some (out, w1) /\
    Z.of_nat (iterations (self w1)) <= Z.of_nat (iterations (self w)) + max_steps /\
    ((exists t, out = Ok (true, Some t) /\
                burnin X fuel p0 lnpost0 lnprop0 ui (Some max_steps) w = Some (Ok t, w1)) \/
     (exists t, out = Ok (false, Some t) /\
                burnin X fuel p0 lnpost0 lnprop0 ui (Some max_steps) w
                  = Some (Ok t, snd (emit (EvPrint "Burnin unsuccessful.") w1))) \/
     (exists e, out = Raise e /\
                burnin X fuel p0 lnpost0 lnprop0 ui (Some max_steps) w = Some (Raise e, w1))).
Proof.
  intros Hks Hcoh Hms Hfuel.
  set (w0 := mkWorld (self w) (vecs w) (mats w ++ [mat_at w p0]) (trace w)).
  assert (burnin_entry p0 ui (Some max_steps) w
          = (Ok (length (mats w), Some (Z.of_nat (iterations (self w)) + max_steps),
                 Z.min ui max_steps), w0)) as Hentry by reflexivity.
  destruct (burnin_loop_ends X Hks fuel ui (Z.of_nat (iterations (self w)) + max_steps)
              (Z.min ui max_steps) (length (mats w)) lnpost0 lnprop0 None w0)
    as (out & w1 & Hloop & Hbudget & Hlast).
  - exact Hcoh.
  - unfold w0. simpl. rewrite length_app. simpl. lia.
  - unfold w0. simpl. lia.
  - unfold w0. simpl. lia.
  - intros _. unfold w0. simpl. lia.
  - exists (length (mats w)), w0, out, w1.
    split; [exact Hentry|]. split; [exact Hloop|]. split; [exact Hbudget|].
    unfold burnin. rewrite Hentry, Hloop.
    destruct out as [[[] [t|]]|e].
    + left. by exists t.
    + by destruct (Hlast true).
    + right. left. by exists t.
    + by destruct (Hlast false).
    + right. right. by exists e.
Qed.

Lemma ks_with_same d_max x :
  (snd (Demo.ks_with d_max x x) <? critical_pval)%float = false.
Proof.
  unfold Demo.ks_with, Demo.identical. rewrite bool_decide_eq_true_2 by done. reflexivity.
Qed.

(** A burn-in of a fresh sampler with the strict test, one iteration
    in the first window and a budget of 30. *)
Lemma burnin_ends_within_budget_witness :
  ((forall x, (snd (ks_2samp Demo.strict x x) <? critical_pval)%float = false) /\
   coherent Demo.fresh /\ 0 <= 30 /\ 30 < Z.of_nat 31) /\
  exists p0' w0 out w1,
    burnin_entry 0%nat 1 (Some 30) Demo.fresh
      = (Ok (p0', Some (Z.of_nat (iterations (self Demo.fresh)) + 30), Z.min 1 30), w0) /\
    burnin_loop Demo.strict 31 1 (Some (Z.of_nat (iterations (self Demo.fresh)) + 30))
      (Z.min 1 30) p0' None None None w0 = Some (out, w1) /\
    Z.of_nat (iterations (self w1)) <= Z.of_nat (iterations (self Demo.fresh)) + 30 /\
    ((exists t, out = Ok (true, Some t) /\
                burnin Demo.strict 31 0%nat None None 1 (Some 30) Demo.fresh
                  = Some (Ok t, w1)) \/
     (exists t, out = Ok (false, Some t) /\
                burnin Demo.strict 31 0%nat None None 1 (Some 30) Demo.fresh
                  = Some (Ok t, snd (emit (EvPrint "Burnin unsuccessful.") w1))) \/
     (exists e, out = Raise e /\
                burnin Demo.strict 31 0%nat None None 1 (Some 30) Demo.fresh
                  = Some (Raise e, w1))).
Proof.
  assert (forall x, (snd (ks_2samp Demo.strict x x) <? critical_pval)%float = false) as Hks
    by (intros x; apply ks_with_same).
  assert (coherent Demo.fresh) as Hcoh by (vm_compute; repeat split; reflexivity).
  assert (0 <= 30) as H0 by lia.
  assert (30 < Z.of_nat 31) as H1 by lia.
  split; [auto|].
  exact (burnin_ends_within_budget Demo.strict 31 0%nat None None 1 30 Demo.fresh
           Hks Hcoh H0 H1).
Defined.

(** The burn-in of the witness, run: after 28 iterations the next
    window does not fit; the burn-in is reported unsuccessful and the
    last ensemble is returned. *)
Example burnin_gives_up :
  match burnin Demo.strict 31 0%nat None None 1 (Some 30) Demo.fresh with
  | Some (r, w') =>
      r = Ok (7%nat, 0%nat, 1%nat) /\ iterations (self w') = 28%nat /\
      last (trace w') = Some (EvPrint "Burnin unsuccessful.")
  | None => False
  end.
Proof. vm_compute. repeat split; reflexivity. Qed.

(** The specification's scenario C: [burnin(..., max_steps=1)] with
    [update_interval=10] runs one window of one iteration and returns. *)
Example burnin_one_step :
  match burnin Demo.strict 2 0%nat None None 10 (Some 1) Demo.fresh with
  | Some (r, w') =>
      r = Ok (2%nat, 0%nat, 1%nat) /\ iterations (self w') = 1%nat /\
      last (trace w') = Some (EvPrint "Burnin unsuccessful.")
  | None => False
  end.
Proof. vm_compute. repeat split; reflexivity. Qed.

(** Why the averages are floating-point numbers here: with 5 of 29
    walkers accepting, [10 / (5 / 29)] is 58 in exact arithmetic, but
    the quotient of the doubles is just below, and [int] makes it 57. *)
Example window_of_doubles :
  py_int (10 * 1 / np_mean (replicate 5 1 ++ replicate 24 0))%float = Ok 57.
Proof. vm_compute. reflexivity. Qed.

(** When no walker accepted in the last iteration, the mean is 0, the
    quotient is infinite and [int] raises. *)
Example no_acceptance_overflows :
  next_test_interval
    (mkSampler 3 1 2 None None (Some 1) [] [] [] [[1; 1; 1]; [0; 0; 0]]%float None)
  = Raise OverflowError.
Proof. vm_compute. reflexivity. Qed.

(** ** A window whose last iteration accepts nobody *)

(** C6, where the code departs from it: a burn-in with a budget of 10
    whose first window of two iterations moves every walker and then
    none.  The test fails, the mean acceptance of the last iteration is
    0, [10 * 1 / 0.] is infinite, and [int] raises [OverflowError]:
    the burn-in ends neither by success nor by giving up, although 8 of
    its 10 steps are left; the sibling division by [low_rate] is guarded
    by [low_rate > 0.], this one is not. *)
Lemma burnin_stalled_window_raises :
  acceptance (snd (sample stalled (Some 0%nat) None None 2 2 Demo.fresh))
    = [[1; 1; 1]; [0; 0; 0]]%float /\
  match burnin stalled 11 0%nat None None 2 (Some 10) Demo.fresh with
  | Some (r, w') => r = Raise OverflowError /\ iterations (self w') = 2%nat
  | None => False
  end.
Proof. vm_compute. repeat split; reflexivity. Qed.

(** ** The states that [__init__] and [sample] reach *)

Lemma extends_keeps_sound w w' : extends w w' -> keeps_sound w w'.
Proof.
  intros (C1 & C2 & C3 & C4 & I & _ & P & G & _) [Hc Hp]. split.
  - unfold covers in *. by rewrite C1, C2, C3, C4, I.
  - by apply (pool_ok_config w).
Qed.

Lemma steps_sample_setup_sound (X : Extern) p0 l1 l2 n :
  steps keeps_sound (sample_setup X p0 l1 l2 n).
Proof.
  assert (forall w, keeps_sound w w) as Rf by (by intros w H).
  assert (forall w1 w2 w3, keeps_sound w1 w2 -> keeps_sound w2 w3 -> keeps_sound w1 w3) as Tr
    by (unfold keeps_sound; auto).
  unfold sample_setup.
  apply (steps_bind _ Tr).
  { intros w r w' H. eapply extends_keeps_sound, steps_initial_positions, H. }
  intros p. apply (steps_bind _ Tr).
  { intros w r w' H. eapply extends_keeps_sound, steps_ensure_kde, H. }
  intros _. apply (steps_bind _ Tr).
  { intros w r w' H. eapply extends_keeps_sound, steps_initial_values, H. }
  intros [a b]. apply (steps_bind _ Tr); [|intros _; apply (steps_ret _ Rf)].
  intros w r w' H. destruct r as [[]|e].
  - apply preallocate_ok in H
      as (_ & L1 & L2 & L3 & L4 & _ & _ & _ & _ & I & _ & _ & P & G & _).
    intros [Hc Hp]. split.
    + unfold covers in *. rewrite L1, L2, L3, L4, I. lia.
    + by apply (pool_ok_config w).
  - revert H. unfold preallocate. destruct (n <? 0); [intros [= _ <-]; apply Rf|].
    unfold bind, modify. simpl. done.
Qed.

(** X2: however a call of [sample] ends, a sampler whose histories
    cover the committed iterations and which has its pool is left so:
    the states reached from [__init__] by calls of [sample] are such. *)
Lemma sample_keeps_sound (X : Extern) p0 l1 l2 k ui w r w' :
  sound w -> sample X p0 l1 l2 k ui w = (r, w') -> sound w'.
Proof.
  intros Hs. unfold sample. unfold bind at 1.
  destruct (sample_setup X p0 l1 l2 k w) as [[[[p a] b]|e] w1] eqn:Hsetup.
  - apply steps_sample_setup_sound in Hsetup. destruct (Hsetup Hs) as [Hc Hp].
    unfold bind.
    destruct (sample_loop X (Z.to_nat k) ui p a b w1) as [[[]|e] w2] eqn:Hloop;
      intros [= _ <-];
      apply steps_sample_loop in Hloop as (_ & _ & _ & _ & _ & Hc' & Hp' & _);
      split; auto.
  - intros [= _ <-]. by apply (steps_sample_setup_sound X _ _ _ _ _ _ _ Hsetup).
Qed.

(** The failing call of a pooled sampler leaves it sound. *)
Lemma sample_keeps_sound_witness :
  sound Demo.pooled /\
  sound (snd (sample failing (Some 0%nat) None None 3 10 Demo.pooled)).
Proof.
  assert (sound Demo.pooled) as H.
  { split; [vm_compute; repeat split; lia|right; vm_compute; discriminate]. }
  split; [exact H|].
  exact (sample_keeps_sound failing (Some 0%nat) None None 3 10 Demo.pooled
           (fst (sample failing (Some 0%nat) None None 3 10 Demo.pooled))
           (snd (sample failing (Some 0%nat) None None 3 10 Demo.pooled))
           H (surjective_pairing _)).
Defined.

(** * Further properties of the methods *)

(** ** [rollback], composed with itself and at the bounds *)

Lemma slice_to_slice_to {A} (j k : Z) (a : list A) :
  0 <= j -> 0 <= k -> slice_to j (slice_to k a) = slice_to (Z.min j k) a.
Proof.
  intros Hj Hk. unfold slice_to.
  destruct (Z.ltb_spec j 0); [lia|]. destruct (Z.ltb_spec k 0); [lia|].
  destruct (Z.ltb_spec (Z.min j k) 0); [lia|].
  rewrite take_take. f_equal. lia.
Qed.

Lemma slice_to_all {A} (k : Z) (a : list A) :
  Z.of_nat (length a) <= k -> slice_to k a = a.
Proof.
  intros H. unfold slice_to. destruct (Z.ltb_spec k 0); [lia|]. apply take_ge. lia.
Qed.

Lemma slice_to_negative {A} (k : Z) (a : list A) :
  k < 0 -> slice_to k a = take (length a - Z.to_nat (- k)) a.
Proof.
  intros H. unfold slice_to. destruct (Z.ltb_spec k 0); [|lia]. f_equal. lia.
Qed.

(** [rollback] in a sampler without a pool of its own. *)
Lemma rollback_single k w :
  processes (self w) = Some 1 ->
  rollback k w =
    (Ok tt,
     mkWorld (set_histories (slice_to k (_chain (self w))) (slice_to k (_lnpost (self w)))
                (slice_to k (_lnprop (self w))) (slice_to k (_acceptance (self w))) (self w))
             (vecs w) (mats w) (trace w)).
Proof.
  intros Hp. unfold rollback, bind, modify, get_self. simpl. rewrite Hp. reflexivity.
Qed.

(** X4: for [j, k >= 0], [rollback(k)] followed by [rollback(j)] leaves
    the four histories that [rollback(min(j, k))] leaves, and the
    iteration counter as it was; so [rollback(k)] twice leaves the
    histories of [rollback(k)] once, and in a sampler without a pool of
    its own ([processes = 1]) the second call changes nothing at all. *)
Theorem rollback_rollback (j k : Z) (w : World) :
  0 <= j -> 0 <= k ->
  let w1 := snd (rollback k w) in
  let w2 := snd (rollback j w1) in
  let w3 := snd (rollback (Z.min j k) w) in
  chain w2 = chain w3 /\ lnpost w2 = lnpost w3 /\ lnprop w2 = lnprop w3 /\
  acceptance w2 = acceptance w3 /\
  iterations (self w2) = iterations (self w) /\
  (j = k -> chain w2 = chain w1 /\ lnpost w2 = lnpost w1 /\ lnprop w2 = lnprop w1 /\
            acceptance w2 = acceptance w1) /\
  (j = k -> processes (self w) = Some 1 -> w2 = w1).
Proof.
  intros Hj Hk w1 w2 w3.
  pose proof (rollback_any k w _ _ (surjective_pairing _))
    as (A1 & A2 & A3 & A4 & AI & _ & _ & AC & _).
  pose proof (rollback_any j w1 _ _ (surjective_pairing _))
    as (B1 & B2 & B3 & B4 & BI & _).
  pose proof (rollback_any (Z.min j k) w _ _ (surjective_pairing _))
    as (C1 & C2 & C3 & C4 & _).
  fold w1 in A1, A2, A3, A4, AI, AC. fold w2 in B1, B2, B3, B4, BI.
  fold w3 in C1, C2, C3, C4.
  assert (chain w2 = chain w3) as E1
    by (rewrite B1, A1, C1; by apply slice_to_slice_to).
  assert (lnpost w2 = lnpost w3) as E2
    by (rewrite B2, A2, C2; by apply slice_to_slice_to).
  assert (lnprop w2 = lnprop w3) as E3
    by (rewrite B3, A3, C3; by apply slice_to_slice_to).
  assert (acceptance w2 = acceptance w3) as E4
    by (rewrite B4, A4, C4; by apply slice_to_slice_to).
  do 4 (split; [assumption|]). split; [congruence|]. split.
  - intros ->. rewrite B1, B2, B3, B4, A1, A2, A3, A4.
    rewrite !slice_to_slice_to, !Z.min_id by done. done.
  - intros -> Hp. subst w2 w1.
    rewrite (rollback_single k w Hp). cbn [snd].
    rewrite rollback_single by exact Hp. cbn [snd self vecs mats trace].
    unfold set_histories.
    cbn [nwalkers dim iterations _kde pool processes _chain _lnpost _lnprop _acceptance
         _failed_p].
    rewrite !slice_to_slice_to, !Z.min_id by done. done.
Qed.

(** Two committed iterations, rolled back to one and to one again. *)
Lemma rollback_rollback_witness :
  (0 <= 1 /\ 0 <= 1) /\
  let w1 := snd (rollback 1 two_steps) in
  let w2 := snd (rollback 1 w1) in
  let w3 := snd (rollback (Z.min 1 1) two_steps) in
  chain w2 = chain w3 /\ lnpost w2 = lnpost w3 /\ lnprop w2 = lnprop w3 /\
  acceptance w2 = acceptance w3 /\
  iterations (self w2) = iterations (self two_steps) /\
  (1 = 1 -> chain w2 = chain w1 /\ lnpost w2 = lnpost w1 /\ lnprop w2 = lnprop w1 /\
            acceptance w2 = acceptance w1) /\
  (1 = 1 -> processes (self two_steps) = Some 1 -> w2 = w1).
Proof.
  assert (0 <= 1) as H by lia.
  split; [split; exact H|].
  exact (rollback_rollback 1 1 two_steps H H).
Defined.

(** X5: [rollback(k)] at the bounds.  With [k] at or beyond their
    length the four histories are left as they are; with a negative [k]
    each loses its last [-k] rows, as Python's slices count from the
    end, so that [rollback(-1)] twice removes two rows. *)
Theorem rollback_bounds (k : Z) (w : World) :
  let w' := snd (rollback k w) in
  (Z.of_nat (length (chain w)) <= k -> chain w' = chain w) /\
  (Z.of_nat (length (lnpost w)) <= k -> lnpost w' = lnpost w) /\
  (Z.of_nat (length (lnprop w)) <= k -> lnprop w' = lnprop w) /\
  (Z.of_nat (length (acceptance w)) <= k -> acceptance w' = acceptance w) /\
  (k < 0 ->
   chain w' = take (length (chain w) - Z.to_nat (- k)) (chain w) /\
   lnpost w' = take (length (lnpost w) - Z.to_nat (- k)) (lnpost w) /\
   lnprop w' = take (length (lnprop w) - Z.to_nat (- k)) (lnprop w) /\
   acceptance w' = take (length (acceptance w) - Z.to_nat (- k)) (acceptance w)) /\
  (k < 0 -> length (chain (snd (rollback k w'))) = (length (chain w) - 2 * Z.to_nat (- k))%nat).
Proof.
  intros w'.
  pose proof (rollback_any k w _ _ (surjective_pairing _)) as (A1 & A2 & A3 & A4 & _).
  pose proof (rollback_any k w' _ _ (surjective_pairing _)) as (B1 & _).
  fold w' in A1, A2, A3, A4.
  repeat apply conj.
  - intros H. rewrite A1. by apply slice_to_all.
  - intros H. rewrite A2. by apply slice_to_all.
  - intros H. rewrite A3. by apply slice_to_all.
  - intros H. rewrite A4. by apply slice_to_all.
  - intros H. rewrite A1, A2, A3, A4, !slice_to_negative by done. done.
  - intros H. rewrite B1, A1, !slice_to_negative by done.
    rewrite !length_take. lia.
Qed.

(** ** An interrupt during [sample] *)

(** [try: body  except <class>: handler; raise], run. *)
Lemma try_reraise_run {A} catches (body : M A) handler w r w' :
  try_reraise catches body handler w = (r, w') ->
  (exists a, body w = (Ok a, w') /\ r = Ok a) \/
  (exists e, body w = (Raise e, w') /\ catches e = false /\ r = Raise e) \/
  (exists e wb, body w = (Raise e, wb) /\ catches e = true /\
     (handler wb = (Ok tt, w') /\ r = Raise e \/
      exists e', handler wb = (Raise e', w') /\ r = Raise e')).
Proof.
  unfold try_reraise. destruct (body w) as [[a|e] wb] eqn:Hb.
  - intros [= <- <-]. left. by exists a.
  - destruct (catches e) eqn:Hc.
    + destruct (handler wb) as [[[]|e'] wh] eqn:Hh; intros [= <- <-];
        right; right; exists e, wb; repeat split; eauto.
    + intros [= <- <-]. right. left. by exists e.
Qed.

(** [rollback] raises nothing but the [AttributeError] of a missing pool. *)
Lemma rollback_raises k w e w' : rollback k w = (Raise e, w') -> e = AttributeError.
Proof.
  unfold rollback, bind, modify, get_self. simpl.
  destruct (processes _) as [[|[]|]|]; simpl; try done;
    destruct (pool _); simpl; try done; by intros [= <- _].
Qed.

Section Interrupt.
Context (X : Extern) (p a b : loc).

(** All that an iteration does inside its [try], lines 239-286. *)
Lemma steps_mh_body ui :
  steps (keeps p a b)
    (let* s := get_self in
     let* p_p := draw X (nwalkers s) in
     let* (lnpost_p, lnprop_p) :=
       try_reraise is_Exception (evaluate X p_p) (on_evaluation_error p_p) in
     let* lv := read_vec a in
     let* qv := read_vec b in
     let* ratio := lift (ln_mh_ratio lnpost_p lv qv lnprop_p) in
     let* acc := accept X ratio in
     update acc p a b p_p lnpost_p lnprop_p ;;
     store acc p a b ;;
     refit X ui p).
Proof.
  pose proof (keeps_refl p a b) as Rf. pose proof (keeps_trans p a b) as Tr.
  apply (steps_bind _ Tr); [apply (steps_get_self _ Rf)|]. intros s.
  apply (steps_bind _ Tr); [apply steps_draw|]. intros p_p.
  apply (steps_bind _ Tr).
  { apply (steps_try_reraise _ Tr); [apply steps_evaluate|apply steps_on_evaluation_error]. }
  intros [lp lq].
  apply (steps_bind _ Tr); [apply (steps_read_vec _ Rf)|]. intros lv.
  apply (steps_bind _ Tr); [apply (steps_read_vec _ Rf)|]. intros qv.
  apply (steps_bind _ Tr); [apply (steps_lift _ Rf)|]. intros ratio.
  apply (steps_bind _ Tr); [apply steps_accept|]. intros acc.
  apply (steps_bind _ Tr); [apply steps_update|]. intros _.
  apply (steps_bind _ Tr); [apply steps_store|]. intros _.
  apply steps_refit.
Qed.

(** An iteration leaves the failed batch alone unless it ends with an
    [Exception]. *)
Lemma mh_iteration_failed_p ui w r w' :
  mh_iteration X ui p a b w = (r, w') ->
  failed_p w' = failed_p w \/ exists e, r = Raise e /\ is_Exception e = true.
Proof.
  assert (forall w1 w2, self w2 = self w1 -> failed_p w2 = failed_p w1) as Hself
    by (intros w1 w2 E; unfold failed_p; by rewrite E).
  unfold mh_iteration. intros H. apply try_reraise_run in H.
  assert (forall rb wb,
    (let* s := get_self in
     let* p_p := draw X (nwalkers s) in
     let* (lnpost_p, lnprop_p) :=
       try_reraise is_Exception (evaluate X p_p) (on_evaluation_error p_p) in
     let* lv := read_vec a in
     let* qv := read_vec b in
     let* ratio := lift (ln_mh_ratio lnpost_p lv qv lnprop_p) in
     let* acc := accept X ratio in
     update acc p a b p_p lnpost_p lnprop_p ;;
     store acc p a b ;;
     refit X ui p) w = (rb, wb) ->
    failed_p wb = failed_p w \/ exists e, rb = Raise e /\ is_Exception e = true) as Hbody.
  { clear H. intros rb wb.
    unfold bind at 1. unfold get_self at 1. unfold bind at 1.
    destruct (draw X (nwalkers (self w)) w) as [[p_p|e] w1] eqn:Hdraw.
    2:{ intros [= <- <-]. left. apply draw_asks in Hdraw as (S1 & _). auto. }
    apply draw_asks in Hdraw as (S1 & _).
    unfold bind at 1.
    destruct (try_reraise is_Exception (evaluate X p_p) (on_evaluation_error p_p) w1)
      as [[[lp lq]|e] w2] eqn:Htry.
    2:{ intros [= <- <-].
        apply try_reraise_run in Htry
          as [(? & _ & ?)|[(e0 & Hev & _ & [= ->])|(e0 & wb' & Hev & Hc & Hh)]]; [done| |].
        - left. apply evaluate_asks in Hev as (S2 & _). rewrite <- (Hself w w1 S1). auto.
        - right. destruct Hh as [(_ & [= ->])|(e' & Hh & [= ->])]; [eauto|].
          exists e'. split; [done|].
          revert Hh. unfold on_evaluation_error, bind, get_self. simpl.
          destruct (rollback _ wb') as [[[]|e''] wr] eqn:Hr; simpl; [done|].
          intros [= <- _]. by rewrite (rollback_raises _ _ _ _ Hr). }
    apply try_reraise_run in Htry
      as [(? & Hev & [= <-])|[(? & _ & _ & ?)|(? & ? & _ & _ & [(_ & ?)|(? & _ & ?)])]];
      try done.
    apply evaluate_asks in Hev as (S2 & _).
    unfold bind at 1, read_vec at 1. unfold bind at 1, read_vec at 1.
    unfold bind at 1, lift at 1.
    destruct (ln_mh_ratio lp (vec_at w2 a) (vec_at w2 b) lq) as [ratio|e] eqn:Hr.
    2:{ intros [= <- <-]. left. rewrite (Hself w1 w2 S2). auto. }
    unfold bind at 1.
    destruct (accept X ratio w2) as [[acc|e] w3] eqn:Hacc.
    2:{ rewrite accept_run in Hacc. done. }
    apply accept_asks in Hacc as (S3 & _).
    unfold bind at 1.
    destruct (update acc p a b p_p lp lq w3) as [[[]|e] w4] eqn:Hupd;
      apply update_frame in Hupd as (S4 & _).
    2:{ intros [= <- <-]. left.
        rewrite (Hself w3 w4 S4), (Hself w2 w3 S3), (Hself w1 w2 S2). auto. }
    assert (failed_p w4 = failed_p w) as F4.
    { rewrite (Hself w3 w4 S4), (Hself w2 w3 S3), (Hself w1 w2 S2). auto. }
    unfold bind at 1.
    destruct (store acc p a b w4) as [[[]|e] w5] eqn:Hst;
      apply store_any in Hst as (_ & _ & _ & _ & _ & _ & _ & _ & F5 & _).
    2:{ intros [= <- <-]. left. congruence. }
    intros Hre. apply refit_any in Hre as (_ & _ & _ & _ & _ & _ & F6 & _).
    left. congruence. }
  destruct H as [(? & Hb & ->)|[(e & Hb & _ & ->)|(e & wb & Hb & Hc & Hh)]].
  - apply Hbody in Hb as [|(? & ? & _)]; [by left|done].
  - apply Hbody in Hb. destruct Hb as [|(? & [= <-] & ?)]; [by left|right; eauto].
  - apply Hbody in Hb. destruct Hb as [Fb|(? & [= <-] & He)]; [|by destruct e].
    unfold on_interrupt, bind, get_self in Hh. simpl in Hh.
    destruct Hh as [(Hh & ->)|(e' & Hh & ->)].
    + apply rollback_any in Hh as (_ & _ & _ & _ & _ & _ & F & _). left. congruence.
    + right. exists e'. split; [done|]. by rewrite (rollback_raises _ _ _ _ Hh).
Qed.

(** The interrupted iteration: the histories are cut to the committed
    iterations. *)
Lemma mh_iteration_interrupted ui w w' :
  covers w -> pool_ok w ->
  mh_iteration X ui p a b w = (Raise KeyboardInterrupt, w') ->
  coherent w' /\ pool_ok w' /\ failed_p w' = failed_p w /\
  (iterations (self w) <= iterations (self w'))%nat.
Proof.
  intros Hcov Hpool H.
  pose proof (mh_iteration_failed_p _ _ _ _ H) as [F|(? & [= <-] & ?)]; [|done].
  pose proof (steps_mh_iteration X p a b ui _ _ _ H) as (_ & _ & _ & _ & _ & _ & Hp & Hi & _).
  unfold mh_iteration in H. apply try_reraise_run in H
    as [(? & _ & ?)|[(e & _ & Hc & [= <-])|(e & wb & Hb & _ & Hh)]]; [done|done|].
  apply steps_mh_body in Hb as (_ & _ & _ & _ & _ & Hcb & Hpb & _).
  destruct (Hcb Hcov) as (V1 & V2 & V3 & V4).
  assert (rollback (Z.of_nat (iterations (self wb))) wb = (Ok tt, w')) as Hr.
  { destruct (rollback_ok (Z.of_nat (iterations (self wb))) wb (Hpb Hpool)) as (w'' & E & _).
    unfold on_interrupt, bind, get_self in Hh. simpl in Hh. rewrite E in Hh.
    destruct Hh as [([= <-] & _)|(? & ? & _)]; done. }
  apply rollback_any in Hr as (C1 & C2 & C3 & C4 & I & _).
  rewrite slice_to_nat in C1. rewrite slice_to_nat in C2.
  rewrite slice_to_nat in C3. rewrite slice_to_nat in C4.
  split; [|auto].
  unfold coherent. rewrite C1, C2, C3, C4, I, !length_take. lia.
Qed.

Lemma sample_loop_interrupted n ui w w' :
  covers w -> pool_ok w ->
  sample_loop X n ui p a b w = (Raise KeyboardInterrupt, w') ->
  coherent w' /\ pool_ok w' /\ failed_p w' = failed_p w /\
  (iterations (self w) <= iterations (self w'))%nat.
Proof.
  revert w. induction n as [|n IH]; simpl; intros w Hcov Hpool; [done|].
  unfold bind. destruct (mh_iteration X ui p a b w) as [[[]|e] w1] eqn:Hit.
  - intros H.
    pose proof (steps_mh_iteration X p a b ui _ _ _ Hit) as (_ & _ & _ & _ & _ & Hc & Hp & Hi & _).
    apply mh_iteration_counts in Hit as (_ & _ & _ & _ & _ & F & _).
    apply IH in H as (R1 & R2 & R3 & R4); auto.
    split; [exact R1|]. split; [exact R2|]. split; [congruence|lia].
  - intros [= -> <-]. by apply (mh_iteration_interrupted ui).
Qed.
End Interrupt.

(** A set-up that raises has left histories, counter, failed batch and
    pool as they were. *)
Lemma sample_setup_raises (X : Extern) p0 l1 l2 n w e w' :
  sample_setup X p0 l1 l2 n w = (Raise e, w') -> extends w w'.
Proof.
  pose proof extends_refl as Rf. pose proof extends_trans as Tr.
  unfold sample_setup. unfold bind at 1.
  destruct (initial_positions X p0 w) as [[p|e1] w1] eqn:H1.
  2:{ intros [= _ <-]. eapply steps_initial_positions, H1. }
  apply steps_initial_positions in H1.
  unfold bind at 1. destruct (ensure_kde X p w1) as [[[]|e2] w2] eqn:H2.
  2:{ intros [= _ <-]. eapply Tr; [exact H1|]. eapply steps_ensure_kde, H2. }
  apply steps_ensure_kde in H2.
  unfold bind at 1. destruct (initial_values X p l1 l2 w2) as [[[a b]|e3] w3] eqn:H3.
  2:{ intros [= _ <-]. eapply Tr; [exact H1|]. eapply Tr; [exact H2|].
      eapply steps_initial_values, H3. }
  apply steps_initial_values in H3.
  unfold bind at 1. unfold preallocate. destruct (n <? 0).
  - intros [= _ <-]. eauto.
  - unfold bind, modify. simpl. done.
Qed.

(** X6: when a call of [sample] on a coherent sampler with its pool is
    interrupted ([KeyboardInterrupt], from the posterior, the density,
    the proposal or a fit), the sampler is left coherent: the four
    histories are as long as the iteration counter says, the rows
    allocated for the iterations that did not complete are gone; the
    failed batch is as it was, iterations completed before the
    interrupt stay counted, and there is a pool. *)
Theorem interrupt_rolls_back (X : Extern) p0 lnpost0 lnprop0 k ui w w' :
  coherent w -> pool_ok w ->
  sample X p0 lnpost0 lnprop0 k ui w = (Raise KeyboardInterrupt, w') ->
  coherent w' /\ pool_ok w' /\ failed_p w' = failed_p w /\
  (iterations (self w) <= iterations (self w'))%nat.
Proof.
  intros Hcoh Hpool. unfold sample. unfold bind at 1.
  destruct (sample_setup X p0 lnpost0 lnprop0 k w) as [[[[p a] b]|e] w1] eqn:Hs.
  - pose proof (sample_setup_extends X _ _ _ _ _ _ _ _ _ Hs) as (w0 & E & Hpre & _).
    apply preallocate_ok in Hpre
      as (_ & L1 & L2 & L3 & L4 & _ & _ & _ & _ & I1 & _ & F1 & P1 & G1 & _).
    destruct E as (C1 & C2 & C3 & C4 & I0 & F0 & P0 & G0 & _).
    destruct Hcoh as (Q1 & Q2 & Q3 & Q4).
    assert (covers w1) as Hcov.
    { unfold covers. rewrite L1, L2, L3, L4, I1, C1, C2, C3, C4, I0. lia. }
    assert (pool_ok w1) as Hpool1.
    { eapply pool_ok_config; [| |exact Hpool]; congruence. }
    unfold bind.
    destruct (sample_loop X (Z.to_nat k) ui p a b w1) as [[[]|e] w2] eqn:Hloop; [done|].
    intros [= -> <-].
    apply sample_loop_interrupted in Hloop as (R1 & R2 & R3 & R4); auto.
    split; [exact R1|]. split; [exact R2|]. split; [congruence|lia].
  - intros [= -> <-]. apply sample_setup_raises in Hs.
    destruct Hs as (C1 & C2 & C3 & C4 & I0 & F0 & P0 & G0 & _).
    destruct Hcoh as (Q1 & Q2 & Q3 & Q4).
    repeat apply conj; try congruence; try lia.
    eapply pool_ok_config; [| |exact Hpool]; congruence.
Qed.

(** The user interrupts the second of three iterations of a pooled
    sampler. *)
Lemma interrupt_rolls_back_witness :
  (coherent Demo.pooled /\ pool_ok Demo.pooled /\
   sample interrupted (Some 0%nat) None None 3 10 Demo.pooled
     = (Raise KeyboardInterrupt,
        snd (sample interrupted (Some 0%nat) None None 3 10 Demo.pooled))) /\
  let w' := snd (sample interrupted (Some 0%nat) None None 3 10 Demo.pooled) in
  coherent w' /\ pool_ok w' /\ failed_p w' = failed_p Demo.pooled /\
  (iterations (self Demo.pooled) <= iterations (self w'))%nat.
Proof.
  assert (coherent Demo.pooled) as Hc by (vm_compute; repeat split; reflexivity).
  assert (pool_ok Demo.pooled) as Hp by (right; discriminate).
  assert (sample interrupted (Some 0%nat) None None 3 10 Demo.pooled
          = (Raise KeyboardInterrupt,
             snd (sample interrupted (Some 0%nat) None None 3 10 Demo.pooled))) as H
    by (vm_compute; reflexivity).
  split; [auto|].
  exact (interrupt_rolls_back interrupted (Some 0%nat) None None 3 10 Demo.pooled _ Hc Hp H).
Defined.

(** The interrupted call, run: the first iteration stays, the failed
    batch is not set, the pool is a new one. *)
Example interrupted_run :
  let w' := snd (sample interrupted (Some 0%nat) None None 3 10 Demo.pooled) in
  iterations (self w') = 1%nat /\ length (chain w') = 1%nat /\ failed_p w' = None /\
  pool (self Demo.pooled) = Some 0%nat /\ pool (self w') = Some 23%nat.
Proof. vm_compute. repeat split; reflexivity. Qed.

(** ** Failures that [sample] does not roll back *)

(** An iteration whose draw from the proposal raises ends there. *)
Lemma mh_iteration_draw_fails (X : Extern) ui p a b w e w1 :
  draw X (nwalkers (self w)) w = (Raise e, w1) ->
  is_KeyboardInterrupt e = false ->
  mh_iteration X ui p a b w = (Raise e, w1).
Proof.
  intros Hdraw He. unfold mh_iteration, try_reraise at 1.
  unfold bind at 1, get_self at 1. unfold bind at 1. rewrite Hdraw. by rewrite He.
Qed.

(** X7: the handlers of [sample] roll back after a failing evaluation
    and after an interrupt, and after nothing else.  When the draw from
    the proposal raises anything but [KeyboardInterrupt] after [j] of
    the [k] iterations have completed, [sample] raises it and leaves
    all [k] allocated rows in the four histories while the counter has
    grown by [j]: the histories are longer than the counter says, the
    failed batch is as it was. *)
Theorem draw_failure_not_rolled_back
    (X : Extern) p0 lnpost0 lnprop0 k ui w p a b w1 j w2 e w3 :
  sample_setup X p0 lnpost0 lnprop0 k w = (Ok (p, a, b), w1) ->
  (j < Z.to_nat k)%nat ->
  sample_loop X j ui p a b w1 = (Ok tt, w2) ->
  draw X (nwalkers (self w2)) w2 = (Raise e, w3) ->
  is_KeyboardInterrupt e = false ->
  sample X p0 lnpost0 lnprop0 k ui w = (Raise e, w3) /\
  iterations (self w3) = (iterations (self w) + j)%nat /\
  length (chain w3) = (length (chain w) + Z.to_nat k)%nat /\
  length (lnpost w3) = (length (lnpost w) + Z.to_nat k)%nat /\
  length (lnprop w3) = (length (lnprop w) + Z.to_nat k)%nat /\
  length (acceptance w3) = (length (acceptance w) + Z.to_nat k)%nat /\
  failed_p w3 = failed_p w /\
  (coherent w -> (iterations (self w3) < length (chain w3))%nat).
Proof.
  intros Hsetup Hj Hloop Hdraw He.
  pose proof (sample_setup_extends X _ _ _ _ _ _ _ _ _ Hsetup) as (w0 & E & Hpre & _).
  apply preallocate_ok in Hpre
    as (_ & L1 & L2 & L3 & L4 & _ & _ & _ & _ & I1 & _ & F1 & _).
  destruct E as (C1 & C2 & C3 & C4 & I0 & F0 & _).
  pose proof (sample_loop_counts X _ _ _ _ _ _ _ Hloop) as (I2 & M1 & M2 & M3 & M4 & F2 & _).
  pose proof (draw_asks X _ _ _ _ Hdraw) as (S3 & _).
  assert (iterations (self w3) = (iterations (self w) + j)%nat) as Hi
    by (rewrite S3; congruence).
  assert (length (chain w3) = (length (chain w) + Z.to_nat k)%nat) as Hc
    by (unfold chain in *; rewrite S3; congruence).
  split.
  - unfold sample. unfold bind at 1. rewrite Hsetup.
    replace (Z.to_nat k) with (j + S (Z.to_nat k - S j))%nat by lia.
    unfold bind at 1. rewrite sample_loop_app. unfold bind at 1. rewrite Hloop.
    simpl. unfold bind at 1.
    by rewrite (mh_iteration_draw_fails X ui p a b w2 e w3 Hdraw He).
  - unfold lnpost, lnprop, acceptance, failed_p in *. rewrite S3.
    repeat apply conj; try congruence.
    intros (Q & _). unfold chain in *. lia.
Qed.

(** The proposal fails to draw in the second of three iterations. *)
Lemma draw_failure_not_rolled_back_witness :
  exists w1 w2 w3,
    (sample_setup broken_draw (Some 0%nat) None None 3 Demo.fresh
       = (Ok (1%nat, 0%nat, 1%nat), w1) /\
     (1 < Z.to_nat 3)%nat /\
     sample_loop broken_draw 1 10 1%nat 0%nat 1%nat w1 = (Ok tt, w2) /\
     draw broken_draw (nwalkers (self w2)) w2 = (Raise ValueError, w3) /\
     is_KeyboardInterrupt ValueError = false) /\
    sample broken_draw (Some 0%nat) None None 3 10 Demo.fresh = (Raise ValueError, w3) /\
    iterations (self w3) = (iterations (self Demo.fresh) + 1)%nat /\
    length (chain w3) = (length (chain Demo.fresh) + Z.to_nat 3)%nat /\
    length (lnpost w3) = (length (lnpost Demo.fresh) + Z.to_nat 3)%nat /\
    length (lnprop w3) = (length (lnprop Demo.fresh) + Z.to_nat 3)%nat /\
    length (acceptance w3) = (length (acceptance Demo.fresh) + Z.to_nat 3)%nat /\
    failed_p w3 = failed_p Demo.fresh /\
    (coherent Demo.fresh -> (iterations (self w3) < length (chain w3))%nat).
Proof.
  set (w1 := snd (sample_setup broken_draw (Some 0%nat) None None 3 Demo.fresh)).
  set (w2 := snd (sample_loop broken_draw 1 10 1%nat 0%nat 1%nat w1)).
  set (w3 := snd (draw broken_draw 3 w2)).
  assert (sample_setup broken_draw (Some 0%nat) None None 3 Demo.fresh
          = (Ok (1%nat, 0%nat, 1%nat), w1)) as H1 by (vm_compute; reflexivity).
  assert (1 < Z.to_nat 3)%nat as Hj by (vm_compute; lia).
  assert (sample_loop broken_draw 1 10 1%nat 0%nat 1%nat w1 = (Ok tt, w2)) as H2
    by (vm_compute; reflexivity).
  assert (draw broken_draw (nwalkers (self w2)) w2 = (Raise ValueError, w3)) as H3
    by (vm_compute; reflexivity).
  exists w1, w2, w3. split; [auto 10|].
  exact (draw_failure_not_rolled_back broken_draw (Some 0%nat) None None 3 10 Demo.fresh
           1%nat 0%nat 1%nat w1 1%nat w2 ValueError w3 H1 Hj H2 H3 eq_refl).
Defined.

(** X8: with [update_interval = 0] the test [iterations % update_interval]
    divides by zero at the end of the first iteration: a call of
    [sample] that returns was asked for no iteration. *)
Theorem zero_update_interval (X : Extern) p0 lnpost0 lnprop0 k w r w' :
  sample X p0 lnpost0 lnprop0 k 0 w = (Ok r, w') -> k = 0.
Proof.
  intros H.
  pose proof (sample_ok_lengths X _ _ _ _ _ _ _ _ H) as (Hk & _).
  revert H. unfold sample. unfold bind at 1.
  destruct (sample_setup X p0 lnpost0 lnprop0 k w) as [[[[p a] b]|e] w1]; [|done].
  unfold bind at 1.
  destruct (Z.to_nat k) as [|n] eqn:Hn; [lia|].
  simpl. unfold bind at 1.
  destruct (mh_iteration X 0 p a b w1) as [[[]|e] w2] eqn:Hit; [|done].
  apply mh_iteration_ok in Hit
    as (? & ? & ? & ? & ? & ? & ? & ? & ? & w5 & _ & _ & _ & _ & _ & _ & Hrefit).
  rewrite refit_run in Hrefit. done.
Qed.

(** A call for no iteration returns, whatever the update interval. *)
Lemma zero_update_interval_witness :
  sample (Demo.env None) (Some 0%nat) None None 0 0 Demo.fresh
    = (Ok (1%nat, 0%nat, 1%nat),
       snd (sample (Demo.env None) (Some 0%nat) None None 0 0 Demo.fresh)) /\
  0 = 0.
Proof.
  assert (sample (Demo.env None) (Some 0%nat) None None 0 0 Demo.fresh
          = (Ok (1%nat, 0%nat, 1%nat),
             snd (sample (Demo.env None) (Some 0%nat) None None 0 0 Demo.fresh))) as H
    by (vm_compute; reflexivity).
  split; [exact H|].
  exact (zero_update_interval (Demo.env None) (Some 0%nat) None None 0 Demo.fresh _ _ H).
Defined.

(** One iteration with [update_interval = 0]: the iteration is counted,
    then the division raises. *)
Example zero_update_interval_run :
  let '(r, w') := sample (Demo.env None) (Some 0%nat) None None 2 0 Demo.fresh in
  r = Raise ZeroDivisionError /\ iterations (self w') = 1%nat /\ length (chain w') = 2%nat.
Proof. vm_compute. repeat split; reflexivity. Qed.

(** ** Before the loop of [sample] *)

(** X9: when [sample] fails before its loop (lines 204-235: the draw of
    start positions, the first fit of the proposal, the evaluation of
    the start positions, the allocation of the rows), it raises the
    error with the four histories, the iteration counter, the failed
    batch, the pool and the settings as they were; arrays and questions
    to the outside may have been added, but no pool was closed or
    opened. *)
Theorem failure_before_loop_changes_nothing (X : Extern) p0 lnpost0 lnprop0 k ui w e w1 :
  sample_setup X p0 lnpost0 lnprop0 k w = (Raise e, w1) ->
  sample X p0 lnpost0 lnprop0 k ui w = (Raise e, w1) /\
  chain w1 = chain w /\ lnpost w1 = lnpost w /\ lnprop w1 = lnprop w /\
  acceptance w1 = acceptance w /\
  iterations (self w1) = iterations (self w) /\
  failed_p w1 = failed_p w /\ pool (self w1) = pool (self w) /\
  config (self w1) = config (self w) /\
  (exists l, mats w1 = mats w ++ l) /\
  (exists l, vecs w1 = vecs w ++ l) /\
  (exists evs, trace w1 = trace w ++ evs /\ forallb no_pool evs = true).
Proof.
  intros H. split.
  - unfold sample. unfold bind at 1. by rewrite H.
  - exact (sample_setup_raises X _ _ _ _ _ _ _ H).
Qed.

(** A call for a negative number of iterations fails at the allocation. *)
Lemma failure_before_loop_changes_nothing_witness :
  sample_setup (Demo.env None) (Some 0%nat) None None (-1) Demo.fresh
    = (Raise ValueError, snd (sample_setup (Demo.env None) (Some 0%nat) None None (-1) Demo.fresh)) /\
  let w1 := snd (sample_setup (Demo.env None) (Some 0%nat) None None (-1) Demo.fresh) in
  sample (Demo.env None) (Some 0%nat) None None (-1) 10 Demo.fresh = (Raise ValueError, w1) /\
  chain w1 = chain Demo.fresh /\ lnpost w1 = lnpost Demo.fresh /\
  lnprop w1 = lnprop Demo.fresh /\ acceptance w1 = acceptance Demo.fresh /\
  iterations (self w1) = iterations (self Demo.fresh) /\
  failed_p w1 = failed_p Demo.fresh /\ pool (self w1) = pool (self Demo.fresh) /\
  config (self w1) = config (self Demo.fresh) /\
  (exists l, mats w1 = mats Demo.fresh ++ l) /\
  (exists l, vecs w1 = vecs Demo.fresh ++ l) /\
  (exists evs, trace w1 = trace Demo.fresh ++ evs /\ forallb no_pool evs = true).
Proof.
  assert (sample_setup (Demo.env None) (Some 0%nat) None None (-1) Demo.fresh
          = (Raise ValueError,
             snd (sample_setup (Demo.env None) (Some 0%nat) None None (-1) Demo.fresh))) as H
    by (vm_compute; reflexivity).
  split; [exact H|].
  exact (failure_before_loop_changes_nothing (Demo.env None) (Some 0%nat) None None (-1) 10
           Demo.fresh ValueError _ H).
Defined.

(** A call for a negative number of iterations raises before its loop. *)
Lemma sample_negative (X : Extern) p0 l1 l2 k ui w :
  k < 0 ->
  exists e w', sample X p0 l1 l2 k ui w = (Raise e, w') /\ extends w w'.
Proof.
  intros Hk. unfold sample. unfold bind at 1.
  destruct (sample_setup X p0 l1 l2 k w) as [[[[p a] b]|e] w1] eqn:Hs.
  - apply sample_setup_ok in Hs as (? & ? & w3 & _ & _ & _ & Hpre).
    apply preallocate_ok in Hpre as (? & _). lia.
  - exists e, w1. split; [done|]. exact (sample_setup_raises X _ _ _ _ _ _ _ Hs).
Qed.

(** X10: [sample] called for a negative number of iterations never
    returns: it raises and leaves the four histories and the iteration
    counter as they were; when the start positions, the proposal and the
    start values are obtained, the error is the [ValueError] of the
    allocation of the rows. *)
Theorem negative_iterations_raise (X : Extern) p0 lnpost0 lnprop0 k ui w :
  k < 0 ->
  exists e w',
    sample X p0 lnpost0 lnprop0 k ui w = (Raise e, w') /\
    chain w' = chain w /\ lnpost w' = lnpost w /\ lnprop w' = lnprop w /\
    acceptance w' = acceptance w /\ iterations (self w') = iterations (self w) /\
    (forall p a b w1 w2 w3,
       initial_positions X p0 w = (Ok p, w1) ->
       ensure_kde X p w1 = (Ok tt, w2) ->
       initial_values X p lnpost0 lnprop0 w2 = (Ok (a, b), w3) ->
       e = ValueError).
Proof.
  intros Hk.
  destruct (sample_negative X p0 lnpost0 lnprop0 k ui w Hk) as (e & w' & Hrun & E).
  exists e, w'. split; [exact Hrun|].
  destruct E as (C1 & C2 & C3 & C4 & I & _).
  do 5 (split; [assumption|]).
  intros p a b w1 w2 w3 H1 H2 H3.
  revert Hrun. unfold sample, sample_setup.
  unfold bind at 1. unfold bind at 1. rewrite H1.
  unfold bind at 1. rewrite H2.
  unfold bind at 1. rewrite H3.
  unfold bind at 1. unfold preallocate.
  destruct (Z.ltb_spec k 0); [|lia]. by intros [= <- _].
Qed.

Lemma negative_iterations_raise_witness :
  -2 < 0 /\
  exists e w',
    sample (Demo.env None) (Some 0%nat) None None (-2) 10 Demo.fresh = (Raise e, w') /\
    chain w' = chain Demo.fresh /\ lnpost w' = lnpost Demo.fresh /\
    lnprop w' = lnprop Demo.fresh /\
    acceptance w' = acceptance Demo.fresh /\
    iterations (self w') = iterations (self Demo.fresh) /\
    (forall p a b w1 w2 w3,
       initial_positions (Demo.env None) (Some 0%nat) Demo.fresh = (Ok p, w1) ->
       ensure_kde (Demo.env None) p w1 = (Ok tt, w2) ->
       initial_values (Demo.env None) p None None w2 = (Ok (a, b), w3) ->
       e = ValueError).
Proof.
  assert (-2 < 0) as H by lia.
  split; [exact H|].
  exact (negative_iterations_raise (Demo.env None) (Some 0%nat) None None (-2) 10 Demo.fresh H).
Defined.

(** X11: [sample(iterations=0)] that returns has left the four
    histories, the iteration counter, the failed batch and the pool as
    they were, whatever the update interval; the positions it returns
    are a new array, equal to the start positions given. *)
Theorem sample_zero_iterations (X : Extern) p0 lnpost0 lnprop0 ui w p a b w' :
  sample X p0 lnpost0 lnprop0 0 ui w = (Ok (p, a, b), w') ->
  chain w' = chain w /\ lnpost w' = lnpost w /\ lnprop w' = lnprop w /\
  acceptance w' = acceptance w /\ iterations (self w') = iterations (self w) /\
  failed_p w' = failed_p w /\ pool (self w') = pool (self w) /\
  p = length (mats w) /\ (p < length (mats w'))%nat /\
  (forall r, p0 = Some r -> mat_at w' p = mat_at w r).
Proof.
  unfold sample. unfold bind at 1.
  destruct (sample_setup X p0 lnpost0 lnprop0 0 w) as [[[[p' a'] b']|e] w1] eqn:Hs; [|done].
  simpl. unfold bind, ret. intros [= <- <- <- <-].
  apply sample_setup_extends in Hs as (w3 & E & Hpre & Hp & Hlt & Hm & _).
  apply preallocate_ok in Hpre
    as (_ & L1 & L2 & L3 & L4 & T1 & T2 & T3 & T4 & I1 & _ & F1 & P1 & _ & _ & M1 & _).
  destruct E as (C1 & C2 & C3 & C4 & I0 & F0 & P0 & _).
  rewrite take_ge in T1 by lia. rewrite take_ge in T2 by lia.
  rewrite take_ge in T3 by lia. rewrite take_ge in T4 by lia.
  repeat apply conj; try congruence.
  intros r ->. unfold mat_at in *. by rewrite M1.
Qed.

Lemma sample_zero_iterations_witness :
  sample (Demo.env None) (Some 0%nat) None None 0 10 Demo.fresh
    = (Ok (1%nat, 0%nat, 1%nat),
       snd (sample (Demo.env None) (Some 0%nat) None None 0 10 Demo.fresh)) /\
  let w' := snd (sample (Demo.env None) (Some 0%nat) None None 0 10 Demo.fresh) in
  chain w' = chain Demo.fresh /\ lnpost w' = lnpost Demo.fresh /\
  lnprop w' = lnprop Demo.fresh /\
  acceptance w' = acceptance Demo.fresh /\
  iterations (self w') = iterations (self Demo.fresh) /\
  failed_p w' = failed_p Demo.fresh /\ pool (self w') = pool (self Demo.fresh) /\
  1%nat = length (mats Demo.fresh) /\ (1 < length (mats w'))%nat /\
  (forall r, Some 0%nat = Some r -> mat_at w' 1%nat = mat_at Demo.fresh r).
Proof.
  assert (sample (Demo.env None) (Some 0%nat) None None 0 10 Demo.fresh
          = (Ok (1%nat, 0%nat, 1%nat),
             snd (sample (Demo.env None) (Some 0%nat) None None 0 10 Demo.fresh))) as H
    by (vm_compute; reflexivity).
  split; [exact H|].
  exact (sample_zero_iterations (Demo.env None) (Some 0%nat) None None 10 Demo.fresh
           1%nat 0%nat 1%nat _ H).
Defined.

(** X12: [sample] called without start positions before any proposal
    exists raises [AttributeError], the draw from the missing proposal,
    and changes nothing. *)
Theorem sample_without_proposal (X : Extern) lnpost0 lnprop0 k ui w :
  _kde (self w) = None ->
  sample X None lnpost0 lnprop0 k ui w = (Raise AttributeError, w).
Proof.
  intros Hk. unfold sample, sample_setup, initial_positions.
  unfold bind at 1. unfold bind at 1. unfold bind at 1. unfold get_self at 1.
  unfold bind at 1. rewrite draw_run, Hk. done.
Qed.

Lemma sample_without_proposal_witness :
  _kde (self Demo.fresh) = None /\
  sample (Demo.env None) None None None 5 10 Demo.fresh = (Raise AttributeError, Demo.fresh).
Proof.
  assert (_kde (self Demo.fresh) = None) as H by reflexivity.
  split; [exact H|].
  exact (sample_without_proposal (Demo.env None) None None 5 10 Demo.fresh H).
Defined.

(** ** The rows that the iterations write *)




(** The rows that a completed iteration commits, and where the
    positions it commits come from. *)
Lemma mh_iteration_rows (X : Extern) ui p a b w w' :
  mh_iteration X ui p a b w = (Ok tt, w') ->
  let i := iterations (self w) in
  exists p_p acc w1,
    draw X (nwalkers (self w)) w = (Ok p_p, w1) /\
    iterations (self w') = S i /\
    (i < length (chain w))%nat /\ (i < length (lnpost w))%nat /\
    (i < length (lnprop w))%nat /\ (i < length (acceptance w))%nat /\
    chain w' = <[i := mat_at w' p]> (chain w) /\
    lnpost w' = <[i := vec_at w' a]> (lnpost w) /\
    lnprop w' = <[i := vec_at w' b]> (lnprop w) /\
    acceptance w' = <[i := map of_bool acc]> (acceptance w) /\
    ((p < length (mats w))%nat -> (a < length (vecs w))%nat -> (b < length (vecs w))%nat ->
     forall j, mat_at w' p !! j
               = match acc !! j with Some true => p_p !! j | _ => mat_at w p !! j end).
Proof.
  intros H i.
  apply mh_iteration_ok in H
    as (p_p & lp & lq & ratio & acc & w1 & w2 & w3 & w4 & w5 &
        Hdraw & Heval & Hratio & Hacc & Hupd & Hstore & Hrefit).
  exists p_p, acc, w1. split; [exact Hdraw|].
  pose proof (asks_only_trans _ _ _ (asks_only_trans _ _ _ (draw_asks X _ _ _ _ Hdraw)
                (evaluate_asks X _ _ _ _ Heval)) (accept_asks X _ _ _ _ Hacc))
    as (S3 & V3 & M3 & _).
  pose proof (update_frame _ _ _ _ _ _ _ _ _ _ Hupd) as (S4 & _).
  assert (self w4 = self w) as S by congruence.
  pose proof (store_ok _ _ _ _ _ _ Hstore)
    as (I5 & B1 & B2 & B3 & B4 & R1 & R2 & R3 & R4 & _ & _ & _ & _ & _ & V5 & M5 & _).
  simpl in *.
  apply refit_any in Hrefit as (C1 & C2 & C3 & C4 & I6 & _ & _ & _ & V6 & M6).
  assert (mat_at w' p = mat_at w4 p) as Em by (unfold mat_at; by rewrite M6, M5).
  assert (vec_at w' a = vec_at w4 a) as Ea by (unfold vec_at; by rewrite V6, V5).
  assert (vec_at w' b = vec_at w4 b) as Eb by (unfold vec_at; by rewrite V6, V5).
  unfold chain, lnpost, lnprop, acceptance in *. rewrite S in *. fold i in I5, R1, R2, R3, R4.
  rewrite I6, C1, C2, C3, C4, Em, Ea, Eb.
  do 9 (split; [assumption|]).
  intros Hp Ha Hb j.
  destruct (update_ok _ _ _ _ _ _ _ _ _ Hupd) with (j := j) as (Hj & _); try congruence.
  rewrite Hj. unfold mat_at. by rewrite M3.
Qed.

(** X13: when [sample] has run at least one iteration and returns, the
    last committed row of [chain], [lnpost] and [lnprop] holds the very
    positions and log-values it returns. *)
Theorem last_row_is_returned_state (X : Extern) p0 lnpost0 lnprop0 k ui w p a b w' :
  0 < k ->
  sample X p0 lnpost0 lnprop0 k ui w = (Ok (p, a, b), w') ->
  exists i,
    iterations (self w') = S i /\
    chain w' !! i = Some (mat_at w' p) /\
    lnpost w' !! i = Some (vec_at w' a) /\
    lnprop w' !! i = Some (vec_at w' b).
Proof.
  intros Hk. unfold sample. unfold bind at 1.
  destruct (sample_setup X p0 lnpost0 lnprop0 k w) as [[[[p' a'] b']|e] w1]; [|done].
  unfold bind at 1.
  replace (Z.to_nat k) with (Z.to_nat k - 1 + 1)%nat by lia.
  rewrite sample_loop_app. unfold bind at 1.
  destruct (sample_loop X (Z.to_nat k - 1) ui p' a' b' w1) as [[[]|e] w2]; [|done].
  simpl. unfold bind at 1.
  destruct (mh_iteration X ui p' a' b' w2) as [[[]|e] w3] eqn:Hit; [|done].
  simpl. unfold bind, ret. intros [= <- <- <- <-].
  apply mh_iteration_rows in Hit
    as (_ & _ & _ & _ & I & B1 & B2 & B3 & _ & -> & -> & -> & _).
  exists (iterations (self w2)). split; [exact I|].
  rewrite !list_lookup_insert_eq by assumption. done.
Qed.

Lemma last_row_is_returned_state_witness :
  (0 < 2 /\
   sample (Demo.env None) (Some 0%nat) None None 2 10 Demo.fresh
     = (Ok (1%nat, 0%nat, 1%nat), two_steps)) /\
  exists i,
    iterations (self two_steps) = S i /\
    chain two_steps !! i = Some (mat_at two_steps 1%nat) /\
    lnpost two_steps !! i = Some (vec_at two_steps 0%nat) /\
    lnprop two_steps !! i = Some (vec_at two_steps 1%nat).
Proof.
  assert (0 < 2) as Hk by lia.
  assert (sample (Demo.env None) (Some 0%nat) None None 2 10 Demo.fresh
          = (Ok (1%nat, 0%nat, 1%nat), two_steps)) as H by (vm_compute; reflexivity).
  split; [auto|].
  exact (last_row_is_returned_state (Demo.env None) (Some 0%nat) None None 2 10 Demo.fresh
           1%nat 0%nat 1%nat two_steps Hk H).
Defined.



(** The two rows of the witness: in the second iteration the first
    walker alone moves. *)
Example two_rows :
  chain two_steps = [[[0]; [3]; [-2]]; [[1]; [3]; [-2]]]%float /\
  acceptance two_steps = [[1; 1; 0]; [1; 0; 0]]%float.
Proof. vm_compute. split; reflexivity. Qed.

(** ** The shapes of the histories *)

Lemma set_row_shape {A} ok (a a' : list A) i row :
  set_row ok a i row = Ok a' -> ok = true /\ a' = <[i := row]> a.
Proof.
  unfold set_row. destruct (i <? length a)%nat; [|done]. destruct ok; [|done].
  by intros [= <-].
Qed.

Lemma has_shape2_zeros n d : has_shape2 n d (replicate n (replicate d 0%float)) = true.
Proof.
  unfold has_shape2. rewrite length_replicate, Nat.eqb_refl. simpl.
  generalize n at 1. intros m. induction m as [|m IH]; simpl; [done|].
  by rewrite length_replicate, Nat.eqb_refl.
Qed.

Lemma binary_of_bool acc : binary (map of_bool acc).
Proof.
  unfold binary. induction acc as [|[] acc IH]; simpl; constructor; auto.
Qed.

Lemma binary_zeros n : binary (replicate n 0%float).
Proof. apply Forall_replicate. by left. Qed.

(** The shapes depend on the settings and the histories alone. *)
Lemma shaped_same w w' :
  config (self w') = config (self w) ->
  chain w' = chain w -> lnpost w' = lnpost w -> lnprop w' = lnprop w ->
  acceptance w' = acceptance w ->
  shaped w -> shaped w'.
Proof.
  unfold shaped, config. intros [= -> -> _] -> -> -> ->. done.
Qed.

Lemma shaped_same_self w w' : self w' = self w -> shaped w -> shaped w'.
Proof. unfold shaped, chain, lnpost, lnprop, acceptance. by intros ->. Qed.

Lemma extends_keeps_shaped w w' : extends w w' -> keeps_shaped w w'.
Proof.
  intros (C1 & C2 & C3 & C4 & _ & _ & _ & G & _). unfold keeps_shaped. by apply shaped_same.
Qed.

Lemma asks_only_keeps_shaped w w' : asks_only w w' -> keeps_shaped w w'.
Proof. intros (S & _). unfold keeps_shaped. by apply shaped_same_self. Qed.

Lemma rollback_keeps_shaped k w r w' : rollback k w = (r, w') -> keeps_shaped w w'.
Proof.
  intros H (S1 & S2 & S3 & S4).
  apply rollback_any in H as (C1 & C2 & C3 & C4 & _ & _ & _ & G & _).
  unfold shaped, config in *. injection G as -> -> _.
  rewrite C1, C2, C3, C4. unfold slice_to.
  repeat apply conj; by apply Forall_take.
Qed.

Lemma preallocate_keeps_shaped n w r w' : preallocate n w = (r, w') -> keeps_shaped w w'.
Proof.
  unfold preallocate. destruct (n <? 0); [intros [= _ <-] H; exact H|].
  unfold bind, modify. simpl. intros [= _ <-] (S1 & S2 & S3 & S4).
  unfold shaped, chain, lnpost, lnprop, acceptance in *. simpl.
  repeat apply conj; apply Forall_app; (split; [assumption|]); apply Forall_replicate.
  - apply has_shape2_zeros.
  - apply length_replicate.
  - apply length_replicate.
  - split; [apply length_replicate|apply binary_zeros].
Qed.

(** [store] writes rows of the shapes of the histories, or raises. *)
Lemma store_keeps_shaped acc p a b w r w' :
  store acc p a b w = (r, w') -> keeps_shaped w w'.
Proof.
  intros H (S1 & S2 & S3 & S4). revert H.
  unfold store, bind, get_self, read_mat, read_vec, lift, modify, shaped,
    chain, lnpost, lnprop, acceptance in *. simpl.
  destruct (set_row _ (_chain (self w)) _ _) as [c|] eqn:Hc; simpl.
  2:{ by intros [= _ <-]. }
  apply set_row_shape in Hc as (O1 & ->).
  pose proof (Forall_insert _ _ (iterations (self w)) _ S1 O1) as T1.
  destruct (set_row _ (_lnpost (self w)) _ _) as [h1|] eqn:H1; simpl.
  2:{ by intros [= _ <-]. }
  apply set_row_shape in H1 as (O2 & ->).
  apply Nat.eqb_eq in O2.
  pose proof (Forall_insert _ _ (iterations (self w)) _ S2 O2) as T2.
  destruct (set_row _ (_lnprop (self w)) _ _) as [h2|] eqn:H2; simpl.
  2:{ by intros [= _ <-]. }
  apply set_row_shape in H2 as (O3 & ->).
  apply Nat.eqb_eq in O3.
  pose proof (Forall_insert _ _ (iterations (self w)) _ S3 O3) as T3.
  destruct (set_row _ (_acceptance (self w)) _ _) as [h3|] eqn:H3; simpl.
  2:{ by intros [= _ <-]. }
  apply set_row_shape in H3 as (O4 & ->).
  apply Nat.eqb_eq in O4.
  intros [= _ <-]. simpl. repeat apply conj; try assumption.
  apply Forall_insert; [assumption|]. split.
  - by rewrite length_map.
  - apply binary_of_bool.
Qed.

Section Shapes.
Context (X : Extern).

Let Rf : forall w, keeps_shaped w w := fun w H => H.
Let Tr : forall w1 w2 w3, keeps_shaped w1 w2 -> keeps_shaped w2 w3 -> keeps_shaped w1 w3 :=
  fun w1 w2 w3 H1 H2 H => H2 (H1 H).

Lemma steps_rollback_counter_shaped :
  steps keeps_shaped (let* s := get_self in rollback (Z.of_nat (iterations s))).
Proof.
  intros w r w'. unfold bind, get_self. simpl. apply rollback_keeps_shaped.
Qed.

Lemma steps_on_evaluation_error_shaped p_p : steps keeps_shaped (on_evaluation_error p_p).
Proof.
  intros w r w'. unfold on_evaluation_error, bind, get_self. simpl.
  destruct (rollback (Z.of_nat (iterations (self w))) w) as [[[]|e] w1] eqn:E; simpl.
  - intros [= _ <-] H. apply (rollback_keeps_shaped _ _ _ _ E) in H. exact H.
  - intros [= _ <-]. eapply rollback_keeps_shaped, E.
Qed.

Lemma steps_mh_iteration_shaped ui p a b : steps keeps_shaped (mh_iteration X ui p a b).
Proof.
  unfold mh_iteration.
  apply (steps_try_reraise _ Tr); [|apply steps_rollback_counter_shaped].
  apply (steps_bind _ Tr); [apply (steps_get_self _ Rf)|]. intros s.
  apply (steps_bind _ Tr).
  { intros w r w' H. eapply asks_only_keeps_shaped, draw_asks, H. }
  intros p_p. apply (steps_bind _ Tr).
  { apply (steps_try_reraise _ Tr); [|apply steps_on_evaluation_error_shaped].
    intros w r w' H. eapply asks_only_keeps_shaped, evaluate_asks, H. }
  intros [lp lq].
  apply (steps_bind _ Tr); [apply (steps_read_vec _ Rf)|]. intros lv.
  apply (steps_bind _ Tr); [apply (steps_read_vec _ Rf)|]. intros qv.
  apply (steps_bind _ Tr); [apply (steps_lift _ Rf)|]. intros ratio.
  apply (steps_bind _ Tr).
  { intros w r w' H. eapply asks_only_keeps_shaped, accept_asks, H. }
  intros acc. apply (steps_bind _ Tr).
  { intros w r w' H. apply update_frame in H as (S & _).
    unfold keeps_shaped. by apply shaped_same_self. }
  intros _. apply (steps_bind _ Tr).
  { intros w r w' H. eapply store_keeps_shaped, H. }
  intros _ w r w' H.
  apply refit_any in H as (C1 & C2 & C3 & C4 & _ & _ & _ & G & _).
  unfold keeps_shaped. by apply shaped_same.
Qed.

Lemma steps_sample_loop_shaped n ui p a b : steps keeps_shaped (sample_loop X n ui p a b).
Proof.
  induction n as [|n IH]; simpl.
  - apply (steps_ret _ Rf).
  - apply (steps_bind _ Tr); [apply steps_mh_iteration_shaped|]. intros _. exact IH.
Qed.

Lemma steps_sample_setup_shaped p0 l1 l2 n : steps keeps_shaped (sample_setup X p0 l1 l2 n).
Proof.
  unfold sample_setup.
  apply (steps_bind _ Tr).
  { intros w r w' H. eapply extends_keeps_shaped, steps_initial_positions, H. }
  intros p. apply (steps_bind _ Tr).
  { intros w r w' H. eapply extends_keeps_shaped, steps_ensure_kde, H. }
  intros _. apply (steps_bind _ Tr).
  { intros w r w' H. eapply extends_keeps_shaped, steps_initial_values, H. }
  intros [a b]. apply (steps_bind _ Tr); [|intros _; apply (steps_ret _ Rf)].
  intros w r w' H. eapply preallocate_keeps_shaped, H.
Qed.
End Shapes.

(** X15: however a call of [sample] ends, it keeps the shapes that the
    docstrings of the accessors give: every row of [chain] has
    [nwalkers] positions of [dim] coordinates, every row of [lnpost],
    [lnprop] and [acceptance] has [nwalkers] entries, and the entries
    of [acceptance] are zeros and ones.  The empty histories of
    [__init__] have these shapes. *)
Theorem sample_keeps_shapes (X : Extern) p0 lnpost0 lnprop0 k ui w r w' :
  shaped w ->
  sample X p0 lnpost0 lnprop0 k ui w = (r, w') ->
  shaped w'.
Proof.
  intros Hs. unfold sample. unfold bind at 1.
  destruct (sample_setup X p0 lnpost0 lnprop0 k w) as [[[[p a] b]|e] w1] eqn:Hsetup.
  - apply steps_sample_setup_shaped in Hsetup. unfold bind.
    destruct (sample_loop X (Z.to_nat k) ui p a b w1) as [[[]|e] w2] eqn:Hloop;
      intros [= _ <-]; apply steps_sample_loop_shaped in Hloop; auto.
  - intros [= _ <-]. by apply (steps_sample_setup_shaped X _ _ _ _ _ _ _ Hsetup).
Qed.

Lemma sample_keeps_shapes_witness :
  (shaped Demo.fresh /\
   sample (Demo.env None) (Some 0%nat) None None 2 10 Demo.fresh
     = (Ok (1%nat, 0%nat, 1%nat), two_steps)) /\
  shaped two_steps.
Proof.
  assert (shaped Demo.fresh) as Hs by (vm_compute; repeat split; constructor).
  assert (sample (Demo.env None) (Some 0%nat) None None 2 10 Demo.fresh
          = (Ok (1%nat, 0%nat, 1%nat), two_steps)) as H by (vm_compute; reflexivity).
  split; [auto|].
  exact (sample_keeps_shapes (Demo.env None) (Some 0%nat) None None 2 10 Demo.fresh _ _ Hs H).
Defined.

(** ** [burnin]: its first window, its returns *)

(** [sample] asked for no iteration only sets up. *)
Lemma sample_zero_extends (X : Extern) p0 l1 l2 ui w r w' :
  sample X p0 l1 l2 0 ui w = (r, w') -> extends w w'.
Proof.
  unfold sample. unfold bind at 1.
  destruct (sample_setup X p0 l1 l2 0 w) as [[[[p a] b]|e] w1] eqn:Hs.
  - simpl. unfold bind, ret. intros [= _ <-].
    apply sample_setup_extends in Hs as (w3 & E & Hpre & _).
    apply preallocate_ok in Hpre
      as (_ & L1 & L2 & L3 & L4 & T1 & T2 & T3 & T4 & I1 & _ & F1 & P1 & G1 & V1 & M1 & R1).
    rewrite take_ge in T1 by lia. rewrite take_ge in T2 by lia.
    rewrite take_ge in T3 by lia. rewrite take_ge in T4 by lia.
    eapply extends_trans; [exact E|].
    unfold extends. rewrite V1, M1, R1.
    repeat apply conj; try done; exists []; by rewrite app_nil_r.
  - intros [= _ <-]. exact (sample_setup_raises X _ _ _ _ _ _ _ Hs).
Qed.

Section BurninReturns.
Context (X : Extern).

(** Once a window has run, the loop has bound [p], [lnpost], [lnprop]. *)
Lemma burnin_loop_last fuel ui max_iter test_interval p0 l1 l2 t0 w b last w' :
  burnin_loop X fuel ui max_iter test_interval p0 l1 l2 (Some t0) w = Some (Ok (b, last), w') ->
  exists t, last = Some t.
Proof.
  revert test_interval p0 l1 l2 t0 w.
  induction fuel as [|fuel IH]; intros ti p0 l1 l2 t0 w; [done|]. simpl.
  destruct (exceeds _ max_iter); [intros [= _ <- _]; eauto|].
  match goal with |- context [sample X ?q l1 l2 ti ui w] =>
    destruct (sample X q l1 l2 ti ui w) as [[[[p a] c]|e] w1] end; [|done].
  destruct (ks_pass X _ _ _) as [[]|e]; [intros [= _ <- _]; eauto| |done].
  destruct (next_test_interval (self w1)) as [ti'|e]; [|done].
  apply IH.
Qed.

(** The loop reports success only after a passed test. *)
Lemma burnin_loop_success fuel ui max_iter test_interval p0 l1 l2 last w t w' :
  burnin_loop X fuel ui max_iter test_interval p0 l1 l2 last w = Some (Ok (true, Some t), w') ->
  exists q, ks_pass X (seq 0 (dim (self w'))) (mat_at w' q) (mat_at w' (fst (fst t))) = Ok true.
Proof.
  revert test_interval p0 l1 l2 last w.
  induction fuel as [|fuel IH]; intros ti p0 l1 l2 last w; [done|]. simpl.
  destruct (exceeds _ max_iter); [done|].
  match goal with |- context [sample X ?q l1 l2 ti ui w] =>
    destruct (sample X q l1 l2 ti ui w) as [[[[p a] c]|e] w1] end; [|done].
  destruct (ks_pass X _ _ _) as [[]|e] eqn:Hks; [| |done].
  - intros [= <- <-]. by exists p0.
  - destruct (next_test_interval (self w1)) as [ti'|e]; [|done]. apply IH.
Qed.

(** Without a budget the loop never gives up. *)
Lemma burnin_loop_no_budget fuel ui test_interval p0 l1 l2 last w b out w' :
  burnin_loop X fuel ui None test_interval p0 l1 l2 last w = Some (Ok (b, out), w') ->
  b = true.
Proof.
  revert test_interval p0 l1 l2 last w.
  induction fuel as [|fuel IH]; intros ti p0 l1 l2 last w; [done|]. simpl.
  match goal with |- context [sample X ?q l1 l2 ti ui w] =>
    destruct (sample X q l1 l2 ti ui w) as [[[[p a] c]|e] w1] end; [|done].
  destruct (ks_pass X _ _ _) as [[]|e]; [by intros [= <- _ _]| |done].
  destruct (next_test_interval (self w1)) as [ti'|e]; [|done].
  apply IH.
Qed.

(** The first window fits every budget. *)
Lemma first_window_fits (n ui : Z) max_steps :
  exceeds (n + match max_steps with None => ui | Some ms => Z.min ui ms end)
          (option_map (fun ms => n + ms) max_steps) = false.
Proof.
  destruct max_steps as [ms|]; simpl; [|done]. apply Z.ltb_ge. lia.
Qed.
End BurninReturns.

(** X16: [burnin] called without [max_steps] never gives up: when it
    returns, its loop has ended on a passed test, nothing is printed
    after it, and the ensemble returned passed the test against the
    ensemble that its last window started from. *)
Theorem burnin_without_budget_never_gives_up
    (X : Extern) fuel p0 lnpost0 lnprop0 ui w t w' :
  burnin X fuel p0 lnpost0 lnprop0 ui None w = Some (Ok t, w') ->
  exists p0' w0,
    burnin_entry p0 ui None w = (Ok (p0', None, ui), w0) /\
    burnin_loop X fuel ui None ui p0' lnpost0 lnprop0 None w0 = Some (Ok (true, Some t), w') /\
    exists q,
      ks_pass X (seq 0 (dim (self w'))) (mat_at w' q) (mat_at w' (fst (fst t))) = Ok true.
Proof.
  unfold burnin.
  set (w0 := mkWorld (self w) (vecs w) (mats w ++ [mat_at w p0]) (trace w)).
  assert (burnin_entry p0 ui None w = (Ok (length (mats w), None, ui), w0)) as -> by reflexivity.
  destruct (burnin_loop X fuel ui None ui (length (mats w)) lnpost0 lnprop0 None w0)
    as [[[[b last]|e] w1]|] eqn:Hloop; [|done|done].
  pose proof (burnin_loop_no_budget X _ _ _ _ _ _ _ _ _ _ _ Hloop) as ->.
  unfold burnin_exit, bind, ret. simpl. destruct last as [t'|]; [|done].
  intros [= <- <-].
  exists (length (mats w)), w0. split; [done|]. split; [done|].
  exact (burnin_loop_success X _ _ _ _ _ _ _ _ _ _ _ Hloop).
Qed.

(** A burn-in without budget whose first window of two iterations
    passes the test. *)
Lemma burnin_without_budget_never_gives_up_witness :
  exists w',
    burnin (Demo.env None) 3 0%nat None None 2 None Demo.fresh
      = Some (Ok (2%nat, 0%nat, 1%nat), w') /\
    exists p0' w0,
      burnin_entry 0%nat 2 None Demo.fresh = (Ok (p0', None, 2), w0) /\
      burnin_loop (Demo.env None) 3 2 None 2 p0' None None None w0
        = Some (Ok (true, Some (2%nat, 0%nat, 1%nat)), w') /\
      exists q,
        ks_pass (Demo.env None) (seq 0 (dim (self w'))) (mat_at w' q)
          (mat_at w' (fst (fst (2%nat, 0%nat, 1%nat)))) = Ok true.
Proof.
  set (w' := snd (sample (Demo.env None) (Some 1%nat) None None 2 2
                    (snd (burnin_entry 0%nat 2 None Demo.fresh)))).
  assert (burnin (Demo.env None) 3 0%nat None None 2 None Demo.fresh
          = Some (Ok (2%nat, 0%nat, 1%nat), w')) as H by (vm_compute; reflexivity).
  exists w'. split; [exact H|].
  exact (burnin_without_budget_never_gives_up (Demo.env None) 3 0%nat None None 2
           Demo.fresh (2%nat, 0%nat, 1%nat) w' H).
Defined.

(** X17: whatever [max_steps] and [update_interval] are, the first
    window of [burnin] fits the budget, so that [sample] is called at
    least once; and [burnin] never reaches its [return] before [p],
    [lnpost] and [lnprop] are bound. *)
Theorem burnin_first_window_runs
    (X : Extern) fuel p0 lnpost0 lnprop0 ui max_steps w p0' max_iter test_interval w0 :
  burnin_entry p0 ui max_steps w = (Ok (p0', max_iter, test_interval), w0) ->
  exceeds (Z.of_nat (iterations (self w0)) + test_interval) max_iter = false /\
  (forall b w1,
     burnin_loop X fuel ui max_iter test_interval p0' lnpost0 lnprop0 None w0
       <> Some (Ok (b, None), w1)) /\
  (forall r w', burnin X fuel p0 lnpost0 lnprop0 ui max_steps w = Some (r, w') ->
     exists rs ws,
       sample X (Some p0') lnpost0 lnprop0 test_interval ui w0 = (rs, ws) /\
       forall e, rs = Raise e -> r = Raise e /\ w' = ws).
Proof.
  unfold burnin_entry, bind, read_mat, new_mat, get_self, ret. simpl.
  intros [= <- <- <- <-]. simpl.
  pose proof (first_window_fits (Z.of_nat (iterations (self w))) ui max_steps) as Hfit.
  split; [exact Hfit|]. split.
  - intros b w1. destruct fuel as [|fuel]; [done|]. simpl. rewrite Hfit.
    match goal with |- context [sample X ?q ?l1 ?l2 ?ti ui ?v] =>
      destruct (sample X q l1 l2 ti ui v) as [[[[p a] c]|e] w2] end; [|done].
    destruct (ks_pass X _ _ _) as [[]|e]; [done| |done].
    destruct (next_test_interval (self w2)) as [ti'|e]; [|done].
    intros H. by apply burnin_loop_last in H as [? ?].
  - intros r w'. unfold burnin, burnin_entry, bind, read_mat, new_mat, get_self, ret. simpl.
    destruct fuel as [|fuel]; [done|]. simpl. rewrite Hfit.
    match goal with |- context [sample X ?q ?l1 ?l2 ?ti ui ?v] =>
      destruct (sample X q l1 l2 ti ui v) as [[[[p a] c]|e] w2] end.
    + intros _. eexists _, _. split; [reflexivity|]. done.
    + intros [= <- <-]. eexists _, _. split; [reflexivity|]. by intros e' [= <-].
Qed.

Lemma burnin_first_window_runs_witness :
  burnin_entry 0%nat 10 (Some (-3)) Demo.fresh
    = (Ok (1%nat, Some (-3), -3), snd (burnin_entry 0%nat 10 (Some (-3)) Demo.fresh)) /\
  let w0 := snd (burnin_entry 0%nat 10 (Some (-3)) Demo.fresh) in
  exceeds (Z.of_nat (iterations (self w0)) + -3) (Some (-3)) = false /\
  (forall b w1,
     burnin_loop (Demo.env None) 1 10 (Some (-3)) (-3) 1%nat None None None w0
       <> Some (Ok (b, None), w1)) /\
  (forall r w', burnin (Demo.env None) 1 0%nat None None 10 (Some (-3)) Demo.fresh
                  = Some (r, w') ->
     exists rs ws,
       sample (Demo.env None) (Some 1%nat) None None (-3) 10 w0 = (rs, ws) /\
       forall e, rs = Raise e -> r = Raise e /\ w' = ws).
Proof.
  assert (burnin_entry 0%nat 10 (Some (-3)) Demo.fresh
          = (Ok (1%nat, Some (-3), -3), snd (burnin_entry 0%nat 10 (Some (-3)) Demo.fresh)))
    as H by (vm_compute; reflexivity).
  split; [exact H|].
  exact (burnin_first_window_runs (Demo.env None) 1 0%nat None None 10 (Some (-3)) Demo.fresh
           1%nat (Some (-3)) (-3) _ H).
Defined.

(** X18: [burnin] with a negative [max_steps] still enters its first
    window, of [min(update_interval, max_steps) < 0] iterations, and
    raises what [sample] raises there; the four histories and the
    iteration counter are as they were. *)
Theorem burnin_negative_budget (X : Extern) fuel p0 lnpost0 lnprop0 ui max_steps w :
  max_steps < 0 ->
  exists e w',
    burnin X (S fuel) p0 lnpost0 lnprop0 ui (Some max_steps) w = Some (Raise e, w') /\
    chain w' = chain w /\ lnpost w' = lnpost w /\ lnprop w' = lnprop w /\
    acceptance w' = acceptance w /\ iterations (self w') = iterations (self w).
Proof.
  intros Hms. unfold burnin.
  set (w0 := mkWorld (self w) (vecs w) (mats w ++ [mat_at w p0]) (trace w)).
  assert (burnin_entry p0 ui (Some max_steps) w
          = (Ok (length (mats w), Some (Z.of_nat (iterations (self w)) + max_steps),
                 Z.min ui max_steps), w0)) as -> by reflexivity.
  assert (exceeds (Z.of_nat (iterations (self w0)) + Z.min ui max_steps)
            (Some (Z.of_nat (iterations (self w)) + max_steps)) = false) as Hfit
    by exact (first_window_fits _ ui (Some max_steps)).
  cbn [burnin_loop]. rewrite Hfit.
  match goal with |- context [sample X ?q lnpost0 lnprop0 ?ti ui w0] =>
    destruct (sample_negative X q lnpost0 lnprop0 ti ui w0 ltac:(lia))
      as (e & w' & Hrun & E)
  end.
  rewrite Hrun. exists e, w'. split; [done|].
  destruct E as (C1 & C2 & C3 & C4 & I & _). done.
Qed.

Lemma burnin_negative_budget_witness :
  -3 < 0 /\
  exists e w',
    burnin (Demo.env None) 1 0%nat None None 10 (Some (-3)) Demo.fresh = Some (Raise e, w') /\
    chain w' = chain Demo.fresh /\ lnpost w' = lnpost Demo.fresh /\
    lnprop w' = lnprop Demo.fresh /\
    acceptance w' = acceptance Demo.fresh /\
    iterations (self w') = iterations (self Demo.fresh).
Proof.
  assert (-3 < 0) as H by lia.
  split; [exact H|].
  exact (burnin_negative_budget (Demo.env None) 0 0%nat None None 10 (-3) Demo.fresh H).
Defined.

(** X19: when the first test interval of [burnin] is 0 ([max_steps=0],
    or [update_interval=0]) and the two-sample test passes a sample
    against itself, [burnin] ends in its first cycle without a single
    iteration: its window returns a copy of the start positions, which
    passes the test, so that a [burnin] that returns reports success
    and returns the start positions; the four histories and the
    iteration counter are as they were. *)
Theorem burnin_zero_window (X : Extern) fuel p0 lnpost0 lnprop0 ui max_steps w :
  (forall x, (snd (ks_2samp X x x) <? critical_pval)%float = false) ->
  match max_steps with None => ui | Some ms => Z.min ui ms end = 0 ->
  exists out w',
    burnin X (S fuel) p0 lnpost0 lnprop0 ui max_steps w = Some (out, w') /\
    chain w' = chain w /\ lnpost w' = lnpost w /\ lnprop w' = lnprop w /\
    acceptance w' = acceptance w /\ iterations (self w') = iterations (self w) /\
    forall t, out = Ok t ->
      mat_at w' (fst (fst t)) = mat_at w p0 /\
      exists p0' max_iter w0,
        burnin_entry p0 ui max_steps w = (Ok (p0', max_iter, 0), w0) /\
        burnin_loop X (S fuel) ui max_iter 0 p0' lnpost0 lnprop0 None w0
          = Some (Ok (true, Some t), w').
Proof.
  intros Hks Hti. unfold burnin.
  set (w0 := mkWorld (self w) (vecs w) (mats w ++ [mat_at w p0]) (trace w)).
  set (max_iter := option_map (fun ms => Z.of_nat (iterations (self w)) + ms) max_steps).
  assert (burnin_entry p0 ui max_steps w = (Ok (length (mats w), max_iter, 0), w0)) as Hentry.
  { unfold burnin_entry, bind, read_mat, new_mat, get_self, ret. simpl. by rewrite Hti. }
  rewrite Hentry.
  assert (exceeds (Z.of_nat (iterations (self w0)) + 0) max_iter = false) as Hfit.
  { pose proof (first_window_fits (Z.of_nat (iterations (self w))) ui max_steps) as H.
    by rewrite Hti in H. }
  assert (length (mats w) < length (mats w0))%nat as Hp0.
  { unfold w0. simpl. rewrite length_app. simpl. lia. }
  assert (mat_at w0 (length (mats w)) = mat_at w p0) as Hcopy0.
  { unfold mat_at at 1, w0. simpl. by rewrite lookup_app_r, Nat.sub_diag by lia. }
  cbn [burnin_loop]. rewrite Hfit.
  match goal with |- context [sample X ?q lnpost0 lnprop0 0 ui w0] =>
    destruct (sample X q lnpost0 lnprop0 0 ui w0) as [[[[p a] b]|e] w1] eqn:Hs
  end.
  2:{ exists (Raise e), w1. apply sample_zero_extends in Hs as (C1 & C2 & C3 & C4 & I & _).
      repeat apply conj; try done. }
  pose proof (sample_zero_extends X _ _ _ _ _ _ _ Hs)
    as (C1 & C2 & C3 & C4 & I & _ & _ & _ & (l & Hm) & _).
  pose proof (sample_positions X _ _ _ _ _ _ _ _ _ _ Hp0 Hs) as (_ & Hcopy).
  specialize (Hcopy eq_refl).
  assert (mat_at w1 (length (mats w)) = mat_at w p0) as Hcopy1.
  { rewrite <- Hcopy0. unfold mat_at. by rewrite Hm, lookup_app_l. }
  rewrite Hcopy.
  destruct (ks_pass_same X Hks (seq 0 (dim (self w1))) (mat_at w1 (length (mats w))))
    as [E|[e E]]; rewrite E.
  - exists (Ok (p, a, b)), w1. simpl. repeat apply conj; try done.
    intros t [= <-]. simpl. split; [congruence|].
    exists (length (mats w)), max_iter, w0. split; [done|].
    cbn [burnin_loop]. by rewrite Hfit, Hs, Hcopy, E.
  - exists (Raise e), w1. repeat apply conj; try done.
Qed.

(** A burn-in with no step to spend. *)
Lemma burnin_zero_window_witness :
  ((forall x, (snd (ks_2samp (Demo.env None) x x) <? critical_pval)%float = false) /\
   Z.min 10 0 = 0) /\
  exists out w',
    burnin (Demo.env None) 1 0%nat None None 10 (Some 0) Demo.fresh = Some (out, w') /\
    chain w' = chain Demo.fresh /\ lnpost w' = lnpost Demo.fresh /\
    lnprop w' = lnprop Demo.fresh /\
    acceptance w' = acceptance Demo.fresh /\
    iterations (self w') = iterations (self Demo.fresh) /\
    forall t, out = Ok t ->
      mat_at w' (fst (fst t)) = mat_at Demo.fresh 0%nat /\
      exists p0' max_iter w0,
        burnin_entry 0%nat 10 (Some 0) Demo.fresh = (Ok (p0', max_iter, 0), w0) /\
        burnin_loop (Demo.env None) 1 10 max_iter 0 p0' None None None w0
          = Some (Ok (true, Some t), w').
Proof.
  assert (forall x, (snd (ks_2samp (Demo.env None) x x) <? critical_pval)%float = false) as Hks
    by (intros x; apply ks_with_same).
  assert (Z.min 10 0 = 0) as H by reflexivity.
  split; [auto|].
  exact (burnin_zero_window (Demo.env None) 0 0%nat None None 10 (Some 0) Demo.fresh Hks H).
Defined.

(** The burn-in of the witness, run: it returns at once, with the
    start positions and no iteration. *)
Example burnin_zero_budget_run :
  match burnin (Demo.env None) 1 0%nat None None 10 (Some 0) Demo.fresh with
  | Some (r, w') =>
      r = Ok (2%nat, 0%nat, 1%nat) /\ iterations (self w') = 0%nat /\
      mat_at w' 2%nat = [[0.5]; [1.5]; [-2]]%float /\
      forallb (fun e => match e with EvPrint _ => false | _ => true end) (trace w') = true
  | None => False
  end.
Proof. vm_compute. repeat split; reflexivity. Qed.

(** ** How often a call of [sample] fits the proposal *)

Lemma fits_app evs1 evs2 : fits (evs1 ++ evs2) = (fits evs1 + fits evs2)%nat.
Proof. unfold fits. by rewrite List.filter_app, length_app. Qed.

Lemma fits_quiet evs : forallb quiet evs = true -> fits evs = 0%nat.
Proof.
  unfold fits. induction evs as [|e evs IH]; simpl; [done|].
  intros [He Hq]%andb_true_iff. destruct e; simpl; try done; by apply IH.
Qed.

(** Between [i] and [i + 1] lies a multiple of [ui] exactly when
    [i + 1] is one. *)
Lemma multiples_step (i ui : Z) :
  0 < ui ->
  (i + 1) / ui - i / ui = if (i + 1) mod ui =? 0 then 1 else 0.
Proof.
  intros Hui.
  pose proof (Z.div_mod i ui ltac:(lia)) as D1.
  pose proof (Z.div_mod (i + 1) ui ltac:(lia)) as D2.
  pose proof (Z.mod_pos_bound i ui Hui) as B1.
  pose proof (Z.mod_pos_bound (i + 1) ui Hui) as B2.
  destruct (Z.eqb_spec ((i + 1) mod ui) 0) as [E|E]; nia.
Qed.

Section Fits.
Context (X : Extern).

Lemma asks_only_fits w w' :
  asks_only w w' -> exists evs, trace w' = trace w ++ evs /\ fits evs = 0%nat.
Proof.
  intros (_ & _ & _ & evs & T & Q). exists evs. split; [done|]. by apply fits_quiet.
Qed.

(** A completed iteration fits the proposal once if the new count is a
    multiple of the update interval, and not at all otherwise. *)
Lemma mh_iteration_fits ui p a b w w' :
  0 < ui ->
  mh_iteration X ui p a b w = (Ok tt, w') ->
  exists evs,
    trace w' = trace w ++ evs /\
    Z.of_nat (fits evs)
    = (Z.of_nat (iterations (self w)) + 1) / ui - Z.of_nat (iterations (self w)) / ui.
Proof.
  intros Hui H.
  apply mh_iteration_ok in H
    as (p_p & lp & lq & ratio & acc & w1 & w2 & w3 & w4 & w5 &
        Hdraw & Heval & Hratio & Hacc & Hupd & Hstore & Hrefit).
  pose proof (asks_only_trans _ _ _ (asks_only_trans _ _ _ (draw_asks X _ _ _ _ Hdraw)
                (evaluate_asks X _ _ _ _ Heval)) (accept_asks X _ _ _ _ Hacc)) as A3.
  pose proof A3 as (S3 & _).
  apply asks_only_fits in A3 as (evs & T3 & F3).
  apply update_frame in Hupd as (S4 & T4 & _).
  apply store_ok in Hstore
    as (I5 & _ & _ & _ & _ & _ & _ & _ & _ & _ & _ & _ & _ & _ & _ & _ & T5).
  assert (trace w5 = trace w ++ evs) as T by congruence.
  assert (Z.of_nat (iterations (self w5)) = Z.of_nat (iterations (self w)) + 1) as I.
  { rewrite I5, S4, S3. lia. }
  rewrite multiples_step by done.
  rewrite refit_run in Hrefit. rewrite I in Hrefit.
  destruct (Z.eqb_spec ui 0) as [|_]; [lia|].
  destruct (_ mod _ =? 0).
  - simpl in Hrefit. destruct (optimized_kde X (clock w5) (mat_at w5 p)); [done|].
    injection Hrefit as <-. simpl. exists (evs ++ [EvFit (mat_at w5 p)]).
    rewrite T, app_assoc, fits_app, F3. done.
  - injection Hrefit as <-. exists evs. rewrite F3. done.
Qed.

Lemma sample_loop_fits n ui p a b w w' :
  0 < ui ->
  sample_loop X n ui p a b w = (Ok tt, w') ->
  exists evs,
    trace w' = trace w ++ evs /\
    Z.of_nat (fits evs)
    = (Z.of_nat (iterations (self w)) + Z.of_nat n) / ui - Z.of_nat (iterations (self w)) / ui.
Proof.
  intros Hui. revert w. induction n as [|n IH]; intros w.
  - simpl. intros [= <-]. exists []. rewrite app_nil_r, Z.add_0_r, Z.sub_diag. done.
  - simpl. unfold bind. destruct (mh_iteration X ui p a b w) as [[[]|e] w1] eqn:Hit; [|done].
    intros Hloop.
    pose proof (mh_iteration_counts X _ _ _ _ _ _ Hit) as (I1 & _).
    apply mh_iteration_fits in Hit as (evs1 & T1 & F1); [|done].
    apply IH in Hloop as (evs2 & T2 & F2).
    exists (evs1 ++ evs2). rewrite T2, T1, app_assoc, fits_app. split; [done|].
    rewrite I1 in F2.
    replace (Z.of_nat (iterations (self w)) + Z.of_nat (S n))
      with (Z.of_nat (S (iterations (self w))) + Z.of_nat n) by lia.
    replace (Z.of_nat (iterations (self w)) + 1)
      with (Z.of_nat (S (iterations (self w)))) in F1 by lia.
    lia.
Qed.

(** The set-up fits the proposal once if there is none, and not at all
    otherwise. *)
Lemma sample_setup_fits p0 l1 l2 n w p a b w' :
  sample_setup X p0 l1 l2 n w = (Ok (p, a, b), w') ->
  exists evs,
    trace w' = trace w ++ evs /\
    fits evs = match _kde (self w) with Some _ => 0%nat | None => 1%nat end.
Proof.
  intros H. apply sample_setup_ok in H as (w1 & w2 & w3 & H1 & H2 & H3 & H4).
  assert (self w1 = self w /\ exists evs, trace w1 = trace w ++ evs /\ fits evs = 0%nat)
    as (S1 & evs1 & T1 & F1).
  { revert H1. unfold initial_positions. destruct p0 as [r|].
    - unfold bind, read_mat, new_mat. simpl. intros [= _ <-]. simpl.
      split; [done|]. exists []. by rewrite app_nil_r.
    - unfold bind, get_self. simpl.
      destruct (draw X (nwalkers (self w)) w) as [[d|] w0] eqn:Hd; simpl; [|done].
      unfold new_mat. intros [= _ <-]. simpl.
      pose proof (draw_asks X _ _ _ _ Hd) as A. pose proof A as (S & _).
      split; [done|]. by apply asks_only_fits. }
  assert (exists evs, trace w2 = trace w1 ++ evs /\
            fits evs = match _kde (self w) with Some _ => 0%nat | None => 1%nat end)
    as (evs2 & T2 & F2).
  { revert H2. unfold ensure_kde, bind, get_self. simpl. rewrite S1.
    destruct (_kde (self w)).
    - intros [= <-]. exists []. by rewrite app_nil_r.
    - unfold read_mat, fit, bind, now, emit, modify, raise, ret. simpl.
      destruct (optimized_kde X (clock w1) (mat_at w1 p)); [done|].
      intros [= <-]. simpl. by exists [EvFit (mat_at w1 p)]. }
  assert (exists evs, trace w3 = trace w2 ++ evs /\ fits evs = 0%nat)
    as (evs3 & T3 & F3).
  { revert H3. unfold initial_values.
    assert (forall r0, (let* pv := read_mat p in
             let* (r0, r1) := evaluate X pv in
             let* lnpost := match l1 with None => new_vec r0 | Some a => ret a end in
             let* lnprop := match l2 with None => new_vec r1 | Some b => ret b end in
             ret (lnpost, lnprop)) w2 = (Ok r0, w3) ->
            exists evs, trace w3 = trace w2 ++ evs /\ fits evs = 0%nat) as Hev.
    { intros r0. unfold bind, read_mat. simpl.
      destruct (evaluate X (mat_at w2 p) w2) as [[[v0 v1]|] w0] eqn:He; simpl; [|done].
      apply evaluate_asks, asks_only_fits in He as (evs & T & F).
      destruct l1, l2; unfold new_vec, ret; simpl; intros [= _ <-]; simpl; eauto. }
    destruct l1, l2; try apply Hev.
    intros [= _ _ <-]. exists []. by rewrite app_nil_r. }
  apply preallocate_ok in H4
    as (_ & _ & _ & _ & _ & _ & _ & _ & _ & _ & _ & _ & _ & _ & _ & _ & T4).
  exists (evs1 ++ evs2 ++ evs3).
  rewrite T4, T3, T2, T1, !fits_app, F1, F2, F3, <- !app_assoc. split; [done|lia].
Qed.
End Fits.

(** X20: a call [sample(iterations=k, update_interval=ui)] with
    [ui > 0] that returns has fitted the proposal once for each
    multiple of [ui] among the iteration counts [n + 1, ..., n + k] it
    reached, that is [(n + k) // ui - n // ui] times, and once more at
    the start if the sampler had no proposal. *)
Theorem fits_of_a_run (X : Extern) p0 lnpost0 lnprop0 k ui w r w' :
  0 < ui ->
  sample X p0 lnpost0 lnprop0 k ui w = (Ok r, w') ->
  exists evs,
    trace w' = trace w ++ evs /\
    Z.of_nat (fits evs)
    = (match _kde (self w) with Some _ => 0 | None => 1 end)
      + ((Z.of_nat (iterations (self w)) + k) / ui - Z.of_nat (iterations (self w)) / ui).
Proof.
  intros Hui H.
  pose proof (sample_ok_lengths X _ _ _ _ _ _ _ _ H) as (Hk & _).
  revert H. unfold sample. unfold bind at 1.
  destruct (sample_setup X p0 lnpost0 lnprop0 k w) as [[[[p a] b]|e] w1] eqn:Hs; [|done].
  unfold bind at 1.
  destruct (sample_loop X (Z.to_nat k) ui p a b w1) as [[[]|e] w2] eqn:Hloop; [|done].
  intros [= _ <-].
  pose proof (steps_sample_setup_count X _ _ _ _ _ _ _ Hs) as I1. unfold same_count in I1.
  apply sample_setup_fits in Hs as (evs1 & T1 & F1).
  apply sample_loop_fits in Hloop as (evs2 & T2 & F2); [|done].
  exists (evs1 ++ evs2). rewrite T2, T1, app_assoc, fits_app. split; [done|].
  rewrite I1, Z2Nat.id in F2 by done.
  destruct (_kde (self w)); lia.
Qed.

(** Seven iterations of a fresh sampler with an update interval of 3:
    the first fit of the proposal and two more. *)
Lemma fits_of_a_run_witness :
  (0 < 3 /\
   sample (Demo.env None) (Some 0%nat) None None 7 3 Demo.fresh
     = (Ok (1%nat, 0%nat, 1%nat),
        snd (sample (Demo.env None) (Some 0%nat) None None 7 3 Demo.fresh))) /\
  exists evs,
    trace (snd (sample (Demo.env None) (Some 0%nat) None None 7 3 Demo.fresh))
      = trace Demo.fresh ++ evs /\
    Z.of_nat (fits evs)
    = (match _kde (self Demo.fresh) with Some _ => 0 | None => 1 end)
      + ((Z.of_nat (iterations (self Demo.fresh)) + 7) / 3
         - Z.of_nat (iterations (self Demo.fresh)) / 3).
Proof.
  assert (0 < 3) as Hui by lia.
  assert (sample (Demo.env None) (Some 0%nat) None None 7 3 Demo.fresh
          = (Ok (1%nat, 0%nat, 1%nat),
             snd (sample (Demo.env None) (Some 0%nat) None None 7 3 Demo.fresh))) as H
    by (vm_compute; reflexivity).
  split; [auto|].
  exact (fits_of_a_run (Demo.env None) (Some 0%nat) None None 7 3 Demo.fresh _ _ Hui H).
Defined.

(** The run of the witness asks for three fits. *)
Example fits_of_seven :
  fits (trace (snd (sample (Demo.env None) (Some 0%nat) None None 7 3 Demo.fresh))) = 3%nat.
Proof. vm_compute. reflexivity. Qed.
